(** * Aurora Borealis Generator: path capture and effect compiler

    A shallow embedding of [aurora_generator.py], a Blender add-on with two
    operators:

    - [CURVE_OT_DrawPath], a modal operator that turns clicks in the 3D view
      into the control points of a Bezier curve;
    - [AURORA_OT_Create], which builds a mesh, two modifiers, a material node
      tree and an optional animation for the active curve, after removing
      what an earlier run left behind.

    The add-on is a client of Blender's Python API.  The part of the host the
    add-on touches is modelled as an explicit state ([Host]): the data-block
    stores [bpy.data.objects], [meshes], [curves], [textures], [materials]
    keyed by their (unique) names, reference counts ([users]), custom
    properties, the active object, draw handlers, the cursor and the report
    log.  Python floats are modelled by exact rationals ([Q]). *)

From Stdlib Require Import QArith Ascii DecimalString DecimalNat Lia Lqa.
From stdpp Require Import gmap strings list fin_maps.

Local Open Scope Q_scope.

(* ===================================================================== *)
(** ** Unique data-block names

    Blender keeps the names of the data-blocks of one kind unique: a new or
    renamed block whose name is taken gets the first free numeric suffix,
    [Name.001], [Name.002], ... *)
(* ===================================================================== *)

Module Names.

Definition decimal (n : nat) : string :=
  NilEmpty.string_of_uint (Nat.to_uint n).

Definition zero_pad (s : string) : string := String "0"%char s.

(** At least three digits, as in [Plane.001]. *)
Definition zfill3 (s : string) : string :=
  match String.length s with
  | 1%nat => zero_pad (zero_pad s)
  | 2%nat => zero_pad s
  | _ => s
  end.

Definition numbered (base : string) (n : nat) : string :=
  base +:+ String "."%char (zfill3 (decimal n)).

Fixpoint first_free (base : string) (used : gset string) (n fuel : nat)
  : string :=
  match fuel with
  | O => numbered base n
  | S fuel' =>
      if decide (numbered base n ∈ used)
      then first_free base used (S n) fuel'
      else numbered base n
  end.

(** [unique_name base used]: the name a new block asking for [base] gets
    when the names in [used] are taken. *)
Definition unique_name (base : string) (used : gset string) : string :=
  if decide (base ∈ used) then first_free base used 1 (size used) else base.

(** Reading a suffix back, used only to show that the numbering never
    repeats a name. *)
Definition read_decimal (s : string) : option nat :=
  Nat.of_uint <$> NilEmpty.uint_of_string s.

End Names.

(* ===================================================================== *)
(** ** Programs over a mutable store

    The add-on is imperative Python: it mutates the host and may raise.
    [Prog S A] is a computation over a store [S] that returns an [A] or
    raises a Python exception; the store mutated so far survives a raise. *)
(* ===================================================================== *)

Inductive PyExc : Set :=
  | KeyError | IndexError | TypeError | AttributeError | ReferenceError
  | RuntimeError | ValueError.

Inductive Res (S A : Type) : Type :=
  | Ok (a : A) (s : S)
  | Raise (e : PyExc) (s : S).
Arguments Ok {S A} a s.
Arguments Raise {S A} e s.

Definition Prog (S A : Type) : Type := S → Res S A.

Definition ret {S A} (a : A) : Prog S A := λ s, Ok a s.

Definition bind {S A B} (m : Prog S A) (k : A → Prog S B) : Prog S B :=
  λ s, match m s with
       | Ok a s' => k a s'
       | Raise e s' => Raise e s'
       end.

Definition raise {S A} (e : PyExc) : Prog S A := λ s, Raise e s.
Definition gets {S A} (f : S → A) : Prog S A := λ s, Ok (f s) s.
Definition modify {S} (f : S → S) : Prog S unit := λ s, Ok tt (f s).

Declare Scope prog_scope.
Delimit Scope prog_scope with prog.
Notation "'let*' x := m 'in' k" := (bind m (λ x, k))
  (at level 10, x pattern, m at level 100, k at level 200) : prog_scope.
Notation "m ;; k" := (bind m (λ _, k))
  (at level 100, k at level 200, right associativity) : prog_scope.
Local Open Scope prog_scope.

(** [from_some e o]: the value of [o], or raise [e]. *)
Definition from_some {S A} (e : PyExc) (o : option A) : Prog S A :=
  match o with Some a => ret a | None => raise e end.

(** Run a program on a part [T] of the store [S]; [e] is raised when the
    part is not there (a removed data-block, a missing key). *)
Definition zoom {S T A} (e : PyExc) (proj : S → option T) (inj : T → S → S)
    (p : Prog T A) : Prog S A :=
  λ s, match proj s with
       | None => Raise e s
       | Some t =>
           match p t with
           | Ok a t' => Ok a (inj t' s)
           | Raise x t' => Raise x (inj t' s)
           end
       end.

(** The final store of a run, whatever the outcome. *)
Definition store_of {S A} (r : Res S A) : S :=
  match r with Ok _ s => s | Raise _ s => s end.

(* ===================================================================== *)
(** ** The host: Blender's data-blocks and context *)
(* ===================================================================== *)

(** [mathutils.Vector] of size 3. *)
Record Vector : Type := Vec { vx : Q; vy : Q; vz : Q }.

Definition vadd (a b : Vector) : Vector :=
  Vec (vx a + vx b) (vy a + vy b) (vz a + vz b).
Definition vscale (t : Q) (a : Vector) : Vector :=
  Vec (t * vx a) (t * vy a) (t * vz a).
Definition vzero : Vector := Vec 0 0 0.

(** RGBA colour. *)
Record Color : Type := RGBA { red : Q; green : Q; blue : Q; alpha : Q }.

(** *** Objects and their modifiers *)

Inductive ObType : Set := MESH | CURVE | EMPTY.
Inductive ObMode : Set := OBJECT | EDIT.

#[global] Instance ObType_eq_dec : EqDecision ObType.
Proof. solve_decision. Defined.
Inductive ModType : Set := CURVE_MOD | DISPLACE_MOD.
Inductive Direction : Set := DIR_X | DIR_Y | DIR_Z | DIR_NORMAL.

Record Modifier : Type := {
  md_name : string;
  md_type : ModType;
  md_object : option string;    (* CurveModifier.object *)
  md_texture : option string;   (* DisplaceModifier.texture *)
  md_strength : Q;
  md_direction : Direction;
}.

(** What [modifiers.new(name, type)] returns before any field is set. *)
Definition new_modifier (name : string) (ty : ModType) : Modifier :=
  {| md_name := name; md_type := ty; md_object := None; md_texture := None;
     md_strength := 1; md_direction := DIR_NORMAL |}.

Record Object : Type := {
  ob_type : ObType;
  ob_data : option string;          (* name of the mesh or curve data *)
  ob_select : bool;
  ob_mode : ObMode;
  ob_rotation_euler : Vector;
  ob_modifiers : list Modifier;
  ob_props : gmap string string;    (* custom properties, [ob["key"]] *)
}.

(** *** Geometry *)

(** A quadrilateral face by its four corners. *)
Record Quad : Type := MkQuad { qa : Vector; qb : Vector; qc : Vector; qd : Vector }.

Record Mesh : Type := {
  me_faces : list Quad;
  (** Rotations about X, in radians, already applied to the vertex data.
      The angle is kept exact: its sine and cosine are not rational. *)
  me_applied_rot_x : list Q;
  me_materials : list string;
  me_users : nat;
}.

Inductive Handle : Set := FREE | VECTOR | ALIGNED | AUTO.

Record BezierPoint : Type := {
  co : Vector;
  handle_left_type : Handle;
  handle_right_type : Handle;
}.

Definition blank_bezier_point : BezierPoint :=
  {| co := vzero; handle_left_type := FREE; handle_right_type := FREE |}.

Inductive SplineType : Set := BEZIER | POLY | NURBS.

Record Spline : Type := {
  sp_type : SplineType;
  bezier_points : list BezierPoint;
}.

Inductive Dimensions : Set := DIM_2D | DIM_3D.

Record Curve : Type := {
  cu_dimensions : Dimensions;
  cu_splines : list Spline;
  cu_users : nat;
}.

Inductive TexType : Set := CLOUDS | NO_TEXTURE.

Record Texture : Type := {
  tx_type : TexType;
  tx_noise_scale : Q;
  tx_users : nat;
}.

(** *** Shader node trees *)

Inductive NodeType : Set :=
  | ShaderNodeOutputMaterial | ShaderNodeMixShader | ShaderNodeEmission
  | ShaderNodeBsdfTransparent | ShaderNodeValToRGB | ShaderNodeSeparateXYZ
  | ShaderNodeTexCoord | ShaderNodeTexNoise | ShaderNodeMapping
  | ShaderNodeMath | ShaderNodeBsdfPrincipled.

#[global] Instance NodeType_eq_dec : EqDecision NodeType.
Proof. solve_decision. Defined.

Inductive SocketValue : Type :=
  | VFloat (x : Q)
  | VVector (v : Vector)
  | VColor (c : Color)
  | VShader.                       (* shader sockets carry no constant *)

(** An input socket and its [default_value], the constant used while the
    socket is not linked. *)
Record Socket : Type := { sk_name : string; sk_default : SocketValue }.

Inductive MathOp : Set := ADD | SUBTRACT | MULTIPLY | MINIMUM | MAXIMUM.

Record RampElement : Type := { re_position : Q; re_color : Color }.

Record Node : Type := {
  nd_type : NodeType;
  nd_name : string;
  nd_location : Q * Q;
  nd_inputs : list Socket;
  nd_outputs : list string;
  nd_operation : option MathOp;              (* Math nodes only *)
  nd_color_ramp : option (list RampElement); (* ColorRamp nodes only *)
}.

(** A link from output [lk_from_socket] of node [lk_from_node] to input
    [lk_to_socket] of node [lk_to_node]; nodes are named by their position
    in [nodes], sockets by their index. *)
Record Link : Type := {
  lk_from_node : nat; lk_from_socket : nat;
  lk_to_node : nat; lk_to_socket : nat;
}.

Inductive Interpolation : Set := CONSTANT | LINEAR | BEZIER_CURVE.
Inductive FModifier : Set := CYCLES | NOISE | LIMITS.

Record Keyframe : Type := {
  kf_frame : Q;
  kf_value : Q;
  kf_interpolation : Interpolation;
}.

Record FCurve : Type := {
  fc_data_path : string;
  fc_array_index : nat;
  keyframe_points : list Keyframe;
  fc_modifiers : list FModifier;
}.

Record Action : Type := { fcurves : list FCurve }.
Record AnimData : Type := { action : option Action }.

Record NodeTree : Type := {
  nodes : list Node;
  links : list Link;
  animation_data : option AnimData;
}.

Inductive BlendMethod : Set := OPAQUE | BLEND.

Record Material : Type := {
  mt_use_nodes : bool;
  mt_blend_method : BlendMethod;
  mt_node_tree : option NodeTree;
}.

(** **** Node types as Blender 4.0 declares them *)

Definition white : Color := RGBA 1 1 1 1.
Definition black : Color := RGBA 0 0 0 1.

Definition sock (name : string) (v : SocketValue) : Socket :=
  {| sk_name := name; sk_default := v |}.

Definition type_label (ty : NodeType) : string :=
  match ty with
  | ShaderNodeOutputMaterial => "Material Output"
  | ShaderNodeMixShader => "Mix Shader"
  | ShaderNodeEmission => "Emission"
  | ShaderNodeBsdfTransparent => "Transparent BSDF"
  | ShaderNodeValToRGB => "Color Ramp"
  | ShaderNodeSeparateXYZ => "Separate XYZ"
  | ShaderNodeTexCoord => "Texture Coordinate"
  | ShaderNodeTexNoise => "Noise Texture"
  | ShaderNodeMapping => "Mapping"
  | ShaderNodeMath => "Math"
  | ShaderNodeBsdfPrincipled => "Principled BSDF"
  end.

Definition type_inputs (ty : NodeType) : list Socket :=
  match ty with
  | ShaderNodeOutputMaterial =>
      [sock "Surface" VShader; sock "Volume" VShader;
       sock "Displacement" (VVector vzero)]
  | ShaderNodeMixShader =>
      [sock "Fac" (VFloat (1#2)); sock "Shader" VShader; sock "Shader" VShader]
  | ShaderNodeEmission =>
      [sock "Color" (VColor white); sock "Strength" (VFloat 1);
       sock "Weight" (VFloat 0)]
  | ShaderNodeBsdfTransparent =>
      [sock "Color" (VColor white); sock "Weight" (VFloat 0)]
  | ShaderNodeValToRGB => [sock "Fac" (VFloat (1#2))]
  | ShaderNodeSeparateXYZ => [sock "Vector" (VVector vzero)]
  | ShaderNodeTexCoord => []
  | ShaderNodeTexNoise =>
      [sock "Vector" (VVector vzero); sock "W" (VFloat 0);
       sock "Scale" (VFloat 5); sock "Detail" (VFloat 2);
       sock "Roughness" (VFloat (1#2)); sock "Lacunarity" (VFloat 2);
       sock "Distortion" (VFloat 0)]
  | ShaderNodeMapping =>
      [sock "Vector" (VVector vzero); sock "Location" (VVector vzero);
       sock "Rotation" (VVector vzero); sock "Scale" (VVector (Vec 1 1 1))]
  | ShaderNodeMath =>
      [sock "Value" (VFloat (1#2)); sock "Value" (VFloat (1#2));
       sock "Value" (VFloat (1#2))]
  | ShaderNodeBsdfPrincipled =>
      (* the leading inputs; this node only occurs in the default tree,
         which the add-on clears *)
      [sock "Base Color" (VColor (RGBA (4#5) (4#5) (4#5) 1));
       sock "Metallic" (VFloat 0); sock "Roughness" (VFloat (1#2));
       sock "IOR" (VFloat (29#20)); sock "Alpha" (VFloat 1);
       sock "Normal" (VVector vzero)]
  end.

Definition type_outputs (ty : NodeType) : list string :=
  match ty with
  | ShaderNodeOutputMaterial => []
  | ShaderNodeMixShader => ["Shader"]
  | ShaderNodeEmission => ["Emission"]
  | ShaderNodeBsdfTransparent => ["BSDF"]
  | ShaderNodeValToRGB => ["Color"; "Alpha"]
  | ShaderNodeSeparateXYZ => ["X"; "Y"; "Z"]
  | ShaderNodeTexCoord =>
      ["Generated"; "Normal"; "UV"; "Object"; "Camera"; "Window";
       "Reflection"]
  | ShaderNodeTexNoise => ["Fac"; "Color"]
  | ShaderNodeMapping => ["Vector"]
  | ShaderNodeMath => ["Value"]
  | ShaderNodeBsdfPrincipled => ["BSDF"]
  end.

(** A fresh colour ramp runs from black at 0 to white at 1. *)
Definition default_ramp : list RampElement :=
  [ {| re_position := 0; re_color := black |};
    {| re_position := 1; re_color := white |} ].

Definition new_node (ty : NodeType) (name : string) : Node :=
  {| nd_type := ty; nd_name := name; nd_location := (0, 0);
     nd_inputs := type_inputs ty; nd_outputs := type_outputs ty;
     nd_operation := match ty with ShaderNodeMath => Some ADD | _ => None end;
     nd_color_ramp :=
       match ty with ShaderNodeValToRGB => Some default_ramp | _ => None end |}.

(** *** The host state *)

(** What an operator returns to the window manager. *)
Inductive OpResult : Set := RUNNING_MODAL | FINISHED | CANCELLED | PASS_THROUGH.

Inductive SpaceType : Set := VIEW_3D | NODE_EDITOR | TEXT_EDITOR | PROPERTIES.
Inductive Cursor : Set := DEFAULT | CROSSHAIR.
Inductive ReportLevel : Set := INFO | WARNING | ERROR.

Record Host : Type := {
  objects : gmap string Object;       (* bpy.data.objects *)
  meshes : gmap string Mesh;          (* bpy.data.meshes *)
  curves : gmap string Curve;         (* bpy.data.curves *)
  textures : gmap string Texture;     (* bpy.data.textures *)
  materials : gmap string Material;   (* bpy.data.materials *)
  collection : list string;           (* context.collection.objects *)
  active : option string;             (* context.view_layer.objects.active *)
  space_type : SpaceType;             (* context.space_data.type *)
  draw_handlers : gset nat;           (* SpaceView3D draw callbacks *)
  modal_handlers : nat;               (* operators registered as modal *)
  cursor : Cursor;                    (* context.window cursor *)
  redraws : nat;                      (* context.area.tag_redraw() calls *)
  reports : list (ReportLevel * string);
}.

Definition set_objects (f : gmap string Object → gmap string Object)
    (h : Host) : Host :=
  {| objects := f (objects h); meshes := meshes h; curves := curves h;
     textures := textures h; materials := materials h;
     collection := collection h; active := active h;
     space_type := space_type h; draw_handlers := draw_handlers h;
     modal_handlers := modal_handlers h; cursor := cursor h;
     redraws := redraws h; reports := reports h |}.

Definition set_meshes (f : gmap string Mesh → gmap string Mesh)
    (h : Host) : Host :=
  {| objects := objects h; meshes := f (meshes h); curves := curves h;
     textures := textures h; materials := materials h;
     collection := collection h; active := active h;
     space_type := space_type h; draw_handlers := draw_handlers h;
     modal_handlers := modal_handlers h; cursor := cursor h;
     redraws := redraws h; reports := reports h |}.

Definition set_curves (f : gmap string Curve → gmap string Curve)
    (h : Host) : Host :=
  {| objects := objects h; meshes := meshes h; curves := f (curves h);
     textures := textures h; materials := materials h;
     collection := collection h; active := active h;
     space_type := space_type h; draw_handlers := draw_handlers h;
     modal_handlers := modal_handlers h; cursor := cursor h;
     redraws := redraws h; reports := reports h |}.

Definition set_textures (f : gmap string Texture → gmap string Texture)
    (h : Host) : Host :=
  {| objects := objects h; meshes := meshes h; curves := curves h;
     textures := f (textures h); materials := materials h;
     collection := collection h; active := active h;
     space_type := space_type h; draw_handlers := draw_handlers h;
     modal_handlers := modal_handlers h; cursor := cursor h;
     redraws := redraws h; reports := reports h |}.

Definition set_materials (f : gmap string Material → gmap string Material)
    (h : Host) : Host :=
  {| objects := objects h; meshes := meshes h; curves := curves h;
     textures := textures h; materials := f (materials h);
     collection := collection h; active := active h;
     space_type := space_type h; draw_handlers := draw_handlers h;
     modal_handlers := modal_handlers h; cursor := cursor h;
     redraws := redraws h; reports := reports h |}.

Definition set_collection (f : list string → list string) (h : Host) : Host :=
  {| objects := objects h; meshes := meshes h; curves := curves h;
     textures := textures h; materials := materials h;
     collection := f (collection h); active := active h;
     space_type := space_type h; draw_handlers := draw_handlers h;
     modal_handlers := modal_handlers h; cursor := cursor h;
     redraws := redraws h; reports := reports h |}.

Definition set_active (a : option string) (h : Host) : Host :=
  {| objects := objects h; meshes := meshes h; curves := curves h;
     textures := textures h; materials := materials h;
     collection := collection h; active := a;
     space_type := space_type h; draw_handlers := draw_handlers h;
     modal_handlers := modal_handlers h; cursor := cursor h;
     redraws := redraws h; reports := reports h |}.

Definition set_draw_handlers (f : gset nat → gset nat) (h : Host) : Host :=
  {| objects := objects h; meshes := meshes h; curves := curves h;
     textures := textures h; materials := materials h;
     collection := collection h; active := active h;
     space_type := space_type h; draw_handlers := f (draw_handlers h);
     modal_handlers := modal_handlers h; cursor := cursor h;
     redraws := redraws h; reports := reports h |}.

Definition set_modal_handlers (f : nat → nat) (h : Host) : Host :=
  {| objects := objects h; meshes := meshes h; curves := curves h;
     textures := textures h; materials := materials h;
     collection := collection h; active := active h;
     space_type := space_type h; draw_handlers := draw_handlers h;
     modal_handlers := f (modal_handlers h); cursor := cursor h;
     redraws := redraws h; reports := reports h |}.

Definition set_cursor (c : Cursor) (h : Host) : Host :=
  {| objects := objects h; meshes := meshes h; curves := curves h;
     textures := textures h; materials := materials h;
     collection := collection h; active := active h;
     space_type := space_type h; draw_handlers := draw_handlers h;
     modal_handlers := modal_handlers h; cursor := c;
     redraws := redraws h; reports := reports h |}.

Definition set_redraws (f : nat → nat) (h : Host) : Host :=
  {| objects := objects h; meshes := meshes h; curves := curves h;
     textures := textures h; materials := materials h;
     collection := collection h; active := active h;
     space_type := space_type h; draw_handlers := draw_handlers h;
     modal_handlers := modal_handlers h; cursor := cursor h;
     redraws := f (redraws h); reports := reports h |}.

Definition add_report (r : ReportLevel * string) (h : Host) : Host :=
  {| objects := objects h; meshes := meshes h; curves := curves h;
     textures := textures h; materials := materials h;
     collection := collection h; active := active h;
     space_type := space_type h; draw_handlers := draw_handlers h;
     modal_handlers := modal_handlers h; cursor := cursor h;
     redraws := redraws h; reports := reports h ++ [r] |}.

(** *** Host primitives: the [bpy] calls the add-on makes *)

Definition ob_set_select (b : bool) (o : Object) : Object :=
  {| ob_type := ob_type o; ob_data := ob_data o; ob_select := b;
     ob_mode := ob_mode o; ob_rotation_euler := ob_rotation_euler o;
     ob_modifiers := ob_modifiers o; ob_props := ob_props o |}.

Definition ob_set_mode (m : ObMode) (o : Object) : Object :=
  {| ob_type := ob_type o; ob_data := ob_data o; ob_select := ob_select o;
     ob_mode := m; ob_rotation_euler := ob_rotation_euler o;
     ob_modifiers := ob_modifiers o; ob_props := ob_props o |}.

Definition ob_set_rotation (r : Vector) (o : Object) : Object :=
  {| ob_type := ob_type o; ob_data := ob_data o; ob_select := ob_select o;
     ob_mode := ob_mode o; ob_rotation_euler := r;
     ob_modifiers := ob_modifiers o; ob_props := ob_props o |}.

Definition ob_set_modifiers (f : list Modifier → list Modifier)
    (o : Object) : Object :=
  {| ob_type := ob_type o; ob_data := ob_data o; ob_select := ob_select o;
     ob_mode := ob_mode o; ob_rotation_euler := ob_rotation_euler o;
     ob_modifiers := f (ob_modifiers o); ob_props := ob_props o |}.

Definition ob_set_props (f : gmap string string → gmap string string)
    (o : Object) : Object :=
  {| ob_type := ob_type o; ob_data := ob_data o; ob_select := ob_select o;
     ob_mode := ob_mode o; ob_rotation_euler := ob_rotation_euler o;
     ob_modifiers := ob_modifiers o; ob_props := f (ob_props o) |}.

Definition new_object (ty : ObType) (data : option string) : Object :=
  {| ob_type := ty; ob_data := data; ob_select := false; ob_mode := OBJECT;
     ob_rotation_euler := vzero; ob_modifiers := []; ob_props := ∅ |}.

Definition me_set_users (f : nat → nat) (m : Mesh) : Mesh :=
  {| me_faces := me_faces m; me_applied_rot_x := me_applied_rot_x m;
     me_materials := me_materials m; me_users := f (me_users m) |}.

Definition cu_set_users (f : nat → nat) (c : Curve) : Curve :=
  {| cu_dimensions := cu_dimensions c; cu_splines := cu_splines c;
     cu_users := f (cu_users c) |}.

Definition tx_set_users (f : nat → nat) (t : Texture) : Texture :=
  {| tx_type := tx_type t; tx_noise_scale := tx_noise_scale t;
     tx_users := f (tx_users t) |}.

(** Run [p] on the object [name]; a removed object raises
    [ReferenceError]. *)
Definition on_object {A} (name : string) (p : Prog Object A) : Prog Host A :=
  zoom ReferenceError (λ h, objects h !! name)
       (λ o, set_objects <[name := o]>) p.

(** [bpy.data.objects[name]] as a Python reference: using a removed
    object raises [ReferenceError]. *)
Definition the_object (name : string) : Prog Host Object :=
  let* o := gets (λ h, objects h !! name) in from_some ReferenceError o.

(** Taking or dropping one user of the data of an object of type [ty]. *)
Definition data_user (f : nat → nat) (ty : ObType) (data : option string)
    (h : Host) : Host :=
  set_meshes (λ ms,
    match data, ty with
    | Some d, MESH => alter (me_set_users f) d ms
    | _, _ => ms
    end)
  (set_curves (λ cs,
    match data, ty with
    | Some d, CURVE => alter (cu_set_users f) d cs
    | _, _ => cs
    end) h).

(** [bpy.data.objects.new(name, data)] *)
Definition objects_new (base : string) (ty : ObType) (data : option string)
  : Prog Host string :=
  let* used := gets (λ h, dom (objects h)) in
  let name := Names.unique_name base used in
  modify (set_objects <[name := new_object ty data]>) ;;
  modify (data_user S ty data) ;;
  ret name.

(** [bpy.data.curves.new(name, type='CURVE')] *)
Definition curves_new (base : string) : Prog Host string :=
  let* used := gets (λ h, dom (curves h)) in
  let name := Names.unique_name base used in
  modify (set_curves <[name :=
    {| cu_dimensions := DIM_2D; cu_splines := []; cu_users := 0 |}]>) ;;
  ret name.

(** Run [p] on the curve data [name]. *)
Definition on_curve {A} (name : string) (p : Prog Curve A) : Prog Host A :=
  zoom ReferenceError (λ h, curves h !! name)
       (λ c, set_curves <[name := c]>) p.

(** [collection.objects.link(ob)] *)
Definition collection_link (name : string) : Prog Host unit :=
  modify (set_collection (λ l, l ++ [name])).

(** The users a removed object gives back: its data and the textures of
    its modifiers. *)
Definition release_textures (mods : list Modifier)
    (ts : gmap string Texture) : gmap string Texture :=
  foldr (λ m ts,
           match md_texture m with
           | Some t => alter (tx_set_users Nat.pred) t ts
           | None => ts
           end) ts mods.

Definition md_forget (name : string) (m : Modifier) : Modifier :=
  if decide (md_object m = Some name)
  then {| md_name := md_name m; md_type := md_type m; md_object := None;
          md_texture := md_texture m; md_strength := md_strength m;
          md_direction := md_direction m |}
  else m.

(** [bpy.data.objects.remove(ob, do_unlink=True)]: the object leaves the
    data and every collection, pointers to it are cleared, and the blocks
    it used lose a user.  The data itself stays in [bpy.data]. *)
Definition objects_remove (name : string) : Prog Host unit :=
  let* o := the_object name in
  modify (set_objects (delete name)) ;;
  modify (set_objects (fmap (ob_set_modifiers (fmap (md_forget name))))) ;;
  modify (set_collection (filter (λ n, n ≠ name))) ;;
  modify (λ h, set_active
    (if decide (active h = Some name) then None else active h) h) ;;
  modify (data_user Nat.pred (ob_type o) (ob_data o)) ;;
  modify (set_textures (release_textures (ob_modifiers o))).

(** [bpy.data.meshes.remove(mesh)] and [bpy.data.textures.remove(tex)];
    the add-on calls them on blocks without users only. *)
Definition meshes_remove (name : string) : Prog Host unit :=
  modify (set_meshes (delete name)).

Definition textures_remove (name : string) : Prog Host unit :=
  modify (set_textures (delete name)).

(** Clearing the selection, as [select_all] and the add operators do. *)
Definition deselect_all : Prog Host unit :=
  modify (set_objects (fmap (ob_set_select false))).

(** The poll of the object-mode operators: the active object, if there is
    one, is in object mode. *)
Definition object_mode (h : Host) : bool :=
  match active h with
  | Some a =>
      match objects h !! a with
      | Some o => match ob_mode o with OBJECT => true | EDIT => false end
      | None => true
      end
  | None => true
  end.

(** [bpy.ops.object.select_all(action='DESELECT')]: like every operator
    called from a script, it raises [RuntimeError] where its poll
    fails. *)
Definition select_all_deselect : Prog Host unit :=
  let* ok := gets object_mode in
  if ok then deselect_all else raise RuntimeError.

(** [ob.select_set(state)] *)
Definition select_set (name : string) (b : bool) : Prog Host unit :=
  on_object name (modify (ob_set_select b)).

(** [bpy.types.SpaceView3D.draw_handler_add(...)]: a new handle. *)
Definition draw_handler_add : Prog Host nat :=
  let* hs := gets draw_handlers in
  let h := fresh hs in
  modify (set_draw_handlers (union {[h]})) ;;
  ret h.

(** [draw_handler_remove(handle, 'WINDOW')]; an unknown handle raises
    [ValueError]. *)
Definition draw_handler_remove (h : nat) : Prog Host unit :=
  let* hs := gets draw_handlers in
  if decide (h ∈ hs) then modify (set_draw_handlers (λ hs, hs ∖ {[h]}))
  else raise ValueError.

Definition cursor_set (c : Cursor) : Prog Host unit := modify (set_cursor c).

Definition report (lvl : ReportLevel) (msg : string) : Prog Host unit :=
  modify (add_report (lvl, msg)).

Definition tag_redraw : Prog Host unit := modify (set_redraws S).

Definition modal_handler_add : Prog Host unit :=
  modify (set_modal_handlers S).

(** [for i, x in enumerate(l): body(i, x)] *)
Fixpoint for_enumerate {S A} (i : nat) (l : list A)
    (body : nat → A → Prog S unit) : Prog S unit :=
  match l with
  | [] => ret tt
  | x :: l' => body i x ;; for_enumerate (Datatypes.S i) l' body
  end.

(* ===================================================================== *)
(** ** Path capture: [CURVE_OT_DrawPath] *)
(* ===================================================================== *)

Module DrawPath.

Inductive EventType : Set :=
  | LEFTMOUSE | RIGHTMOUSE | MIDDLEMOUSE | MOUSEMOVE | WHEELUPMOUSE
  | WHEELDOWNMOUSE | RET | ESC | SPACE | TAB.

Inductive EventValue : Set := PRESS | RELEASE | NOTHING.

Record Event : Type := {
  ev_type : EventType;
  ev_value : EventValue;
  mouse_region_x : Z;
  mouse_region_y : Z;
}.

(** The viewport at the time of an event, [(context.region,
    context.region_data)], stands for its two unprojection maps from
    [bpy_extras.view3d_utils]. *)
Record View : Type := {
  region_2d_to_origin_3d : Z * Z → Vector;
  region_2d_to_vector_3d : Z * Z → Vector;
}.

(** The operator instance: the attributes [invoke] sets on [self]. *)
Record Self : Type := {
  points : list Vector;
  curve_ob : option string;
  _handle : nat;
}.

Definition set_points (ps : list Vector) (self : Self) : Self :=
  {| points := ps; curve_ob := curve_ob self; _handle := _handle self |}.

Definition set_curve_ob (ob : option string) (self : Self) : Self :=
  {| points := points self; curve_ob := ob; _handle := _handle self |}.

Definition sp_set_points (f : list BezierPoint → list BezierPoint)
    (sp : Spline) : Spline :=
  {| sp_type := sp_type sp; bezier_points := f (bezier_points sp) |}.

(** [spline.bezier_points.add(count)] *)
Definition bezier_points_add (count : nat) : Prog Spline unit :=
  modify (sp_set_points (λ l, l ++ replicate count blank_bezier_point)).

(** The three assignments to [spline.bezier_points[i]] of the loop body. *)
Definition set_bezier_point (i : nat) (point_co : Vector)
  : Prog Spline unit :=
  let* bps := gets bezier_points in
  match bps !! i with
  | None => raise IndexError
  | Some _ =>
      modify (sp_set_points <[i :=
        {| co := point_co; handle_left_type := AUTO;
           handle_right_type := AUTO |}]>)
  end.

(** [curve_data.splines.new('BEZIER')]: a spline with one point. *)
Definition splines_new (ty : SplineType) : Prog Curve unit :=
  modify (λ c,
    {| cu_dimensions := cu_dimensions c;
       cu_splines := cu_splines c ++
         [{| sp_type := ty; bezier_points := [blank_bezier_point] |}];
       cu_users := cu_users c |}).

Definition set_dimensions (d : Dimensions) : Prog Curve unit :=
  modify (λ c,
    {| cu_dimensions := d; cu_splines := cu_splines c;
       cu_users := cu_users c |}).

(** Run [p] on [curve.splines[i]]. *)
Definition on_spline {A} (i : nat) (p : Prog Spline A) : Prog Curve A :=
  zoom IndexError (λ c, cu_splines c !! i)
       (λ sp c, {| cu_dimensions := cu_dimensions c;
                   cu_splines := <[i := sp]> (cu_splines c);
                   cu_users := cu_users c |}) p.

Definition update_curve (self : Self) : Prog Host Self :=
  let* self :=
    match curve_ob self with
    | None =>
        let* curve_data := curves_new "AuroraPath" in
        on_curve curve_data (set_dimensions DIM_3D ;; splines_new BEZIER) ;;
        let* ob := objects_new "AuroraCurve" CURVE (Some curve_data) in
        collection_link ob ;;
        ret (set_curve_ob (Some ob) self)
    | Some _ => ret self
    end in
  let* ob := from_some AttributeError (curve_ob self) in
  let* o := the_object ob in
  let* data := from_some AttributeError (ob_data o) in
  on_curve data (on_spline 0 (
    let num_points := length (points self) in
    let* n := gets (λ sp, length (bezier_points sp)) in
    (if (n <? num_points)%nat then bezier_points_add (num_points - n)
     else ret tt) ;;
    for_enumerate 0 (points self) set_bezier_point)) ;;
  ret self.

Definition finish (self : Self) : Prog Host unit :=
  draw_handler_remove (_handle self) ;;
  match curve_ob self with
  | Some ob =>
      select_all_deselect ;;
      select_set ob true ;;
      modify (set_active (Some ob))
  | None => ret tt
  end ;;
  cursor_set DEFAULT ;;
  report INFO "Path created.".

Definition cancel (self : Self) : Prog Host unit :=
  draw_handler_remove (_handle self) ;;
  match curve_ob self with
  | Some ob => objects_remove ob
  | None => ret tt
  end ;;
  cursor_set DEFAULT ;;
  report INFO "Path drawing cancelled.".

(** The intersection of the ray [origin + t * vec] with the plane z = 0,
    lines 137-141.  The two tests are those of the code.  The coordinates
    of the location are computed exactly here, where the code computes
    them in single precision: they stand for the code's up to rounding,
    and no statement below relies on their digits. *)
Definition ground_hit (origin vec : Vector) : option Vector :=
  if Qeq_bool (vz vec) 0 then None
  else
    let t := - vz origin / vz vec in
    if Qle_bool t 0 then None else Some (vadd origin (vscale t vec)).

Definition modal (self : Self) (view : View) (event : Event)
  : Prog Host (OpResult * Self) :=
  tag_redraw ;;
  match ev_type event, ev_value event with
  | RIGHTMOUSE, _ | RET, _ => finish self ;; ret (FINISHED, self)
  | ESC, _ => cancel self ;; ret (CANCELLED, self)
  | LEFTMOUSE, PRESS =>
      let coord := (mouse_region_x event, mouse_region_y event) in
      let origin := region_2d_to_origin_3d view coord in
      let vec := region_2d_to_vector_3d view coord in
      match ground_hit origin vec with
      | Some location =>
          let self := set_points (points self ++ [location]) self in
          let* self := update_curve self in
          ret (RUNNING_MODAL, self)
      | None => ret (RUNNING_MODAL, self)
      end
  | _, _ => ret (PASS_THROUGH, self)
  end.

Definition invoke : Prog Host (OpResult * option Self) :=
  let* sp := gets space_type in
  match sp with
  | VIEW_3D =>
      let* h := draw_handler_add in
      modal_handler_add ;;
      cursor_set CROSSHAIR ;;
      report INFO
        "Click to add points. Enter/Right-click to finish. Esc to cancel." ;;
      ret (RUNNING_MODAL,
           Some {| points := []; curve_ob := None; _handle := h |})
  | _ =>
      report WARNING "Active space must be a 3D View." ;;
      ret (CANCELLED, None)
  end.

(** The window manager feeds events to [modal] until it finishes or
    cancels. *)
Fixpoint run_modal (self : Self) (events : list (View * Event))
  : Prog Host (OpResult * Self) :=
  match events with
  | [] => ret (RUNNING_MODAL, self)
  | (view, event) :: rest =>
      let* (r, self') := modal self view event in
      match r with
      | FINISHED | CANCELLED => ret (r, self')
      | RUNNING_MODAL | PASS_THROUGH => run_modal self' rest
      end
  end.

(** A whole session: [invoke], then the events. *)
Definition session (events : list (View * Event))
  : Prog Host (OpResult * option Self) :=
  let* (r, self) := invoke in
  match self with
  | Some self =>
      let* (r, self') := run_modal self events in ret (r, Some self')
  | None => ret (r, None)
  end.

End DrawPath.

(* ===================================================================== *)
(** ** Node-tree primitives: [nodes], [links], sockets, keyframes *)
(* ===================================================================== *)

Module Tree.

Definition set_nodes (f : list Node → list Node) (t : NodeTree) : NodeTree :=
  {| nodes := f (nodes t); links := links t;
     animation_data := animation_data t |}.

Definition set_links (f : list Link → list Link) (t : NodeTree) : NodeTree :=
  {| nodes := nodes t; links := f (links t);
     animation_data := animation_data t |}.

Definition set_animation_data (a : option AnimData) (t : NodeTree)
  : NodeTree :=
  {| nodes := nodes t; links := links t; animation_data := a |}.

Definition nd_set_location (l : Q * Q) (n : Node) : Node :=
  {| nd_type := nd_type n; nd_name := nd_name n; nd_location := l;
     nd_inputs := nd_inputs n; nd_outputs := nd_outputs n;
     nd_operation := nd_operation n; nd_color_ramp := nd_color_ramp n |}.

Definition nd_set_inputs (f : list Socket → list Socket) (n : Node) : Node :=
  {| nd_type := nd_type n; nd_name := nd_name n;
     nd_location := nd_location n;
     nd_inputs := f (nd_inputs n); nd_outputs := nd_outputs n;
     nd_operation := nd_operation n; nd_color_ramp := nd_color_ramp n |}.

Definition nd_set_operation (op : option MathOp) (n : Node) : Node :=
  {| nd_type := nd_type n; nd_name := nd_name n;
     nd_location := nd_location n;
     nd_inputs := nd_inputs n; nd_outputs := nd_outputs n;
     nd_operation := op; nd_color_ramp := nd_color_ramp n |}.

Definition nd_set_color_ramp (r : option (list RampElement)) (n : Node)
  : Node :=
  {| nd_type := nd_type n; nd_name := nd_name n;
     nd_location := nd_location n;
     nd_inputs := nd_inputs n; nd_outputs := nd_outputs n;
     nd_operation := nd_operation n; nd_color_ramp := r |}.

(** The double quote, written by its code. *)
Definition dquote : string := String "034"%char EmptyString.

(** The RNA path of node [name] from its tree: [nodes["name"]]. *)
Definition node_path (name : string) : string :=
  "nodes[" +:+ dquote +:+ name +:+ dquote +:+ "]".

(** The RNA path of a property of input [i] of node [name]:
    [nodes["name"].inputs[i].prop].  This is the [data_path] of the
    F-curves that [keyframe_insert] on that socket creates. *)
Definition input_path (name : string) (i : nat) (prop : string) : string :=
  node_path name +:+ ".inputs[" +:+ Names.decimal i +:+ "]." +:+ prop.

(** [s.startswith(p)] and [s.endswith(p)] *)
Fixpoint startswith (s p : string) : bool :=
  match p, s with
  | EmptyString, _ => true
  | String a p', String b s' => if decide (a = b) then startswith s' p' else false
  | String _ _, EmptyString => false
  end.

Definition endswith (s p : string) : bool :=
  startswith (String.rev s) (String.rev p).

Definition fcurves_of (t : NodeTree) : list FCurve :=
  match animation_data t with
  | Some {| action := Some a |} => fcurves a
  | _ => []
  end.

(** Removing a node also removes the F-curves that animate it. *)
Definition drop_fcurves (prefix : string) (a : option AnimData)
  : option AnimData :=
  match a with
  | Some {| action := Some act |} =>
      Some {| action := Some {| fcurves :=
        filter (λ fc, startswith (fc_data_path fc) prefix = false)
               (fcurves act) |} |}
  | _ => a
  end.

(** [nodes.clear()] *)
Definition nodes_clear : Prog NodeTree unit :=
  modify (λ t,
    {| nodes := []; links := [];
       animation_data :=
         foldr (λ n a, drop_fcurves (node_path (nd_name n)) a)
               (animation_data t) (nodes t) |}).

(** [nodes.new(type=ty)]: the new node is named after its type, made
    unique within the tree; the result is its handle. *)
Definition nodes_new (ty : NodeType) : Prog NodeTree nat :=
  let* ns := gets nodes in
  let name :=
    Names.unique_name (type_label ty) (list_to_set (nd_name <$> ns)) in
  modify (set_nodes (λ l, l ++ [new_node ty name])) ;;
  ret (length ns).

(** Run [p] on the node behind handle [h]. *)
Definition on_node {A} (h : nat) (p : Prog Node A) : Prog NodeTree A :=
  zoom ReferenceError (λ t, nodes t !! h)
       (λ n, set_nodes <[h := n]>) p.

(** The node behind handle [h], read only. *)
Definition the_node (h : nat) : Prog NodeTree Node :=
  let* ns := gets nodes in from_some ReferenceError (ns !! h).

(** Socket subscripts: [inputs['Name']] or [inputs[i]]. *)
Inductive Key : Set := Name (s : string) | Index (i : nat).

Fixpoint find_name (names : list string) (s : string) : option nat :=
  match names with
  | [] => None
  | x :: rest => if decide (x = s) then Some 0%nat
                 else S <$> find_name rest s
  end.

Definition resolve {S} (names : list string) (k : Key) : Prog S nat :=
  match k with
  | Name s => from_some KeyError (find_name names s)
  | Index i => if (i <? length names)%nat then ret i else raise IndexError
  end.

Definition input_index (k : Key) : Prog Node nat :=
  let* ins := gets nd_inputs in resolve (sk_name <$> ins) k.

(** [links.new(from.outputs[ko], to.inputs[ki])]: an input takes one
    link, a new one replaces it. *)
Definition links_new (from : nat) (ko : Key) (to : nat) (ki : Key)
  : Prog NodeTree unit :=
  let* src := the_node from in
  let* o := resolve (nd_outputs src) ko in
  let* dst := the_node to in
  let* i := resolve (sk_name <$> nd_inputs dst) ki in
  modify (set_links (λ l,
    filter (λ lk, ¬ (lk_to_node lk = to ∧ lk_to_socket lk = i)) l ++
    [{| lk_from_node := from; lk_from_socket := o;
        lk_to_node := to; lk_to_socket := i |}])).

(** [node.inputs[k].default_value = v] *)
Definition set_default (k : Key) (v : SocketValue) : Prog Node unit :=
  let* i := input_index k in
  modify (nd_set_inputs (alter (λ s, sock (sk_name s) v) i)).

Definition set_component (j : nat) (x : Q) (v : Vector) : Prog Node Vector :=
  match j with
  | 0%nat => ret (Vec x (vy v) (vz v))
  | 1%nat => ret (Vec (vx v) x (vz v))
  | 2%nat => ret (Vec (vx v) (vy v) x)
  | _ => raise IndexError
  end.

(** [node.inputs[k].default_value[j] = x], on a vector socket. *)
Definition set_default_item (k : Key) (j : nat) (x : Q) : Prog Node unit :=
  let* i := input_index k in
  let* ins := gets nd_inputs in
  let* s := from_some IndexError (ins !! i) in
  match sk_default s with
  | VVector v =>
      let* v' := set_component j x v in
      modify (nd_set_inputs <[i := sock (sk_name s) (VVector v')]>)
  | _ => raise TypeError
  end.

(** [node.location = (x, y)] *)
Definition set_location (x y : Q) : Prog Node unit :=
  modify (nd_set_location (x, y)).

(** [node.operation = op] *)
Definition set_operation (op : MathOp) : Prog Node unit :=
  let* cur := gets nd_operation in
  match cur with
  | Some _ => modify (nd_set_operation (Some op))
  | None => raise AttributeError
  end.

End Tree.

(** *** Colour ramps *)

Module Ramp.

(** Elements are kept ordered by position. *)
Fixpoint insert_sorted (e : RampElement) (l : list RampElement)
  : list RampElement :=
  match l with
  | [] => [e]
  | x :: rest =>
      if Qle_bool (re_position x) (re_position e)
      then x :: insert_sorted e rest
      else e :: l
  end.

Definition sort (l : list RampElement) : list RampElement :=
  foldr insert_sorted [] (reverse l).

Definition mix (t : Q) (a b : Color) : Color :=
  RGBA (red a + t * (red b - red a)) (green a + t * (green b - green a))
       (blue a + t * (blue b - blue a)) (alpha a + t * (alpha b - alpha a)).

(** The colour of the ramp at [pos], by linear interpolation. *)
Fixpoint evaluate (l : list RampElement) (pos : Q) : Color :=
  match l with
  | [] => RGBA 0 0 0 0
  | [x] => re_color x
  | x :: ((y :: _) as rest) =>
      if Qle_bool pos (re_position x) then re_color x
      else if Qle_bool (re_position y) pos then evaluate rest pos
      else mix ((pos - re_position x) / (re_position y - re_position x))
               (re_color x) (re_color y)
  end.

Definition on_ramp {A} (p : Prog (list RampElement) A) : Prog Node A :=
  zoom AttributeError nd_color_ramp
       (λ r, Tree.nd_set_color_ramp (Some r)) p.

(** [node.color_ramp.elements[i].color = c] *)
Definition set_color (i : nat) (c : Color) : Prog Node unit :=
  on_ramp (
    let* l := gets id in
    match l !! i with
    | Some e =>
        modify <[i := {| re_position := re_position e; re_color := c |}]>
    | None => raise IndexError
    end).

(** [node.color_ramp.elements[i].position = p] *)
Definition set_position (i : nat) (p : Q) : Prog Node unit :=
  on_ramp (
    let* l := gets id in
    match l !! i with
    | Some e =>
        modify (λ l,
          sort (<[i := {| re_position := p; re_color := re_color e |}]> l))
    | None => raise IndexError
    end).

(** [node.color_ramp.elements.new(p)] *)
Definition elements_new (p : Q) : Prog Node unit :=
  on_ramp (modify (λ l,
    sort (l ++ [{| re_position := p; re_color := evaluate l p |}]))).

End Ramp.

(** *** Keyframes *)

Module Anim.

(** The interpolation a new keyframe gets (Blender's factory
    preference). *)
Definition new_key_interpolation : Interpolation := BEZIER_CURVE.

Definition components (v : SocketValue) : list Q :=
  match v with
  | VFloat x => [x]
  | VVector v => [vx v; vy v; vz v]
  | VColor c => [red c; green c; blue c; alpha c]
  | VShader => []
  end.

(** A key at an occupied frame replaces the old one; keys stay ordered by
    frame. *)
Fixpoint add_key (k : Keyframe) (l : list Keyframe) : list Keyframe :=
  match l with
  | [] => [k]
  | x :: rest =>
      if Qeq_bool (kf_frame x) (kf_frame k) then k :: rest
      else if Qle_bool (kf_frame x) (kf_frame k) then x :: add_key k rest
      else k :: l
  end.

Definition fc_add_key (k : Keyframe) (fc : FCurve) : FCurve :=
  {| fc_data_path := fc_data_path fc; fc_array_index := fc_array_index fc;
     keyframe_points := add_key k (keyframe_points fc);
     fc_modifiers := fc_modifiers fc |}.

Definition drives (path : string) (index : nat) (fc : FCurve) : bool :=
  bool_decide (fc_data_path fc = path) && bool_decide (fc_array_index fc = index).

(** Key channel [(path, index)]: into its F-curve, made if missing. *)
Definition key_channel (path : string) (index : nat) (k : Keyframe)
    (fcs : list FCurve) : list FCurve :=
  if existsb (drives path index) fcs
  then (λ fc, if drives path index fc then fc_add_key k fc else fc) <$> fcs
  else fcs ++ [{| fc_data_path := path; fc_array_index := index;
                  keyframe_points := [k]; fc_modifiers := [] |}].

Fixpoint key_channels (path : string) (index : nat) (frame : Q)
    (values : list Q) (fcs : list FCurve) : list FCurve :=
  match values with
  | [] => fcs
  | v :: rest =>
      key_channels path (S index) frame rest
        (key_channel path index
           {| kf_frame := frame; kf_value := v;
              kf_interpolation := new_key_interpolation |} fcs)
  end.

(** [node.inputs[k].keyframe_insert(data_path='default_value',
    frame=frame)]: one key per component of the socket's current value.
    The tree gets animation data and an action if it has none. *)
Definition keyframe_insert (h : nat) (k : Tree.Key) (frame : Q)
  : Prog NodeTree unit :=
  let* n := Tree.the_node h in
  let* i := Tree.resolve (sk_name <$> nd_inputs n) k in
  let* s := from_some IndexError (nd_inputs n !! i) in
  match components (sk_default s) with
  | [] => raise TypeError
  | values =>
      modify (λ t,
        Tree.set_animation_data
          (Some {| action := Some {| fcurves :=
             key_channels (Tree.input_path (nd_name n) i "default_value")
                          0 frame values (Tree.fcurves_of t) |} |}) t)
  end.

Definition kf_set_interpolation (i : Interpolation) (k : Keyframe)
  : Keyframe :=
  {| kf_frame := kf_frame k; kf_value := kf_value k;
     kf_interpolation := i |}.

End Anim.

(* ===================================================================== *)
(** ** Host operators on meshes, modifiers, textures and materials *)
(* ===================================================================== *)

Module Ops.

(** *** Mesh editing *)

Definition me_set_faces (f : list Quad → list Quad) (m : Mesh) : Mesh :=
  {| me_faces := f (me_faces m); me_applied_rot_x := me_applied_rot_x m;
     me_materials := me_materials m; me_users := me_users m |}.

(** The default plane of [primitive_plane_add]: size 2, centred. *)
Definition unit_plane : Quad :=
  MkQuad (Vec (-1) (-1) 0) (Vec 1 (-1) 0) (Vec 1 1 0) (Vec (-1) 1 0).

Definition corners (q : Quad) : list Vector := [qa q; qb q; qc q; qd q].

Definition quad_map (f : Vector → Vector) (q : Quad) : Quad :=
  MkQuad (f (qa q)) (f (qb q)) (f (qc q)) (f (qd q)).

(** [bpy.ops.mesh.primitive_plane_add(enter_editmode=...)]: a new mesh and
    a new object using it, linked, the only selected object and the active
    one. *)
Definition primitive_plane_add (enter_editmode : bool) : Prog Host unit :=
  deselect_all ;;
  let* used := gets (λ h, dom (meshes h)) in
  let mesh := Names.unique_name "Plane" used in
  modify (set_meshes <[mesh :=
    {| me_faces := [unit_plane]; me_applied_rot_x := [];
       me_materials := []; me_users := 0 |}]>) ;;
  let* ob := objects_new "Plane" MESH (Some mesh) in
  collection_link ob ;;
  select_set ob true ;;
  modify (set_active (Some ob)) ;;
  if enter_editmode then on_object ob (modify (ob_set_mode EDIT))
  else ret tt.

(** [context.active_object] *)
Definition active_object : Prog Host string :=
  let* a := gets active in from_some AttributeError a.

(** [ob.name = base]: the name is made unique among the other objects;
    what referred to the object follows it.  The result is the name the
    object ends up with. *)
Definition md_follow (old new : string) (m : Modifier) : Modifier :=
  if decide (md_object m = Some old)
  then {| md_name := md_name m; md_type := md_type m;
          md_object := Some new; md_texture := md_texture m;
          md_strength := md_strength m; md_direction := md_direction m |}
  else m.

Definition rename_object (old base : string) : Prog Host string :=
  let* o := the_object old in
  let* used := gets (λ h, dom (delete old (objects h))) in
  let new := Names.unique_name base used in
  modify (set_objects (λ m, <[new := o]> (delete old m))) ;;
  modify (set_objects (fmap (ob_set_modifiers (fmap (md_follow old new))))) ;;
  modify (set_collection (fmap (λ n, if decide (n = old) then new else n))) ;;
  modify (λ h, set_active
    (if decide (active h = Some old) then Some new else active h) h) ;;
  ret new.

(** Run [p] on the mesh of the active object, which must be in edit mode
    (the operators' poll). *)
Definition on_edit_mesh {A} (p : Prog Mesh A) : Prog Host A :=
  let* ob := active_object in
  let* o := the_object ob in
  match ob_type o, ob_mode o, ob_data o with
  | MESH, EDIT, Some m =>
      zoom ReferenceError (λ h, meshes h !! m)
           (λ me, set_meshes <[m := me]>) p
  | _, _, _ => raise RuntimeError
  end.

Definition vsum (l : list Vector) : Vector := foldr vadd vzero l.

(** The median point of the geometry, the default pivot. *)
Definition median (faces : list Quad) : Vector :=
  let cs := flat_map corners faces in
  vscale (1 / inject_Z (Z.of_nat (length cs))) (vsum cs).

Definition resize_about (pivot value v : Vector) : Vector :=
  Vec (vx pivot + vx value * (vx v - vx pivot))
      (vy pivot + vy value * (vy v - vy pivot))
      (vz pivot + vz value * (vz v - vz pivot)).

(** [bpy.ops.transform.resize(value=...)] in edit mode, everything
    selected. *)
Definition transform_resize (value : Vector) : Prog Host unit :=
  on_edit_mesh (modify (me_set_faces (λ fs,
    quad_map (resize_about (median fs) value) <$> fs))).

Definition lerp (t : Q) (a b : Vector) : Vector :=
  vadd a (vscale t (vadd b (vscale (-1) a))).

(** Point [(i, j)] of the [n] by [n] grid laid over quad [q]. *)
Definition grid_point (q : Quad) (n i j : nat) : Vector :=
  let u := inject_Z (Z.of_nat i) / inject_Z (Z.of_nat n) in
  let v := inject_Z (Z.of_nat j) / inject_Z (Z.of_nat n) in
  lerp v (lerp u (qa q) (qb q)) (lerp u (qd q) (qc q)).

(** A quad with every edge cut [cuts] times becomes a grid of
    [(cuts + 1)] by [(cuts + 1)] quads; with smoothness 0 the new vertices
    stay on the face. *)
Definition subdivide_quad (cuts : nat) (q : Quad) : list Quad :=
  let n := S cuts in
  flat_map (λ j,
    (λ i, MkQuad (grid_point q n i j) (grid_point q n (S i) j)
                 (grid_point q n (S i) (S j)) (grid_point q n i (S j)))
    <$> seq 0 n) (seq 0 n).

(** The operator declares [number_cuts] as an int in [1, 100]; values
    outside are clamped. *)
Definition clamp_cuts (number_cuts : nat) : nat :=
  Nat.max 1 (Nat.min number_cuts 100).

(** [bpy.ops.mesh.subdivide(number_cuts=..., smoothness=0)], everything
    selected. *)
Definition mesh_subdivide (number_cuts : nat) : Prog Host unit :=
  on_edit_mesh (modify (me_set_faces
    (flat_map (subdivide_quad (clamp_cuts number_cuts))))).

(** [bpy.ops.object.mode_set(mode=...)] *)
Definition mode_set (m : ObMode) : Prog Host unit :=
  let* ob := active_object in on_object ob (modify (ob_set_mode m)).

(** [ob.rotation_euler[0] = x] *)
Definition set_rotation_x (ob : string) (x : Q) : Prog Host unit :=
  on_object ob (modify (λ o,
    ob_set_rotation (Vec x (vy (ob_rotation_euler o))
                           (vz (ob_rotation_euler o))) o)).

(** [bpy.ops.object.transform_apply(location=False, rotation=True,
    scale=False)], for the one selected object the add-on has at that
    point, the active one: the rotation moves into the mesh data and the
    object's rotation is reset.  Multi-user data is refused. *)
Definition transform_apply_rotation : Prog Host unit :=
  let* ob := active_object in
  let* o := the_object ob in
  match ob_type o, ob_data o with
  | MESH, Some m =>
      let* me := gets (λ h, meshes h !! m) in
      let* me := from_some ReferenceError me in
      if (1 <? me_users me)%nat then raise RuntimeError
      else
        modify (set_meshes <[m :=
          {| me_faces := me_faces me;
             me_applied_rot_x :=
               me_applied_rot_x me ++ [vx (ob_rotation_euler o)];
             me_materials := me_materials me; me_users := me_users me |}]>) ;;
        on_object ob (modify (λ o,
          ob_set_rotation (Vec 0 (vy (ob_rotation_euler o))
                                 (vz (ob_rotation_euler o))) o))
  | _, _ => ret tt
  end.

(** *** Modifiers *)

(** [ob.modifiers.new(name=..., type=...)]; the result is the position of
    the new modifier. *)
Definition modifiers_new (ob : string) (name : string) (ty : ModType)
  : Prog Host nat :=
  on_object ob (
    let* ms := gets ob_modifiers in
    let name := Names.unique_name name (list_to_set (md_name <$> ms)) in
    modify (ob_set_modifiers (λ l, l ++ [new_modifier name ty])) ;;
    ret (length ms)).

Definition on_modifier {A} (ob : string) (i : nat) (p : Prog Modifier A)
  : Prog Host A :=
  on_object ob (zoom ReferenceError (λ o, ob_modifiers o !! i)
                     (λ m, ob_set_modifiers <[i := m]>) p).

(** [curve_mod.object = target]; the target must be alive. *)
Definition set_modifier_object (ob : string) (i : nat) (target : string)
  : Prog Host unit :=
  the_object target ;;
  on_modifier ob i (modify (λ m,
    {| md_name := md_name m; md_type := md_type m;
       md_object := Some target; md_texture := md_texture m;
       md_strength := md_strength m; md_direction := md_direction m |})).

(** [disp_mod.texture = tex]: the texture gains a user, the one it
    replaces loses one. *)
Definition set_modifier_texture (ob : string) (i : nat) (tex : string)
  : Prog Host unit :=
  let* o := the_object ob in
  let* old := from_some ReferenceError (ob_modifiers o !! i) in
  on_modifier ob i (modify (λ m,
    {| md_name := md_name m; md_type := md_type m;
       md_object := md_object m; md_texture := Some tex;
       md_strength := md_strength m; md_direction := md_direction m |})) ;;
  modify (set_textures (λ ts,
    alter (tx_set_users S) tex
      match md_texture old with
      | Some t => alter (tx_set_users Nat.pred) t ts
      | None => ts
      end)).

Definition set_modifier_strength (ob : string) (i : nat) (x : Q)
  : Prog Host unit :=
  on_modifier ob i (modify (λ m,
    {| md_name := md_name m; md_type := md_type m;
       md_object := md_object m; md_texture := md_texture m;
       md_strength := x; md_direction := md_direction m |})).

Definition set_modifier_direction (ob : string) (i : nat) (d : Direction)
  : Prog Host unit :=
  on_modifier ob i (modify (λ m,
    {| md_name := md_name m; md_type := md_type m;
       md_object := md_object m; md_texture := md_texture m;
       md_strength := md_strength m; md_direction := d |})).

(** *** Textures *)

(** [bpy.data.textures.new(name, type=...)] *)
Definition textures_new (base : string) (ty : TexType) : Prog Host string :=
  let* used := gets (λ h, dom (textures h)) in
  let name := Names.unique_name base used in
  modify (set_textures <[name :=
    {| tx_type := ty; tx_noise_scale := 1 # 4; tx_users := 0 |}]>) ;;
  ret name.

(** [tex.noise_scale = x] *)
Definition set_noise_scale (tex : string) (x : Q) : Prog Host unit :=
  zoom ReferenceError (λ h, textures h !! tex)
       (λ t, set_textures <[tex := t]>)
       (modify (λ t, {| tx_type := tx_type t; tx_noise_scale := x;
                        tx_users := tx_users t |})).

(** *** Materials *)

(** [bpy.data.materials.new(name=...)] *)
Definition materials_new (base : string) : Prog Host string :=
  let* used := gets (λ h, dom (materials h)) in
  let name := Names.unique_name base used in
  modify (set_materials <[name :=
    {| mt_use_nodes := false; mt_blend_method := OPAQUE;
       mt_node_tree := None |}]>) ;;
  ret name.

Definition on_material {A} (mat : string) (p : Prog Material A)
  : Prog Host A :=
  zoom ReferenceError (λ h, materials h !! mat)
       (λ m, set_materials <[mat := m]>) p.

(** The tree a material gets when nodes are first enabled. *)
Definition default_node_tree : NodeTree :=
  {| nodes := [new_node ShaderNodeBsdfPrincipled "Principled BSDF";
               new_node ShaderNodeOutputMaterial "Material Output"];
     links := [{| lk_from_node := 0; lk_from_socket := 0;
                  lk_to_node := 1; lk_to_socket := 0 |}];
     animation_data := None |}.

(** [mat.use_nodes = True] *)
Definition use_nodes : Prog Material unit :=
  modify (λ m,
    {| mt_use_nodes := true; mt_blend_method := mt_blend_method m;
       mt_node_tree := match mt_node_tree m with
                       | None => Some default_node_tree
                       | t => t
                       end |}).

(** [mat.blend_method = b] *)
Definition set_blend_method (b : BlendMethod) : Prog Material unit :=
  modify (λ m,
    {| mt_use_nodes := mt_use_nodes m; mt_blend_method := b;
       mt_node_tree := mt_node_tree m |}).

(** Run [p] on [mat.node_tree]. *)
Definition on_node_tree {A} (p : Prog NodeTree A) : Prog Material A :=
  zoom AttributeError mt_node_tree
       (λ t m, {| mt_use_nodes := mt_use_nodes m;
                  mt_blend_method := mt_blend_method m;
                  mt_node_tree := Some t |}) p.

(** [ob.data.materials.append(mat)] *)
Definition materials_append (ob : string) (mat : string) : Prog Host unit :=
  let* o := the_object ob in
  match ob_type o, ob_data o with
  | MESH, Some m =>
      zoom ReferenceError (λ h, meshes h !! m)
           (λ me, set_meshes <[m := me]>)
           (modify (λ me,
              {| me_faces := me_faces me;
                 me_applied_rot_x := me_applied_rot_x me;
                 me_materials := me_materials me ++ [mat];
                 me_users := me_users me |}))
  | _, _ => raise AttributeError
  end.

(** *** Custom properties *)

(** [ob[key]] when [key in ob], else nothing. *)
Definition get_prop (ob key : string) : Prog Host (option string) :=
  let* o := the_object ob in ret (ob_props o !! key).

(** [ob[key] = value] *)
Definition set_prop (ob key value : string) : Prog Host unit :=
  on_object ob (modify (ob_set_props <[key := value]>)).

End Ops.

(* ===================================================================== *)
(** ** The effect compiler: [AURORA_OT_Create] *)
(* ===================================================================== *)

Module Aurora.

Import Tree Ops.

(** [AuroraGeneratorProperties] *)
Record Props : Type := {
  aurora_height : Q;
  subdivisions : nat;
  color1 : Color;
  color2 : Color;
  emission_strength : Q;
  noise_scale : Q;
  noise_distortion : Q;
  animate : bool;
}.

(** The declared ranges of the properties. *)
Definition valid (p : Props) : Prop :=
  1 # 10 <= aurora_height p ∧ (2 ≤ subdivisions p ≤ 1024)%nat ∧
  0 <= emission_strength p ∧ 1 # 10 <= noise_scale p ∧
  0 <= noise_distortion p.

Definition default_props : Props :=
  {| aurora_height := 5; subdivisions := 128;
     color1 := RGBA (1 # 10) 1 (7 # 10) 1;
     color2 := RGBA (3 # 10) (1 # 5) (4 # 5) 1;
     emission_strength := 25; noise_scale := 3 # 2;
     noise_distortion := 1 # 2; animate := true |}.

(** [poll]: the active object exists and is a curve. *)
Definition poll (h : Host) : bool :=
  match active h with
  | Some a =>
      match objects h !! a with
      | Some o => bool_decide (ob_type o = CURVE)
      | None => false
      end
  | None => false
  end.

(** Lines 354-359: every F-curve whose path ends in ['Location'] gets
    linear keys and a Cycles modifier. *)
Definition linear_and_cyclic (fc : FCurve) : FCurve :=
  if endswith (fc_data_path fc) "['Location']"
  then {| fc_data_path := fc_data_path fc;
          fc_array_index := fc_array_index fc;
          keyframe_points :=
            Anim.kf_set_interpolation LINEAR <$> keyframe_points fc;
          fc_modifiers := fc_modifiers fc ++ [CYCLES] |}
  else fc.

Definition loop_fcurves : Prog NodeTree unit :=
  modify (λ t,
    match animation_data t with
    | Some {| action := Some a |} =>
        set_animation_data
          (Some {| action := Some {| fcurves :=
             linear_and_cyclic <$> fcurves a |} |}) t
    | _ => t
    end).

(** The handles of the nodes of the graph, in creation order. *)
Record Handles : Type := {
  output_node : nat; mix_shader : nat; emission : nat; transparent : nat;
  color_ramp_main : nat; separate_xyz : nat; tex_coord : nat;
  noise_tex : nat; mapping_anim : nat; mapping_stretch : nat;
  emission_falloff_ramp : nat; multiply_emission : nat;
  vertical_fade_ramp : nat; combine_fade_and_noise : nat;
}.

(** Lines 268-347, on [mat.node_tree]: the nodes, their settings and the
    links. *)
Definition create_graph (props : Props) : Prog NodeTree Handles :=
  nodes_clear ;;
  (* Create all necessary nodes *)
  let* output_node := nodes_new ShaderNodeOutputMaterial in
  let* mix_shader := nodes_new ShaderNodeMixShader in
  let* emission := nodes_new ShaderNodeEmission in
  let* transparent := nodes_new ShaderNodeBsdfTransparent in
  let* color_ramp_main := nodes_new ShaderNodeValToRGB in
  let* separate_xyz := nodes_new ShaderNodeSeparateXYZ in
  let* tex_coord := nodes_new ShaderNodeTexCoord in
  let* noise_tex := nodes_new ShaderNodeTexNoise in
  let* mapping_anim := nodes_new ShaderNodeMapping in
  let* mapping_stretch := nodes_new ShaderNodeMapping in
  let* emission_falloff_ramp := nodes_new ShaderNodeValToRGB in
  let* multiply_emission := nodes_new ShaderNodeMath in
  on_node multiply_emission (set_operation MULTIPLY) ;;
  let* vertical_fade_ramp := nodes_new ShaderNodeValToRGB in
  let* combine_fade_and_noise := nodes_new ShaderNodeMath in
  on_node combine_fade_and_noise (set_operation MAXIMUM) ;;
  on_node output_node (set_location 600 0) ;;
  on_node mix_shader (set_location 400 0) ;;
  on_node transparent (set_location 200 (-200)) ;;
  on_node emission (set_location 200 100) ;;
  on_node multiply_emission (set_location 0 200) ;;
  on_node emission_falloff_ramp (set_location (-200) 200) ;;
  on_node color_ramp_main (set_location (-200) 100) ;;
  on_node separate_xyz (set_location (-400) 100) ;;
  on_node tex_coord (set_location (-600) 100) ;;
  on_node combine_fade_and_noise (set_location 200 (-50)) ;;
  on_node vertical_fade_ramp (set_location 0 0) ;;
  on_node noise_tex (set_location 0 (-200)) ;;
  on_node mapping_stretch (set_location (-200) (-200)) ;;
  on_node mapping_anim (set_location (-400) (-200)) ;;
  (* Configure node properties *)
  on_node color_ramp_main (Ramp.set_color 0 (color1 props)) ;;
  on_node color_ramp_main (Ramp.set_color 1 (color2 props)) ;;
  on_node emission_falloff_ramp (Ramp.set_position 0 0) ;;
  on_node emission_falloff_ramp (Ramp.set_color 0 (RGBA 1 1 1 1)) ;;
  on_node emission_falloff_ramp (Ramp.set_position 1 1) ;;
  on_node emission_falloff_ramp (Ramp.set_color 1 (RGBA 0 0 0 1)) ;;
  on_node multiply_emission
    (set_default (Index 1) (VFloat (emission_strength props))) ;;
  on_node vertical_fade_ramp (Ramp.set_position 0 0) ;;
  on_node vertical_fade_ramp (Ramp.set_color 0 (RGBA 1 1 1 1)) ;;
  on_node vertical_fade_ramp (Ramp.elements_new (3 # 10)) ;;
  on_node vertical_fade_ramp (Ramp.set_color 1 (RGBA 0 0 0 1)) ;;
  on_node vertical_fade_ramp (Ramp.set_position 2 1) ;;
  on_node vertical_fade_ramp (Ramp.set_color 2 (RGBA 0 0 0 1)) ;;
  on_node mapping_stretch (set_default_item (Name "Scale") 0 (1 # 5)) ;;
  on_node mapping_stretch (set_default_item (Name "Scale") 1 10) ;;
  on_node noise_tex (set_default (Name "Scale") (VFloat (noise_scale props))) ;;
  on_node noise_tex (set_default (Name "Detail") (VFloat 5)) ;;
  on_node noise_tex (set_default (Name "Roughness") (VFloat (3 # 5))) ;;
  on_node noise_tex
    (set_default (Name "Distortion") (VFloat (noise_distortion props))) ;;
  (* Link Nodes Together *)
  links_new tex_coord (Name "Generated") separate_xyz (Name "Vector") ;;
  links_new separate_xyz (Name "Y") color_ramp_main (Name "Fac") ;;
  links_new color_ramp_main (Name "Color") emission (Name "Color") ;;
  links_new separate_xyz (Name "Y") emission_falloff_ramp (Name "Fac") ;;
  links_new emission_falloff_ramp (Name "Color") multiply_emission (Index 0) ;;
  links_new multiply_emission (Name "Value") emission (Name "Strength") ;;
  links_new tex_coord (Name "Generated") mapping_anim (Name "Vector") ;;
  links_new mapping_anim (Name "Vector") mapping_stretch (Name "Vector") ;;
  links_new mapping_stretch (Name "Vector") noise_tex (Name "Vector") ;;
  links_new separate_xyz (Name "Y") vertical_fade_ramp (Name "Fac") ;;
  links_new vertical_fade_ramp (Name "Color") combine_fade_and_noise (Index 0) ;;
  links_new noise_tex (Name "Fac") combine_fade_and_noise (Index 1) ;;
  links_new combine_fade_and_noise (Name "Value") mix_shader (Name "Fac") ;;
  links_new emission (Name "Emission") mix_shader (Index 1) ;;
  links_new transparent (Name "BSDF") mix_shader (Index 2) ;;
  links_new mix_shader (Name "Shader") output_node (Name "Surface") ;;
  ret {| output_node := output_node; mix_shader := mix_shader;
         emission := emission; transparent := transparent;
         color_ramp_main := color_ramp_main; separate_xyz := separate_xyz;
         tex_coord := tex_coord; noise_tex := noise_tex;
         mapping_anim := mapping_anim; mapping_stretch := mapping_stretch;
         emission_falloff_ramp := emission_falloff_ramp;
         multiply_emission := multiply_emission;
         vertical_fade_ramp := vertical_fade_ramp;
         combine_fade_and_noise := combine_fade_and_noise |}.

(** Lines 349-359: the animation of the offset mapping. *)
Definition add_animation (props : Props) (mapping_anim : nat)
  : Prog NodeTree unit :=
  if animate props then
    Anim.keyframe_insert mapping_anim (Name "Location") 1 ;;
    on_node mapping_anim (set_default_item (Name "Location") 1 5) ;;
    Anim.keyframe_insert mapping_anim (Name "Location") 250 ;;
    loop_fcurves
  else ret tt.

(** Lines 268-359. *)
Definition build_node_tree (props : Props) : Prog NodeTree Handles :=
  let* handles := create_graph props in
  add_animation props (mapping_anim handles) ;;
  ret handles.

(** [block.users] of the data of an object of type [ty]. *)
Definition data_users (ty : ObType) (data : string) : Prog Host nat :=
  match ty with
  | MESH =>
      let* m := gets (λ h, meshes h !! data) in
      let* m := from_some ReferenceError m in ret (me_users m)
  | CURVE =>
      let* c := gets (λ h, curves h !! data) in
      let* c := from_some ReferenceError c in ret (cu_users c)
  | EMPTY => raise AttributeError
  end.

(** [bpy.data.meshes.remove(block)] accepts meshes only. *)
Definition meshes_remove_data (ty : ObType) (data : string)
  : Prog Host unit :=
  match ty with
  | MESH => meshes_remove data
  | _ => raise TypeError
  end.

(** Lines 215-229. *)
Definition cleanup (curve_object : string) : Prog Host unit :=
  let* tag := get_prop curve_object "aurora_object_name" in
  match tag with
  | Some old_aurora_name =>
      let* old_aurora := gets (λ h, objects h !! old_aurora_name) in
      match old_aurora with
      | Some o =>
          let old_mesh := ob_data o in
          objects_remove old_aurora_name ;;
          match old_mesh with
          | Some m =>
              let* users := data_users (ob_type o) m in
              match users with
              | O => meshes_remove_data (ob_type o) m
              | S _ => ret tt
              end
          | None => ret tt
          end
      | None => ret tt
      end
  | None => ret tt
  end ;;
  let* tag := get_prop curve_object "aurora_texture_name" in
  match tag with
  | Some old_tex_name =>
      let* old_tex := gets (λ h, textures h !! old_tex_name) in
      match old_tex with
      | Some t =>
          match tx_users t with
          | O => textures_remove old_tex_name
          | S _ => ret tt
          end
      | None => ret tt
      end
  | None => ret tt
  end.

(** Lines 231-242; the result is the new object. *)
Definition create_base_mesh (props : Props) : Prog Host string :=
  primitive_plane_add true ;;
  let* aurora_object := active_object in
  let* aurora_object := rename_object aurora_object "Aurora" in
  transform_resize (Vec 20 1 1) ;;
  transform_resize (Vec 1 (aurora_height props / 2) 1) ;;
  mesh_subdivide (subdivisions props) ;;
  mode_set OBJECT ;;
  set_rotation_x aurora_object (15708 # 10000) ;;
  transform_apply_rotation ;;
  ret aurora_object.

(** Lines 244-253; the result is the new texture. *)
Definition add_modifiers (aurora_object curve_object : string)
  : Prog Host string :=
  let* curve_mod := modifiers_new aurora_object "FollowCurve" CURVE_MOD in
  set_modifier_object aurora_object curve_mod curve_object ;;
  let* disp_mod := modifiers_new aurora_object "Displacement" DISPLACE_MOD in
  let* disp_texture := textures_new "AuroraDisplaceTexture" CLOUDS in
  set_noise_scale disp_texture (1 # 2) ;;
  set_modifier_texture aurora_object disp_mod disp_texture ;;
  set_modifier_strength aurora_object disp_mod (7 # 10) ;;
  set_modifier_direction aurora_object disp_mod DIR_Z ;;
  ret disp_texture.

(** Lines 255-359; the result is the material. *)
Definition create_material (props : Props) (curve_object : string)
  : Prog Host string :=
  let* tag := get_prop curve_object "aurora_material_name" in
  let* mat :=
    match tag with
    | Some old_mat_name =>
        let* m := gets (λ h, materials h !! old_mat_name) in
        ret (match m with Some _ => Some old_mat_name | None => None end)
    | None => ret None
    end in
  let* mat :=
    match mat with
    | Some mat => ret mat
    | None =>
        let* mat := materials_new "Aurora_Material" in
        set_prop curve_object "aurora_material_name" mat ;;
        ret mat
    end in
  on_material mat (
    use_nodes ;;
    set_blend_method BLEND ;;
    on_node_tree (build_node_tree props)) ;;
  ret mat.

(** Lines 231-371: everything after the cleanup. *)
Definition rebuild (props : Props) (curve_object : string)
  : Prog Host OpResult :=
  let* aurora_object := create_base_mesh props in
  let* disp_texture := add_modifiers aurora_object curve_object in
  let* mat := create_material props curve_object in
  (* Assign material and finalize *)
  materials_append aurora_object mat ;;
  set_prop curve_object "aurora_object_name" aurora_object ;;
  set_prop curve_object "aurora_texture_name" disp_texture ;;
  select_set curve_object false ;;
  select_set aurora_object true ;;
  modify (set_active (Some aurora_object)) ;;
  report INFO "Aurora created/updated successfully!" ;;
  ret FINISHED.

(** [AURORA_OT_Create.execute] *)
Definition execute (props : Props) : Prog Host OpResult :=
  let* curve_object := active_object in
  cleanup curve_object ;;
  rebuild props curve_object.

(** Calling the operator: the host runs [execute] only where [poll]
    holds, and raises otherwise. *)
Definition create_aurora (props : Props) : Prog Host OpResult :=
  let* ok := gets poll in
  if ok then execute props else raise RuntimeError.

End Aurora.

(* ===================================================================== *)
(** ** Vocabulary of the properties *)
(* ===================================================================== *)

Module Session.
Import DrawPath.

(** A control point with both handles automatic. *)
Definition auto_point (p : Vector) : BezierPoint :=
  {| co := p; handle_left_type := AUTO; handle_right_type := AUTO |}.

(** Events on which [modal] ends the session. *)
Definition ends (e : Event) : bool :=
  match ev_type e with RIGHTMOUSE | RET | ESC => true | _ => false end.

(** An event that adds no point: it does not end the session, and if it
    is a press of the primary button, its ray misses the ground. *)
Definition adds_no_point (ve : View * Event) : Prop :=
  ends ve.2 = false ∧
  (ev_type ve.2 = LEFTMOUSE → ev_value ve.2 = PRESS →
   ground_hit
     (region_2d_to_origin_3d ve.1 (mouse_region_x ve.2, mouse_region_y ve.2))
     (region_2d_to_vector_3d ve.1 (mouse_region_x ve.2, mouse_region_y ve.2))
   = None).

(** What a session has built so far, relative to the host [s0] it started
    from: its draw handler, and either nothing else, or one curve object
    whose spline holds the captured points. *)
Definition capturing (s0 : Host) (self : Self) (s : Host) : Prop :=
  (_handle self ∉ draw_handlers s0) ∧
  draw_handlers s = {[_handle self]} ∪ draw_handlers s0 ∧
  meshes s = meshes s0 ∧ textures s = textures s0 ∧
  materials s = materials s0 ∧ active s = active s0 ∧
  match curve_ob self with
  | None =>
      points self = [] ∧ objects s = objects s0 ∧ curves s = curves s0 ∧
      collection s = collection s0
  | Some ob =>
      ∃ cd,
        objects s0 !! ob = None ∧ curves s0 !! cd = None ∧
        objects s = <[ob := new_object CURVE (Some cd)]> (objects s0) ∧
        curves s =
          <[cd := {| cu_dimensions := DIM_3D;
                     cu_splines :=
                       [{| sp_type := BEZIER;
                           bezier_points := auto_point <$> points self |}];
                     cu_users := 1 |}]> (curves s0) ∧
        collection s = collection s0 ++ [ob]
  end.

(** The ground point an event adds: that of a press of the primary button
    whose ray hits the ground in front of its origin. *)
Definition hit (ve : View * Event) : option Vector :=
  match ev_type ve.2, ev_value ve.2 with
  | LEFTMOUSE, PRESS =>
      ground_hit
        (region_2d_to_origin_3d ve.1
           (mouse_region_x ve.2, mouse_region_y ve.2))
        (region_2d_to_vector_3d ve.1
           (mouse_region_x ve.2, mouse_region_y ve.2))
  | _, _ => None
  end.

Definition hits (events : list (View * Event)) : list Vector :=
  omap hit events.


(** The curve data of a path through [pts] with [users] users. *)
Definition path_curve (pts : list Vector) (users : nat) : Curve :=
  {| cu_dimensions := DIM_3D;
     cu_splines := [{| sp_type := BEZIER;
                       bezier_points := auto_point <$> pts |}];
     cu_users := users |}.

End Session.

Module Graph.
Import Tree Aurora.

(** The handles [create_graph] hands out: the nodes in creation order. *)
Definition aurora_handles : Handles :=
  {| output_node := 0; mix_shader := 1; emission := 2; transparent := 3;
     color_ramp_main := 4; separate_xyz := 5; tex_coord := 6; noise_tex := 7;
     mapping_anim := 8; mapping_stretch := 9; emission_falloff_ramp := 10;
     multiply_emission := 11; vertical_fade_ramp := 12;
     combine_fade_and_noise := 13 |}.

Definition aurora_types : list NodeType :=
  [ShaderNodeOutputMaterial; ShaderNodeMixShader; ShaderNodeEmission;
   ShaderNodeBsdfTransparent; ShaderNodeValToRGB; ShaderNodeSeparateXYZ;
   ShaderNodeTexCoord; ShaderNodeTexNoise; ShaderNodeMapping;
   ShaderNodeMapping; ShaderNodeValToRGB; ShaderNodeMath;
   ShaderNodeValToRGB; ShaderNodeMath].

Definition link (a i b j : nat) : Link :=
  {| lk_from_node := a; lk_from_socket := i;
     lk_to_node := b; lk_to_socket := j |}.

(** The sixteen links of lines 332-347, by handle and socket index. *)
Definition aurora_links : list Link :=
  [ link 6 0 5 0; link 5 1 4 0; link 4 0 2 0; link 5 1 10 0;
    link 10 0 11 0; link 11 0 2 1; link 6 0 8 0; link 8 0 9 0;
    link 9 0 7 0; link 5 1 12 0; link 12 0 13 0; link 7 0 13 1;
    link 13 0 1 0; link 2 0 1 1; link 3 0 1 2; link 1 0 0 0 ].

(** The offset mapping node, with [v] in its Location input. *)
Definition offset_node_at (v : Vector) : Node :=
  {| nd_type := ShaderNodeMapping; nd_name := "Mapping";
     nd_location := (-400, -200);
     nd_inputs := [sock "Vector" (VVector vzero);
                   sock "Location" (VVector v);
                   sock "Rotation" (VVector vzero);
                   sock "Scale" (VVector (Vec 1 1 1))];
     nd_outputs := ["Vector"]; nd_operation := None;
     nd_color_ramp := None |}.

Definition empty_tree : NodeTree :=
  {| nodes := []; links := []; animation_data := None |}.

(** The nodes [create_graph] builds, read off a run on the empty tree. *)
Definition aurora_nodes (props : Props) : list Node :=
  nodes (store_of (create_graph props empty_tree)).

(** The nodes after the animation step, which leaves 5 in the [y] of the
    offset node's Location when it runs. *)
Definition final_nodes (props : Props) : list Node :=
  if animate props
  then <[8%nat := offset_node_at (Vec 0 5 0)]> (aurora_nodes props)
  else aurora_nodes props.

(** The animation data [nodes.clear()] leaves behind. *)
Definition cleared (t : NodeTree) : option AnimData :=
  foldr (λ n a, drop_fcurves (node_path (nd_name n)) a)
        (animation_data t) (nodes t).

(** The [data_path] of the F-curves keyed on the offset node's Location
    input. *)
Definition offset_path : string := input_path "Mapping" 1 "default_value".

(** The F-curves that survive [nodes.clear()]. *)
Definition cleared_fcurves (t : NodeTree) : list FCurve :=
  fcurves_of {| nodes := []; links := []; animation_data := cleared t |}.

(** Channel [i] of the offset animation as the two [keyframe_insert]
    calls leave it: a key at frame 1 and one at frame 250, each with the
    interpolation of a new key, and no modifier. *)
Definition inserted_key (frame value : Q) : Keyframe :=
  {| kf_frame := frame; kf_value := value;
     kf_interpolation := Anim.new_key_interpolation |}.

Definition offset_fcurve (i : nat) (rest moved : Q) : FCurve :=
  {| fc_data_path := offset_path; fc_array_index := i;
     keyframe_points := [inserted_key 1 rest; inserted_key 250 moved];
     fc_modifiers := [] |}.

(** The animation data after the animation step. *)
Definition final_animation (props : Props) (t : NodeTree)
  : option AnimData :=
  if animate props then
    Some {| action := Some {| fcurves :=
      linear_and_cyclic <$>
        Anim.key_channels offset_path 0 250 [0; 5; 0]
          (Anim.key_channels offset_path 0 1 [0; 0; 0]
             (cleared_fcurves t)) |} |}
  else cleared t.

(** The tree [build_node_tree props] leaves in place of [t]. *)
Definition aurora_tree (props : Props) (t : NodeTree) : NodeTree :=
  {| nodes := final_nodes props; links := aurora_links;
     animation_data := final_animation props t |}.

(** A node has the sockets its type declares; only the constants of its
    inputs may differ. *)
Definition declared (n : Node) : Prop :=
  nd_outputs n = type_outputs (nd_type n) ∧
  sk_name <$> nd_inputs n = sk_name <$> type_inputs (nd_type n).

(** The stretch mapping node. *)
Definition stretch_node : Node :=
  {| nd_type := ShaderNodeMapping; nd_name := "Mapping.001";
     nd_location := (-200, -200);
     nd_inputs := [sock "Vector" (VVector vzero);
                   sock "Location" (VVector vzero);
                   sock "Rotation" (VVector vzero);
                   sock "Scale" (VVector (Vec (1 # 5) 10 1))];
     nd_outputs := ["Vector"]; nd_operation := None;
     nd_color_ramp := None |}.

(** There is an edge from [a] to [b], and a path of one or more edges. *)
Definition edge (ls : list Link) (a b : nat) : Prop :=
  ∃ l, l ∈ ls ∧ lk_from_node l = a ∧ lk_to_node l = b.

Inductive path (ls : list Link) : nat → nat → Prop :=
  | path_edge a b : edge ls a b → path ls a b
  | path_step a b c : edge ls a b → path ls b c → path ls a c.

Definition acyclic (t : NodeTree) : Prop := ∀ n, ¬ path (links t) n n.

(** Link [l] goes from a declared output of a node of the tree to a
    declared input of a node of the tree. *)
Definition well_formed_link (t : NodeTree) (l : Link) : Prop :=
  ∃ src dst,
    nodes t !! lk_from_node l = Some src ∧
    nodes t !! lk_to_node l = Some dst ∧
    (lk_from_socket l < length (nd_outputs src))%nat ∧
    (lk_to_socket l < length (nd_inputs dst))%nat.

(** Input [i] of node [n] is wired: exactly one link ends there. *)
Definition wired (t : NodeTree) (n i : nat) : Prop :=
  ∃ l, filter (λ l, lk_to_node l = n ∧ lk_to_socket l = i) (links t) = [l]
       ∧ well_formed_link t l.

(** Input [i] of node [n] is left at its constant: no link ends there. *)
Definition unwired (t : NodeTree) (n i : nat) : Prop :=
  filter (λ l, lk_to_node l = n ∧ lk_to_socket l = i) (links t) = [].

(** How many output nodes the tree has. *)
Definition output_count (t : NodeTree) : nat :=
  length (filter (λ n, nd_type n = ShaderNodeOutputMaterial) (nodes t)).

(** The depth of each node of the aurora graph from its sources, by
    handle. *)
Definition depth (h : nat) : nat :=
  match h with
  | 6 | 3 => 0          (* tex_coord, transparent *)
  | 5 | 8 => 1          (* separate_xyz, mapping_anim *)
  | 4 | 9 | 10 | 12 => 2 (* ramps, mapping_stretch *)
  | 7 | 11 => 3         (* noise_tex, multiply_emission *)
  | 2 | 13 => 4         (* emission, combine_fade_and_noise *)
  | 1 => 5              (* mix_shader *)
  | _ => 6              (* output_node *)
  end%nat.

End Graph.

(** *** What a run of the compiler builds *)

Module Built.
Import Tree Ops Aurora Graph.

(** The store [h] with new data-block stores, collection, active object
    and report log; the rest of the context is that of [h]. *)
Definition host_with (h : Host) (obs : gmap string Object)
    (mes : gmap string Mesh) (txs : gmap string Texture)
    (mats : gmap string Material) (col : list string)
    (act : option string) (reps : list (ReportLevel * string)) : Host :=
  {| objects := obs; meshes := mes; curves := curves h; textures := txs;
     materials := mats; collection := col; active := act;
     space_type := space_type h; draw_handlers := draw_handlers h;
     modal_handlers := modal_handlers h; cursor := cursor h;
     redraws := redraws h; reports := reps |}.


(** The faces after the two resizes and the subdivision of lines
    236-238. *)
Definition resized (value : Vector) (fs : list Quad) : list Quad :=
  quad_map (resize_about (median fs) value) <$> fs.

Definition aurora_faces (props : Props) : list Quad :=
  flat_map (subdivide_quad (clamp_cuts (subdivisions props)))
    (resized (Vec 1 (aurora_height props / 2) 1)
       (resized (Vec 20 1 1) [unit_plane])).



(** What renaming and deselecting does to the other objects. *)
Definition touch (old new : string) (o : Object) : Object :=
  ob_set_modifiers (fmap (md_follow old new)) (ob_set_select false o).

(** What removing object [A] does to the other objects: modifiers that
    pointed at it point nowhere. *)
Definition forget (A : string) (o : Object) : Object :=
  ob_set_modifiers (fmap (md_forget A)) o.

(** The custom property [key] of object [ob]. *)
Definition tag (h : Host) (ob key : string) : option string :=
  o ← objects h !! ob; ob_props o !! key.

Definition plane_object (M : string) : Object :=
  {| ob_type := MESH; ob_data := Some M; ob_select := true; ob_mode := OBJECT;
     ob_rotation_euler := Vec 0 0 0; ob_modifiers := []; ob_props := ∅ |}.

Definition base_mesh (props : Props) : Mesh :=
  {| me_faces := aurora_faces props; me_applied_rot_x := [15708 # 10000];
     me_materials := []; me_users := 1 |}.

Definition follow_curve (c : string) : Modifier :=
  {| md_name := "FollowCurve"; md_type := CURVE_MOD; md_object := Some c;
     md_texture := None; md_strength := 1; md_direction := DIR_NORMAL |}.

Definition displacement (T : string) : Modifier :=
  {| md_name := "Displacement"; md_type := DISPLACE_MOD; md_object := None;
     md_texture := Some T; md_strength := 7 # 10; md_direction := DIR_Z |}.

Definition rigged_object (M c T : string) : Object :=
  {| ob_type := MESH; ob_data := Some M; ob_select := true; ob_mode := OBJECT;
     ob_rotation_euler := Vec 0 0 0;
     ob_modifiers := [follow_curve c; displacement T]; ob_props := ∅ |}.

Definition displace_texture : Texture :=
  {| tx_type := CLOUDS; tx_noise_scale := 1 # 2; tx_users := 1 |}.

(** The material a run uses: the one the tag names if it is still there,
    else a new one. *)
Definition reused_material (h : Host) (co : Object)
  : option (string * Material) :=
  match ob_props co !! "aurora_material_name" with
  | Some m =>
      match materials h !! m with
      | Some mat => Some (m, mat)
      | None => None
      end
  | None => None
  end.

Definition material_name (h : Host) (co : Object) : string :=
  match reused_material h co with
  | Some (m, _) => m
  | None => Names.unique_name "Aurora_Material" (dom (materials h))
  end.

(** The node tree the graph replaces. *)
Definition previous_tree (h : Host) (co : Object) : NodeTree :=
  match reused_material h co with
  | Some (_, {| mt_node_tree := Some t |}) => t
  | _ => default_node_tree
  end.

Definition aurora_material (props : Props) (h : Host) (co : Object)
  : Material :=
  {| mt_use_nodes := true; mt_blend_method := BLEND;
     mt_node_tree := Some (aurora_tree props (previous_tree h co)) |}.


(** The mesh once the material is assigned. *)
Definition aurora_mesh (props : Props) (mt : string) : Mesh :=
  {| me_faces := aurora_faces props; me_applied_rot_x := [15708 # 10000];
     me_materials := [mt]; me_users := 1 |}.

(** The curve object once the run has tagged and deselected it. *)
Definition tagged (A T mt : string) (o : Object) : Object :=
  ob_set_select false
    (ob_set_props <["aurora_texture_name" := T]>
       (ob_set_props <["aurora_object_name" := A]>
          (ob_set_props <["aurora_material_name" := mt]> o))).

(** The names a run started in [h] gives to what it creates. *)
Definition plane_name (h : Host) : string :=
  Names.unique_name "Plane" (dom (objects h)).
Definition mesh_name (h : Host) : string :=
  Names.unique_name "Plane" (dom (meshes h)).
Definition aurora_name (h : Host) : string :=
  Names.unique_name "Aurora" (dom (objects h)).
Definition texture_name (h : Host) : string :=
  Names.unique_name "AuroraDisplaceTexture" (dom (textures h)).

(** The store after [rebuild props c] from [h], where [co] is the curve
    object [c] in [h]. *)
Definition rebuilt (props : Props) (c : string) (co : Object) (h : Host)
  : Host :=
  let P := plane_name h in
  let M := mesh_name h in
  let A := aurora_name h in
  let T := texture_name h in
  let co1 := touch P A co in
  let mt := material_name h co1 in
  host_with h
    (<[A := rigged_object M c T]>
       (<[c := tagged A T mt co1]> (touch P A <$> objects h)))
    (<[M := aurora_mesh props mt]> (meshes h))
    (<[T := displace_texture]> (textures h))
    (<[mt := aurora_material props h co1]> (materials h))
    ((λ n, if decide (n = P) then A else n) <$> (collection h ++ [P]))
    (Some A)
    (reports h ++ [(INFO, "Aurora created/updated successfully!")]).

End Built.

(** *** The shape of the base mesh *)

Module Shape.
Import Ops Aurora Built.

(** Vectors with equal coordinates. *)
Definition veq (a b : Vector) : Prop :=
  vx a == vx b ∧ vy a == vy b ∧ vz a == vz b.

(** Point [(i, j)] of the grid of [n] by [n] cells over the rectangle
    from [(-20, -h/2)] to [(20, h/2)] on the ground. *)
Definition point (h : Q) (n i j : nat) : Vector :=
  Vec (-20 + 40 * (inject_Z (Z.of_nat i) / inject_Z (Z.of_nat n)))
      (- (h / 2) + h * (inject_Z (Z.of_nat j) / inject_Z (Z.of_nat n)))
      0.

(** Face [q] is cell [(i, j)] of that grid. *)
Definition is_cell (h : Q) (n i j : nat) (q : Quad) : Prop :=
  veq (qa q) (point h n i j) ∧ veq (qb q) (point h n (S i) j) ∧
  veq (qc q) (point h n (S i) (S j)) ∧ veq (qd q) (point h n i (S j)).

(** The coordinates [f] of the corners of the faces, in lowest terms. *)
Definition coordinates (f : Vector → Q) (fs : list Quad) : list Q :=
  (λ v, Qred (f v)) <$> flat_map corners fs.

Definition smallest (l : list Q) : Q :=
  foldr (λ x m, if Qle_bool x m then x else m) (default 0 (head l)) l.
Definition largest (l : list Q) : Q :=
  foldr (λ x m, if Qle_bool m x then x else m) (default 0 (head l)) l.

(** The extent of the faces along coordinate [f]. *)
Definition span (f : Vector → Q) (fs : list Quad) : Q :=
  Qred (largest (coordinates f fs) - smallest (coordinates f fs)).

Definition Q_has (x : Q) (l : list Q) : bool :=
  existsb (λ y, Qeq_bool x y) l.

Fixpoint distinct (l : list Q) : list Q :=
  match l with
  | [] => []
  | x :: rest => if Q_has x rest then distinct rest else x :: distinct rest
  end.

(** The number of segments the faces cut coordinate [f] into. *)
Definition segments (f : Vector → Q) (fs : list Quad) : nat :=
  Nat.pred (length (distinct (coordinates f fs))).

(** Reading the specification literally: 20 units long, half the height
    wide, cut along its length into [subdivisions] segments. *)
Definition scaffold_as_specified (props : Props) (fs : list Quad) : Prop :=
  span vx fs == 20 ∧ span vy fs == aurora_height props / 2 ∧
  segments vx fs = subdivisions props ∧ segments vy fs = 1%nat.

(** Reading the specification literally: the curve carries the two tags
    of the teardown and no other. *)
Definition two_tags_as_specified (h : Host) (curve : string) : Prop :=
  ∃ co, objects h !! curve = Some co ∧
        dom (ob_props co) = {["aurora_object_name"; "aurora_texture_name"]}.

End Shape.

(** ** The sidebar panel: [VIEW3D_PT_AuroraPanel] *)

Module Panel.

(** What [draw] lays out: the calls on a layout, in order, with the
    sub-layouts nested. *)
Inductive Widget : Type :=
  | Label (text : string) (icon : option string)
  | Operator (idname : string) (icon : option string)
  | Field (name : string)
  | Separator
  | Box (content : list Widget)
  | Column (align : bool) (content : list Widget).

(** [bl_idname] of the two operators. *)
Definition draw_path_idname : string := "aurora.draw_path".
Definition create_idname : string := "object.create_aurora".

(** [VIEW3D_PT_AuroraPanel.draw], lines 381-419. *)
Definition draw (h : Host) : list Widget :=
  [ Box [ Label "Draw Path" (Some "CURVE_PATH");
          Column false
            [ Operator draw_path_idname (Some "ADD");
              Label "Click to start drawing a path in the scene." None ] ];
    Separator;
    Box (Label "Generate Aurora" (Some "SHADERFX") ::
         match active h with
         | Some a =>
             match objects h !! a with
             | Some o =>
                 if bool_decide (ob_type o = CURVE) then
                   [ Column true [Field "aurora_height"; Field "subdivisions"];
                     Box [ Label "Colors & Glow" None; Field "color1";
                           Field "color2"; Field "emission_strength" ];
                     Box [ Label "Pattern" None; Field "noise_scale";
                           Field "noise_distortion" ];
                     Field "animate";
                     Separator;
                     Operator create_idname (Some "SHADERFX") ]
                 else [Label "Select a Curve object to generate."
                             (Some "INFO")]
             | None => [Label "Select a Curve object to generate."
                              (Some "INFO")]
             end
         | None => [Label "Select a Curve object to generate." (Some "INFO")]
         end) ].

(** The operators and the property fields a layout shows, in order. *)
Fixpoint operators (w : Widget) : list string :=
  match w with
  | Operator idname _ => [idname]
  | Box ws | Column _ ws => flat_map operators ws
  | _ => []
  end.

Fixpoint fields (w : Widget) : list string :=
  match w with
  | Field name => [name]
  | Box ws | Column _ ws => flat_map fields ws
  | _ => []
  end.

(** The names of the properties of [AuroraGeneratorProperties], in the
    order of the class. *)
Definition property_names : list string :=
  ["aurora_height"; "subdivisions"; "color1"; "color2";
   "emission_strength"; "noise_scale"; "noise_distortion"; "animate"].

End Panel.

(** Concrete scenes and events, for the examples. *)
Module Example.
Import DrawPath.

Definition empty_host : Host :=
  {| objects := ∅; meshes := ∅; curves := ∅; textures := ∅;
     materials := ∅; collection := []; active := None;
     space_type := VIEW_3D; draw_handlers := ∅; modal_handlers := 0;
     cursor := DEFAULT; redraws := 0; reports := [] |}.

(** Looking straight down from height 10: pixel (x, y) is above the
    ground point (x, y, 0). *)
Definition top_view : View :=
  {| region_2d_to_origin_3d :=
       λ c, Vec (inject_Z c.1) (inject_Z c.2) 10;
     region_2d_to_vector_3d := λ _, Vec 0 0 (-1) |}.

(** Looking along the ground: every ray is parallel to the plane. *)
Definition side_view : View :=
  {| region_2d_to_origin_3d :=
       λ c, Vec 0 (inject_Z c.1) (inject_Z c.2);
     region_2d_to_vector_3d := λ _, Vec 1 0 0 |}.

(** Looking straight up from height 10: the ground is behind. *)
Definition up_view : View :=
  {| region_2d_to_origin_3d :=
       λ c, Vec (inject_Z c.1) (inject_Z c.2) 10;
     region_2d_to_vector_3d := λ _, Vec 0 0 1 |}.

Definition click (x y : Z) : Event :=
  {| ev_type := LEFTMOUSE; ev_value := PRESS;
     mouse_region_x := x; mouse_region_y := y |}.

Definition key (k : EventType) : Event :=
  {| ev_type := k; ev_value := PRESS;
     mouse_region_x := 0; mouse_region_y := 0 |}.

(** The default properties with two cuts. *)
Definition small_props : Aurora.Props :=
  {| Aurora.aurora_height := 5; Aurora.subdivisions := 2;
     Aurora.color1 := RGBA (1 # 10) 1 (7 # 10) 1;
     Aurora.color2 := RGBA (3 # 10) (1 # 5) (4 # 5) 1;
     Aurora.emission_strength := 25; Aurora.noise_scale := 3 # 2;
     Aurora.noise_distortion := 1 # 2; Aurora.animate := true |}.

Definition still_props : Aurora.Props :=
  {| Aurora.aurora_height := 5; Aurora.subdivisions := 2;
     Aurora.color1 := RGBA (1 # 10) 1 (7 # 10) 1;
     Aurora.color2 := RGBA (3 # 10) (1 # 5) (4 # 5) 1;
     Aurora.emission_strength := 25; Aurora.noise_scale := 3 # 2;
     Aurora.noise_distortion := 1 # 2; Aurora.animate := false |}.

(** A path of two points, drawn from above and confirmed: the curve
    object "AuroraCurve" is selected and active. *)
Definition drawn_scene : Host :=
  store_of (DrawPath.session
    [(top_view, click 0 0); (top_view, click 5 0); (top_view, key RET)]
    empty_host).

(** The scene after the aurora is compiled on that path: the object
    "Aurora" is active. *)
Definition compiled_scene : Host :=
  store_of (Aurora.execute small_props drawn_scene).

(** A host whose active space is not a 3D view. *)
Definition text_editor_host : Host :=
  {| objects := ∅; meshes := ∅; curves := ∅; textures := ∅;
     materials := ∅; collection := []; active := None;
     space_type := TEXT_EDITOR; draw_handlers := ∅; modal_handlers := 0;
     cursor := DEFAULT; redraws := 0; reports := [] |}.

(** The drawn path, tagged by hand with its own name. *)
Definition self_tagged_scene : Host :=
  store_of (Ops.set_prop "AuroraCurve" "aurora_object_name" "AuroraCurve"
              drawn_scene).

(** The compiled scene with the curve active again, its material removed
    from the file. *)
Definition reselected_scene : Host :=
  set_active (Some "AuroraCurve") compiled_scene.

Definition unmaterialed_scene : Host :=
  set_materials (delete "Aurora_Material") reselected_scene.

(** A second path drawn in the compiled scene, and the scene after an
    aurora is compiled on it. *)
Definition second_path_scene : Host :=
  store_of (DrawPath.session
    [(top_view, click 1 1); (top_view, click 2 3); (top_view, key RET)]
    compiled_scene).

Definition two_auroras_scene : Host :=
  store_of (Aurora.execute still_props second_path_scene).

(** The same scene, where the mesh and the texture of the aurora each
    have a second user. *)
Definition shared_scene : Host :=
  set_textures (alter (tx_set_users S) "AuroraDisplaceTexture")
    (set_meshes (alter (me_set_users S) "Plane") reselected_scene).

End Example.

(* ===================================================================== *)
(** * Properties *)
(* ===================================================================== *)

(** ** Unique names are fresh *)

Module NamesFacts.
Import Names.

Lemma read_decimal_zero s n :
  read_decimal s = Some n → read_decimal (zero_pad s) = Some n.
Proof.
  unfold read_decimal, zero_pad. simpl.
  destruct (NilEmpty.uint_of_string s) as [u|]; [|done].
  intros [= <-]. reflexivity.
Qed.

Lemma read_zfill3 n : read_decimal (zfill3 (decimal n)) = Some n.
Proof.
  assert (H : read_decimal (decimal n) = Some n).
  { unfold read_decimal, decimal. rewrite NilEmpty.usu. simpl.
    f_equal. apply DecimalNat.Unsigned.of_to. }
  unfold zfill3.
  destruct (String.length (decimal n)) as [|[|[|k]]]; try exact H.
  - by do 2 apply read_decimal_zero.
  - by apply read_decimal_zero.
Qed.

Lemma append_cancel (a s t : string) : a +:+ s = a +:+ t → s = t.
Proof. induction a as [|c a IH]; simpl; [done|]. intros [= H]. auto. Qed.

Lemma numbered_inj base i j : numbered base i = numbered base j → i = j.
Proof.
  unfold numbered. intros H. apply append_cancel in H.
  injection H as H.
  assert (Some i = Some j) as [= ->]; [|done].
  by rewrite <- !read_zfill3, H.
Qed.

(** Pigeonhole: the search meets at most [size X] taken names. *)
Lemma first_free_fresh base used fuel :
  ∀ (X : gset string) n,
    X ⊆ used →
    (∀ i, (n ≤ i)%nat → numbered base i ∈ used → numbered base i ∈ X) →
    (size X ≤ fuel)%nat →
    first_free base used n fuel ∉ used.
Proof.
  induction fuel as [|fuel IH]; intros X n Hsub Hall Hsz; simpl.
  - assert (X = ∅) as -> by (apply leibniz_equiv, size_empty_inv; lia).
    intros Hin. specialize (Hall n (Nat.le_refl n) Hin). set_solver.
  - destruct (decide (numbered base n ∈ used)) as [Hin|Hout]; [|done].
    apply (IH (X ∖ {[numbered base n]})).
    + intros x [Hx _]%elem_of_difference. by apply Hsub.
    + intros i Hi Hi'. apply elem_of_difference. split.
      * apply Hall; [lia|done].
      * rewrite elem_of_singleton. intros Heq%numbered_inj. lia.
    + assert (numbered base n ∈ X) by (apply Hall; [lia|done]).
      assert (size X = S (size (X ∖ {[numbered base n]}))); [|lia].
      rewrite (union_difference_singleton_L (numbered base n) X) at 1 by done.
      rewrite size_union, size_singleton; [done|].
      intros x ->%elem_of_singleton [_ Hx]%elem_of_difference.
      by apply Hx, elem_of_singleton.
Qed.

Lemma unique_name_fresh base used : unique_name base used ∉ used.
Proof.
  unfold unique_name. destruct (decide (base ∈ used)); [|done].
  apply (first_free_fresh base used (size used) used); [done|auto|lia].
Qed.

Lemma unique_name_free base used : base ∉ used → unique_name base used = base.
Proof. unfold unique_name. intros ?. by rewrite decide_False. Qed.

End NamesFacts.

(** ** Running programs symbolically *)

(** Unfold the program combinators and the host primitives, then reduce
    the projections of the updated store. *)
Ltac run_prog :=
  cbv beta iota delta
    [bind ret modify gets raise from_some zoom the_object on_object on_curve
     objects_new curves_new collection_link objects_remove meshes_remove
     textures_remove deselect_all select_all_deselect select_set draw_handler_add
     draw_handler_remove cursor_set report tag_redraw modal_handler_add
     data_user];
  cbn [objects meshes curves textures materials collection active
       space_type draw_handlers modal_handlers cursor redraws reports
       set_objects set_meshes set_curves set_textures set_materials
       set_collection set_active set_draw_handlers set_modal_handlers
       set_cursor set_redraws add_report store_of
       ob_type ob_data ob_select ob_mode ob_rotation_euler ob_modifiers
       ob_props new_object ob_set_select ob_set_mode ob_set_rotation
       ob_set_modifiers ob_set_props
       me_faces me_applied_rot_x me_materials me_users me_set_users
       cu_dimensions cu_splines cu_users cu_set_users
       tx_type tx_noise_scale tx_users tx_set_users
       sp_type bezier_points
       md_name md_type md_object md_texture md_strength md_direction
       new_modifier
       DrawPath.points DrawPath.curve_ob DrawPath._handle
       DrawPath.set_points DrawPath.set_curve_ob].

(** The same for the effect compiler, which also computes on the lists of
    modifiers. *)
Ltac run_host :=
  cbv beta iota delta
    [bind ret modify gets raise from_some zoom the_object on_object on_curve
     objects_new curves_new collection_link objects_remove meshes_remove
     textures_remove deselect_all select_all_deselect select_set draw_handler_add
     draw_handler_remove cursor_set report tag_redraw modal_handler_add
     data_user
     Ops.primitive_plane_add Ops.active_object Ops.rename_object
     Ops.on_edit_mesh Ops.transform_resize Ops.mesh_subdivide Ops.mode_set
     Ops.set_rotation_x Ops.transform_apply_rotation Ops.modifiers_new
     Ops.on_modifier Ops.set_modifier_object Ops.set_modifier_texture
     Ops.set_modifier_strength Ops.set_modifier_direction Ops.textures_new
     Ops.set_noise_scale Ops.materials_new Ops.on_material Ops.use_nodes
     Ops.set_blend_method Ops.on_node_tree Ops.materials_append
     Ops.get_prop Ops.set_prop Aurora.data_users Aurora.meshes_remove_data];
  cbn [objects meshes curves textures materials collection active
       space_type draw_handlers modal_handlers cursor redraws reports
       set_objects set_meshes set_curves set_textures set_materials
       set_collection set_active set_draw_handlers set_modal_handlers
       set_cursor set_redraws add_report store_of
       ob_type ob_data ob_select ob_mode ob_rotation_euler ob_modifiers
       ob_props new_object ob_set_select ob_set_mode ob_set_rotation
       ob_set_modifiers ob_set_props
       me_faces me_applied_rot_x me_materials me_users me_set_users
       Ops.me_set_faces
       cu_dimensions cu_splines cu_users cu_set_users
       tx_type tx_noise_scale tx_users tx_set_users
       sp_type bezier_points
       md_name md_type md_object md_texture md_strength md_direction
       new_modifier mt_use_nodes mt_blend_method mt_node_tree
       DrawPath.points DrawPath.curve_ob DrawPath._handle
       DrawPath.set_points DrawPath.set_curve_ob
       Built.host_with Built.plane_object Built.rigged_object
       Built.displace_texture Built.base_mesh Built.aurora_mesh
       Built.follow_curve Built.displacement
       vx vy vz vzero Nat.ltb Nat.leb app
       length insert list_insert lookup list_lookup fmap list_fmap].

Lemma bind_ok {S A B} (m : Prog S A) (k : A → Prog S B) s a s' :
  m s = Ok a s' → bind m k s = k a s'.
Proof. intros H. unfold bind. by rewrite H. Qed.

Lemma Ok_eq {S A} (a : A) (s1 s2 : S) : s1 = s2 → Ok a s1 = Ok a s2.
Proof. by intros ->. Qed.

Lemma host_ext (h1 h2 : Host) :
  objects h1 = objects h2 → meshes h1 = meshes h2 →
  curves h1 = curves h2 → textures h1 = textures h2 →
  materials h1 = materials h2 → collection h1 = collection h2 →
  active h1 = active h2 → space_type h1 = space_type h2 →
  draw_handlers h1 = draw_handlers h2 →
  modal_handlers h1 = modal_handlers h2 → cursor h1 = cursor h2 →
  redraws h1 = redraws h2 → reports h1 = reports h2 →
  h1 = h2.
Proof.
  destruct h1, h2; cbn. by intros -> -> -> -> -> -> -> -> -> -> -> -> ->.
Qed.

(** Two runs end alike when the fields of their stores agree; the fields
    an operation leaves alone agree on the nose. *)
Ltac host_eq :=
  unfold ret; apply Ok_eq; apply host_ext; unfold Built.host_with;
  cbn [objects meshes curves textures materials collection active
       space_type draw_handlers modal_handlers cursor redraws reports
       set_objects set_meshes set_curves set_textures set_materials
       set_collection set_active set_draw_handlers set_modal_handlers
       set_cursor set_redraws add_report];
  try exact eq_refl.

(** Look-ups of a key just written. *)
Ltac step_maps :=
  repeat (first [ rewrite lookup_insert_eq
                | rewrite lookup_fmap, lookup_insert_eq;
                  cbn [fmap option_fmap option_map]
                | rewrite alter_insert_eq
                | rewrite insert_insert_eq ]; run_host).

(** One statement of a program: run it, with [tac] to get past its
    look-ups. *)
Ltac step_by tac :=
  erewrite bind_ok; [| solve [run_host; tac; reflexivity] ].
Ltac step := step_by idtac.


(** ** Path capture *)

Module DrawPathFacts.
Import DrawPath Session.

(** The loop of [update_curve] overwrites the points it walks over. *)
Lemma for_points (pts : list Vector) :
  ∀ (pre rest : list BezierPoint) (ty : SplineType),
    length rest = length pts →
    for_enumerate (length pre) pts set_bezier_point
      {| sp_type := ty; bezier_points := pre ++ rest |}
    = Ok tt {| sp_type := ty; bezier_points := pre ++ (auto_point <$> pts) |}.
Proof.
  induction pts as [|p pts IH]; intros pre rest ty Hlen.
  - destruct rest; [|done]. reflexivity.
  - destruct rest as [|b rest]; [done|]. simpl in Hlen.
    cbn [for_enumerate]. unfold bind at 1. unfold set_bezier_point at 1.
    run_prog. cbn [bezier_points].
    rewrite lookup_app_r, Nat.sub_diag by done. cbn [lookup list_lookup].
    unfold sp_set_points. cbn [bezier_points sp_type].
    rewrite insert_app_r_alt, Nat.sub_diag by done. cbn [insert list_insert].
    specialize (IH (pre ++ [auto_point p]) rest ty).
    rewrite length_app, Nat.add_1_r, <- !app_assoc in IH.
    apply IH. lia.
Qed.

Lemma update_curve_first (s0 s : Host) (h : nat) (p : Vector) :
  capturing s0 {| points := []; curve_ob := None; _handle := h |} s →
  ∃ self' s',
    update_curve {| points := [p]; curve_ob := None; _handle := h |} s
      = Ok self' s' ∧
    points self' = [p] ∧ _handle self' = h ∧ redraws s' = redraws s ∧
    capturing s0 self' s'.
Proof.
  intros (Hh & Hd & Hm & Ht & Hmat & Ha & _ & Ho & Hc & Hcol).
  cbn [curve_ob _handle] in *.
  unfold update_curve. run_prog.
  rewrite lookup_insert_eq. run_prog.
  unfold set_dimensions, splines_new. run_prog. cbn [app].
  rewrite lookup_insert_eq. run_prog.
  rewrite insert_insert_eq, alter_insert_eq. rewrite lookup_insert_eq.
  unfold on_spline. run_prog.
  cbn [lookup list_lookup]. run_prog. cbn [length Nat.ltb Nat.leb]. 
  pose proof (for_points [p] [] [blank_bezier_point] BEZIER eq_refl) as E.
  cbn [length app] in E. rewrite E. clear E. cbn [fmap list_fmap].
  eexists _, _. split; [reflexivity|].
  repeat split; try done; run_prog; try congruence.
  exists (Names.unique_name "AuroraPath" (dom (curves s))).
  pose proof (NamesFacts.unique_name_fresh "AuroraPath" (dom (curves s))) as Hfc.
  pose proof (NamesFacts.unique_name_fresh "AuroraCurve" (dom (objects s))) as Hfo.
  apply not_elem_of_dom in Hfc. apply not_elem_of_dom in Hfo.
  repeat split.
  - by rewrite <- Ho.
  - by rewrite <- Hc.
  - by rewrite Ho.
  - rewrite !alter_insert_eq, !insert_insert_eq. by rewrite Hc.
  - by rewrite Hcol.
Qed.

Lemma update_curve_next (s0 s : Host) (self : Self) (ob : string) (p : Vector) :
  curve_ob self = Some ob →
  capturing s0 self s →
  ∃ self' s',
    update_curve (set_points (points self ++ [p]) self) s = Ok self' s' ∧
    points self' = points self ++ [p] ∧ _handle self' = _handle self ∧
    redraws s' = redraws s ∧
    capturing s0 self' s'.
Proof.
  intros Hob (Hh & Hd & Hm & Ht & Hmat & Ha & Hcase).
  rewrite Hob in Hcase. destruct Hcase as (cd & Ho0 & Hc0 & Ho & Hc & Hcol).
  unfold update_curve. run_prog. rewrite Hob. run_prog. rewrite Hob. run_prog.
  rewrite Ho, lookup_insert_eq. run_prog.
  rewrite Hc, lookup_insert_eq. unfold on_spline. run_prog.
  cbn [lookup list_lookup]. run_prog.
  rewrite length_fmap, length_app. cbn [length].
  destruct (Nat.ltb_spec (length (points self)) (length (points self) + 1));
    [|lia].
  unfold bezier_points_add. run_prog. unfold sp_set_points. run_prog.
  replace (length (points self) + 1 - length (points self))%nat with 1%nat
    by lia.
  cbn [replicate].
  pose proof (for_points (points self ++ [p]) []
                (((auto_point <$> points self) ++ [blank_bezier_point]))
                BEZIER) as E.
  cbn [length app] in E. rewrite E; clear E.
  2:{ rewrite !length_app, length_fmap. done. }
  cbn [insert list_insert].
  eexists _, _. split; [reflexivity|].
  repeat split; try done; run_prog; try congruence.
  rewrite Hob. exists cd. repeat split; try done.
  by rewrite Hc, insert_insert_eq.
Qed.


Lemma capturing_redraw s0 self s f :
  capturing s0 self s → capturing s0 self (set_redraws f s).
Proof. intros (?&?&?&?&?&?&?). by repeat split. Qed.

Lemma invoke_starts (s0 : Host) :
  space_type s0 = VIEW_3D →
  ∃ self s,
    invoke s0 = Ok (RUNNING_MODAL, Some self) s ∧
    points self = [] ∧ curve_ob self = None ∧
    cursor s = CROSSHAIR ∧ capturing s0 self s.
Proof.
  intros Hsp. unfold invoke. run_prog. rewrite Hsp. run_prog.
  eexists _, _. split; [reflexivity|]. repeat split; try done.
  cbn [_handle]. apply is_fresh.
Qed.


Lemma modal_no_point (self : Self) (view : View) (e : Event) (s : Host) :
  adds_no_point (view, e) →
  ∃ r, modal self view e s = Ok (r, self) (set_redraws S s) ∧
       (r = RUNNING_MODAL ∨ r = PASS_THROUGH).
Proof.
  intros [Hends Hmiss]. cbn [fst snd] in *. unfold ends in Hends.
  unfold modal.
  destruct (ev_type e) eqn:Ht; try discriminate;
    try (run_prog; eexists; split; [reflexivity|]; by auto).
  destruct (ev_value e) eqn:Hv;
    try (run_prog; eexists; split; [reflexivity|]; by auto).
  run_prog. rewrite Hmiss by done. eexists; split; [reflexivity|]; by auto.
Qed.

Lemma run_modal_no_points (s0 : Host) (self : Self)
    (events : list (View * Event)) :
  ∀ s,
    Forall adds_no_point events →
    capturing s0 self s →
    ∃ s',
      capturing s0 self s' ∧
      ∀ rest, run_modal self (events ++ rest) s = run_modal self rest s'.
Proof.
  induction events as [|[view e] events IH]; intros s Hev Hinv.
  - by exists s.
  - apply Forall_cons in Hev as [He Hev].
    destruct (modal_no_point self view e s He) as (r & Hrun & Hr).
    destruct (IH _ Hev (capturing_redraw _ _ _ S Hinv)) as (s' & Hinv' & Hrest).
    exists s'. split; [done|]. intros rest.
    cbn [app run_modal]. unfold bind at 1. rewrite Hrun.
    destruct Hr as [-> | ->]; apply Hrest.
Qed.

Lemma ground_hit_parallel (origin vec : Vector) :
  vz vec == 0 → ground_hit origin vec = None.
Proof.
  intros H. unfold ground_hit. apply Qeq_bool_iff in H. by rewrite H.
Qed.

Lemma ground_hit_behind (origin vec : Vector) :
  - vz origin / vz vec <= 0 → ground_hit origin vec = None.
Proof.
  intros H. unfold ground_hit. destruct (Qeq_bool (vz vec) 0); [done|].
  apply Qle_bool_iff in H. by rewrite H.
Qed.

(** C6: a press of the primary button whose ray is parallel to the ground
    (the z of its direction is zero), or whose intersection with the
    ground is not in front of the ray's origin, adds no point.  [modal]
    returns RUNNING_MODAL without raising; the operator's state, with its
    points and its curve object, is the one it had; and the only change to
    the host is the redraw request that every event makes, so the curve
    data and the objects are untouched. *)
Theorem C6_degenerate_click_adds_no_point (self : Self) (view : View)
    (event : Event) (s : Host) :
  ev_type event = LEFTMOUSE →
  ev_value event = PRESS →
  (vz (region_2d_to_vector_3d view
         (mouse_region_x event, mouse_region_y event)) == 0
   ∨ - vz (region_2d_to_origin_3d view
             (mouse_region_x event, mouse_region_y event))
       / vz (region_2d_to_vector_3d view
               (mouse_region_x event, mouse_region_y event)) <= 0) →
  modal self view event s = Ok (RUNNING_MODAL, self) (set_redraws S s) ∧
  curves (set_redraws S s) = curves s ∧
  objects (set_redraws S s) = objects s.
Proof.
  intros Ht Hv Hmiss. split; [|done].
  unfold modal. rewrite Ht, Hv.
  unfold bind, tag_redraw, modify.
  destruct Hmiss as [H | H].
  - by rewrite (ground_hit_parallel _ _ H).
  - by rewrite (ground_hit_behind _ _ H).
Qed.

Lemma C6_degenerate_click_witness :
  modal {| points := []; curve_ob := None; _handle := 0 |}
        Example.up_view (Example.click 3 4) Example.empty_host
  = Ok (RUNNING_MODAL, {| points := []; curve_ob := None; _handle := 0 |})
       (set_redraws S Example.empty_host) ∧
  curves (set_redraws S Example.empty_host) = curves Example.empty_host ∧
  objects (set_redraws S Example.empty_host) = objects Example.empty_host.
Proof.
  apply (C6_degenerate_click_adds_no_point
           {| points := []; curve_ob := None; _handle := 0 |}
           Example.up_view (Example.click 3 4) Example.empty_host).
  - reflexivity.
  - reflexivity.
  - right. vm_compute. discriminate.
Defined.




(** C10: confirming a session that captured no point.  From a 3D view,
    after any events that add no point (no press of the primary button, or
    only presses whose ray misses the ground), the confirm key or button
    ends the session in FINISHED with the report of success.  The draw
    handler is removed and the cursor is the default one; the operator
    holds no point and no curve object, and the objects, the curve data,
    the collection (hence the selection) and the active object are those
    from before the session. *)
Theorem C10_confirm_without_points (s0 : Host)
    (events : list (View * Event)) (view : View) (confirm : Event) :
  space_type s0 = VIEW_3D →
  Forall adds_no_point events →
  ev_type confirm = RIGHTMOUSE ∨ ev_type confirm = RET →
  ∃ self s',
    session (events ++ [(view, confirm)]) s0 = Ok (FINISHED, Some self) s' ∧
    points self = [] ∧ curve_ob self = None ∧
    draw_handlers s' = draw_handlers s0 ∧
    cursor s' = DEFAULT ∧
    last (reports s') = Some (INFO, "Path created.") ∧
    objects s' = objects s0 ∧ curves s' = curves s0 ∧
    collection s' = collection s0 ∧ active s' = active s0.
Proof.
  intros Hsp Hev Hconfirm.
  destruct (invoke_starts s0 Hsp) as (self & s1 & Hinvoke & Hp & Hob & _ & Hinv).
  destruct (run_modal_no_points s0 self events s1 Hev Hinv)
    as (s & Hcap & Hrest).
  unfold session. unfold bind at 1. rewrite Hinvoke.
  unfold bind at 1. rewrite Hrest. cbn [run_modal].
  unfold bind at 1. unfold modal.
  destruct Hcap as (Hh & Hd & Hm & Ht & Hmat & Ha & Hcase).
  rewrite Hob in Hcase. destruct Hcase as (_ & Ho & Hc & Hcol).
  assert (({[_handle self]} ∪ draw_handlers s0) ∖ {[_handle self]}
          = draw_handlers s0) as Hdraw by set_solver.
  destruct Hconfirm as [-> | ->]; unfold finish; rewrite Hob; run_prog;
    rewrite Hd; (rewrite decide_True by set_solver);
    eexists _, _; (split; [reflexivity|]); run_prog;
    rewrite Hd; split_and!; try done; by rewrite last_snoc.
Qed.

Lemma C10_confirm_without_points_witness :
  ∃ self s',
    session ([(Example.side_view, Example.click 1 1);
              (Example.top_view, Example.key SPACE);
              (Example.up_view, Example.click 2 2)]
             ++ [(Example.top_view, Example.key RET)]) Example.empty_host
      = Ok (FINISHED, Some self) s' ∧
    points self = [] ∧ curve_ob self = None ∧
    draw_handlers s' = draw_handlers Example.empty_host ∧
    cursor s' = DEFAULT ∧
    last (reports s') = Some (INFO, "Path created.") ∧
    objects s' = objects Example.empty_host ∧
    curves s' = curves Example.empty_host ∧
    collection s' = collection Example.empty_host ∧
    active s' = active Example.empty_host.
Proof.
  apply (C10_confirm_without_points Example.empty_host
           [(Example.side_view, Example.click 1 1);
            (Example.top_view, Example.key SPACE);
            (Example.up_view, Example.click 2 2)]
           Example.top_view (Example.key RET)).
  - reflexivity.
  - repeat (apply Forall_cons; split;
      [split; [reflexivity
              |first [intros _ _; vm_compute; reflexivity
                     |intros H; discriminate H]]|]).
    constructor.
  - right. reflexivity.
Defined.

End DrawPathFacts.

(** ** The appearance graph *)

Module GraphFacts.
Import Tree Aurora Graph.

(** [create_graph] clears the tree and builds the same nodes and links
    whatever was there. *)
Lemma create_graph_spec (props : Props) (t : NodeTree) :
  create_graph props t
  = Ok aurora_handles
       {| nodes := aurora_nodes props; links := aurora_links;
          animation_data := cleared t |}.
Proof.
  unfold aurora_nodes, create_graph.
  unfold bind at 1. unfold nodes_clear at 1, modify at 1.
  fold (cleared t). generalize (cleared t). intros a.
  destruct props as [h n c1 c2 es ns nd an].
  vm_compute. reflexivity.
Qed.

Lemma offset_node_created (props : Props) :
  aurora_nodes props !! 8%nat = Some (offset_node_at vzero).
Proof. destruct props. vm_compute. reflexivity. Qed.

Lemma keyframe_insert_offset (frame : Q) (v : Vector) ns ls a :
  ns !! 8%nat = Some (offset_node_at v) →
  Anim.keyframe_insert 8 (Name "Location") frame
    {| nodes := ns; links := ls; animation_data := a |}
  = Ok tt {| nodes := ns; links := ls;
             animation_data :=
               Some {| action := Some {| fcurves :=
                 Anim.key_channels offset_path 0 frame [vx v; vy v; vz v]
                   (fcurves_of {| nodes := ns; links := ls;
                                  animation_data := a |}) |} |} |}.
Proof.
  intros Hn. unfold Anim.keyframe_insert, the_node.
  cbv beta iota delta [bind gets from_some ret raise modify].
  cbn [nodes]. rewrite Hn. reflexivity.
Qed.

Lemma set_offset_y :
  set_default_item (Name "Location") 1 5 (offset_node_at vzero)
  = Ok tt (offset_node_at (Vec 0 5 0)).
Proof. reflexivity. Qed.

(** The animation step, on a tree that holds the offset node. *)
Lemma add_animation_spec (props : Props) ns ls a :
  ns !! 8%nat = Some (offset_node_at vzero) →
  add_animation props 8 {| nodes := ns; links := ls; animation_data := a |}
  = Ok tt
      (if animate props then
         {| nodes := <[8%nat := offset_node_at (Vec 0 5 0)]> ns; links := ls;
            animation_data :=
              Some {| action := Some {| fcurves :=
                linear_and_cyclic <$>
                  Anim.key_channels offset_path 0 250 [0; 5; 0]
                    (Anim.key_channels offset_path 0 1 [0; 0; 0]
                       (fcurves_of {| nodes := ns; links := ls;
                                      animation_data := a |})) |} |} |}
       else {| nodes := ns; links := ls; animation_data := a |}).
Proof.
  intros Hn. unfold add_animation. destruct (animate props); [|reflexivity].
  unfold bind at 1. rewrite (keyframe_insert_offset _ vzero) by done.
  unfold bind at 1. unfold on_node, zoom. cbn [nodes]. rewrite Hn.
  rewrite set_offset_y. unfold set_nodes. cbn [nodes links animation_data].
  unfold bind at 1.
  rewrite (keyframe_insert_offset _ (Vec 0 5 0)).
  2:{ apply list_lookup_insert_eq. by eapply lookup_lt_Some. }
  reflexivity.
Qed.

(** [build_node_tree] replaces whatever tree was there by the aurora
    graph: the result does not depend on the old nodes and links. *)
Lemma build_node_tree_spec (props : Props) (t : NodeTree) :
  build_node_tree props t = Ok aurora_handles (aurora_tree props t).
Proof.
  unfold build_node_tree. unfold bind at 1. rewrite create_graph_spec.
  cbn [mapping_anim aurora_handles]. unfold bind at 1.
  rewrite add_animation_spec by apply offset_node_created.
  unfold aurora_tree, final_nodes, final_animation, cleared_fcurves.
  by destruct (animate props).
Qed.

Lemma final_types (props : Props) :
  nd_type <$> final_nodes props = aurora_types.
Proof. destruct props as [h n c1 c2 es ns nd []]; vm_compute; reflexivity. Qed.

Lemma final_declared (props : Props) : Forall declared (final_nodes props).
Proof.
  destruct props as [h n c1 c2 es ns nd []]; vm_compute; repeat constructor.
Qed.

Lemma one_output (props : Props) t :
  output_count (aurora_tree props t) = 1%nat.
Proof.
  unfold output_count, aurora_tree. cbn [nodes].
  destruct props as [h n c1 c2 es ns nd []]; vm_compute; reflexivity.
Qed.

(** Every link of the aurora graph leads to a deeper node. *)
Lemma links_descend :
  Forall (λ l, (depth (lk_from_node l) < depth (lk_to_node l))%nat)
         aurora_links.
Proof. repeat constructor. Qed.

Lemma edge_descends a b : edge aurora_links a b → (depth a < depth b)%nat.
Proof.
  intros (l & Hl & <- & <-).
  by apply (proj1 (Forall_forall _ _) links_descend).
Qed.

Lemma path_descends a b : path aurora_links a b → (depth a < depth b)%nat.
Proof.
  induction 1 as [a b He | a b c He _ IH]; apply edge_descends in He; lia.
Qed.

Lemma no_cycles (props : Props) t : acyclic (aurora_tree props t).
Proof. intros n Hp. apply path_descends in Hp. lia. Qed.

Ltac settle_input :=
  first
    [ right; vm_compute; reflexivity
    | left; eexists; split; [vm_compute; reflexivity|];
      eexists _, _; split_and!;
      [vm_compute; reflexivity | vm_compute; reflexivity
       | vm_compute; lia | vm_compute; lia] ].

Ltac settle_inputs i Hi :=
  do 7 (destruct i as [|i]; [settle_input|]);
  exfalso; vm_compute in Hi; lia.

(** Every input of every node has exactly one link, from a declared
    output of a node of the graph, or none. *)
Lemma inputs_wired_or_constant (props : Props) t n node i :
  nodes (aurora_tree props t) !! n = Some node →
  (i < length (nd_inputs node))%nat →
  wired (aurora_tree props t) n i ∨ unwired (aurora_tree props t) n i.
Proof.
  unfold wired, unwired, well_formed_link, aurora_tree.
  cbn [nodes links]. intros Hn Hi.
  destruct props as [h k c1 c2 es ns nd an].
  destruct an;
    do 14 (destruct n as [|n];
           [vm_compute in Hn; injection Hn as <-; settle_inputs i Hi|]);
    vm_compute in Hn; discriminate.
Qed.
End GraphFacts.

(** ** The effect compiler, phase by phase *)

Module CompilerFacts.
Import Tree Ops Aurora Graph Built.

Lemma renamed_objects (m : gmap string Object) (P A : string) (o1 o : Object) :
  m !! P = None →
  ob_set_modifiers (fmap (md_follow P A)) <$>
    (<[A := o]> (delete P (<[P := o1]> (ob_set_select false <$> m))))
  = <[A := ob_set_modifiers (fmap (md_follow P A)) o]> (touch P A <$> m).
Proof.
  intros HP. rewrite delete_insert_eq.
  rewrite delete_id by (by rewrite lookup_fmap, HP).
  rewrite fmap_insert. f_equal. by rewrite <- map_fmap_compose.
Qed.

Lemma renamed_dom (m : gmap string Object) (P : string) (o1 : Object) :
  m !! P = None →
  dom (delete P (<[P := o1]> (ob_set_select false <$> m))) = dom m.
Proof.
  intros HP. rewrite delete_insert_eq.
  rewrite delete_id by (by rewrite lookup_fmap, HP).
  by rewrite dom_fmap_L.
Qed.

Lemma create_base_mesh_spec (props : Props) (h : Host) :
  create_base_mesh props h
  = Ok (aurora_name h)
       (host_with h
          (<[aurora_name h := plane_object (mesh_name h)]>
             (touch (plane_name h) (aurora_name h) <$> objects h))
          (<[mesh_name h := base_mesh props]> (meshes h))
          (textures h) (materials h)
          ((λ n, if decide (n = plane_name h) then aurora_name h else n)
             <$> (collection h ++ [plane_name h]))
          (Some (aurora_name h)) (reports h)).
Proof.
  unfold aurora_name, mesh_name, plane_name.
  set (P := Names.unique_name "Plane" (dom (objects h))).
  set (M := Names.unique_name "Plane" (dom (meshes h))).
  set (A := Names.unique_name "Aurora" (dom (objects h))).
  unfold create_base_mesh.
  pose proof (NamesFacts.unique_name_fresh "Plane" (dom (objects h))) as HP.
  pose proof (NamesFacts.unique_name_fresh "Plane" (dom (meshes h))) as HM.
  apply not_elem_of_dom in HP. apply not_elem_of_dom in HM.
  fold P in HP. fold M in HM.
  step_by ltac:(rewrite dom_fmap_L; fold P; fold M; step_maps).
  step.
  step_by ltac:(step_maps; rewrite renamed_dom by done; fold A).
  rewrite decide_True by done.
  step_by ltac:(step_maps).
  step_by ltac:(step_maps).
  step_by ltac:(step_maps).
  step_by ltac:(step_maps).
  step_by ltac:(step_maps).
  step_by ltac:(step_maps).
  host_eq.
  - rewrite !insert_insert_eq, renamed_objects by done.
    rewrite insert_insert_eq. reflexivity.
  - rewrite alter_insert_eq, !insert_insert_eq. reflexivity.
Qed.

Lemma first_modifier_name :
  Names.unique_name "FollowCurve" (list_to_set []) = "FollowCurve".
Proof. reflexivity. Qed.

Lemma second_modifier_name :
  Names.unique_name "Displacement" (list_to_set ["FollowCurve"])
  = "Displacement".
Proof. vm_compute. reflexivity. Qed.

Lemma add_modifiers_spec (h : Host) (A c M : string) (co : Object) :
  objects h !! A = Some (plane_object M) →
  objects h !! c = Some co →
  A ≠ c →
  add_modifiers A c h
  = Ok (texture_name h)
       (host_with h
          (<[A := rigged_object M c (texture_name h)]> (objects h))
          (meshes h)
          (<[texture_name h := displace_texture]> (textures h))
          (materials h) (collection h) (active h) (reports h)).
Proof.
  intros HA Hc Hne. unfold texture_name.
  set (T := Names.unique_name "AuroraDisplaceTexture" (dom (textures h))).
  unfold add_modifiers.
  step_by ltac:(rewrite HA; unfold plane_object; run_host;
           rewrite first_modifier_name).
  step_by ltac:(rewrite lookup_insert_ne, Hc by done; run_host; step_maps).
  step_by ltac:(step_maps; rewrite second_modifier_name).
  step. fold T.
  step_by ltac:(step_maps).
  step_by ltac:(step_maps).
  step_by ltac:(step_maps).
  step_by ltac:(step_maps).
  host_eq.
  - rewrite !insert_insert_eq. reflexivity.
  - rewrite alter_insert_eq, insert_insert_eq. reflexivity.
Qed.

Lemma set_same_prop (co : Object) (k v : string) :
  ob_props co !! k = Some v → ob_set_props <[k := v]> co = co.
Proof.
  intros H. destruct co. unfold ob_set_props. cbn in *. f_equal.
  by apply insert_id.
Qed.

Lemma create_material_spec (props : Props) (h : Host) (c : string)
    (co : Object) :
  objects h !! c = Some co →
  create_material props c h
  = Ok (material_name h co)
       (host_with h
          (<[c := ob_set_props
                    <["aurora_material_name" := material_name h co]> co]>
             (objects h))
          (meshes h) (textures h)
          (<[material_name h co := aurora_material props h co]>
             (materials h))
          (collection h) (active h) (reports h)).
Proof.
  intros Hc. unfold create_material.
  step_by ltac:(rewrite Hc; run_host).
  unfold aurora_material, material_name, previous_tree, reused_material.
  destruct (ob_props co !! "aurora_material_name") as [m|] eqn:Htag.
  - step. destruct (materials h !! m) as [[u b tree]|] eqn:Hm.
    + step. destruct tree as [t|].
      * step_by ltac:(rewrite Hm; run_host;
                      rewrite GraphFacts.build_node_tree_spec).
        host_eq. rewrite set_same_prop by done. by rewrite insert_id.
      * step_by ltac:(rewrite Hm; run_host;
                      rewrite GraphFacts.build_node_tree_spec).
        host_eq. rewrite set_same_prop by done. by rewrite insert_id.
    + step_by ltac:(rewrite Hc; run_host).
      step_by ltac:(step_maps; rewrite GraphFacts.build_node_tree_spec).
      host_eq. by rewrite insert_insert_eq.
  - step. step_by ltac:(rewrite Hc; run_host).
    step_by ltac:(step_maps; rewrite GraphFacts.build_node_tree_spec).
    host_eq. by rewrite insert_insert_eq.
Qed.


Lemma fresh_is_new {A} (m : gmap string A) (base k : string) (x : A) :
  m !! k = Some x → Names.unique_name base (dom m) ≠ k.
Proof.
  intros Hk <-.
  by apply (NamesFacts.unique_name_fresh base (dom m)), elem_of_dom.
Qed.

Lemma touch_props P A co : ob_props (touch P A co) = ob_props co.
Proof. reflexivity. Qed.

(** [rebuild] never raises where the curve is alive, and its result is
    [rebuilt]. *)
Lemma rebuild_spec (props : Props) (h : Host) (c : string) (co : Object) :
  objects h !! c = Some co →
  rebuild props c h = Ok FINISHED (rebuilt props c co h).
Proof.
  intros Hc. unfold rebuild, rebuilt.
  assert (HAc : aurora_name h ≠ c) by (by eapply fresh_is_new).
  pose proof (NamesFacts.unique_name_fresh "Plane" (dom (meshes h))) as HM.
  apply not_elem_of_dom in HM. fold (mesh_name h) in HM.
  set (P := plane_name h) in *. set (M := mesh_name h) in *.
  set (A := aurora_name h) in *. set (T := texture_name h) in *.
  set (co1 := touch P A co). set (mt := material_name h co1).
  erewrite bind_ok by apply create_base_mesh_spec.
  fold P M A.
  erewrite bind_ok.
  2:{ apply (add_modifiers_spec _ A c M co1); [| |done].
      - cbn [objects host_with]. apply lookup_insert_eq.
      - cbn [objects host_with]. rewrite lookup_insert_ne by done.
        rewrite lookup_fmap, Hc. reflexivity. }
  change (texture_name (host_with _ _ _ _ _ _ _ _)) with T.
  erewrite bind_ok.
  2:{ apply (create_material_spec props _ c co1).
      cbn [objects host_with]. rewrite !lookup_insert_ne by done.
      rewrite lookup_fmap, Hc. reflexivity. }
  change (material_name (host_with _ _ _ _ _ _ _ _) co1) with mt.
  change (aurora_material props (host_with _ _ _ _ _ _ _ _) co1)
    with (aurora_material props h co1).
  cbn [objects meshes textures materials collection active reports curves
       host_with].
  assert (HcA : c ≠ A) by done.
  step_by ltac:(rewrite lookup_insert_ne, lookup_insert_eq by done; run_host;
                step_maps).
  step_by ltac:(step_maps).
  step_by ltac:(step_maps).
  step_by ltac:(step_maps).
  step_by ltac:(rewrite !insert_insert_eq, lookup_insert_ne, lookup_insert_eq
                  by done; run_host).
  step. step.
  host_eq.
  - rewrite !insert_insert_eq.
    rewrite (insert_insert_ne _ c A) by done.
    rewrite insert_insert_eq. reflexivity.
  - rewrite insert_insert_eq. reflexivity.
Qed.

End CompilerFacts.
Module CleanupFacts.
Import Tree Ops Aurora Graph Built CompilerFacts.

Lemma bind_assoc {S A B C} (m : Prog S A) (f : A → Prog S B)
    (g : B → Prog S C) (s : S) :
  bind (bind m f) g s = bind m (λ x, bind (f x) g) s.
Proof. unfold bind. by destruct (m s). Qed.

(** The teardown of an artifact whose mesh and texture have no other
    user. *)
Lemma cleanup_spec (s : Host) (c A M T : string) (cobj : Object)
    (me : Mesh) (tx : Texture) :
  objects s !! c = Some cobj →
  ob_props cobj !! "aurora_object_name" = Some A →
  ob_props cobj !! "aurora_texture_name" = Some T →
  objects s !! A = Some (rigged_object M c T) →
  A ≠ c →
  meshes s !! M = Some me → me_users me = 1%nat →
  textures s !! T = Some tx → tx_users tx = 1%nat →
  cleanup c s
  = Ok tt (host_with s
             (forget A <$> delete A (objects s))
             (delete M (meshes s))
             (delete T (textures s))
             (materials s)
             (filter (λ n, n ≠ A) (collection s))
             (if decide (active s = Some A) then None else active s)
             (reports s)).
Proof.
  intros Hc Htag_o Htag_t HA Hne HM Hmu HT Htu. unfold cleanup.
  rewrite ?bind_assoc.
  step_by ltac:(rewrite Hc; run_host). rewrite Htag_o. cbv beta iota.
  rewrite ?bind_assoc.
  step. rewrite HA. cbv beta iota. rewrite ?bind_assoc.
  step_by ltac:(rewrite HA; run_host).
  cbn [ob_data ob_type rigged_object]. rewrite ?bind_assoc.
  step_by ltac:(rewrite lookup_alter_eq, HM; cbn [fmap option_fmap option_map]; run_host).
  rewrite Hmu. cbn [Nat.pred].
  step.
  step_by ltac:(rewrite lookup_fmap, lookup_delete_ne, Hc by done;
                cbn [fmap option_fmap option_map]; run_host).
  cbn [ob_props ob_set_modifiers]. rewrite Htag_t. cbv beta iota.
  step. unfold release_textures.
  cbn [foldr md_texture follow_curve displacement ob_modifiers rigged_object].
  rewrite lookup_alter_eq, HT. cbn [fmap option_fmap option_map tx_users tx_set_users].
  rewrite Htu. cbn [Nat.pred]. run_host.
  host_eq; by rewrite delete_alter_eq.
Qed.

(** The cleanup ends by reading a tag of the curve: where it returns, the
    curve is alive. *)
Lemma cleanup_keeps_curve (c : string) (s t : Host) :
  cleanup c s = Ok tt t → is_Some (objects t !! c).
Proof.
  unfold cleanup. unfold bind at 1.
  destruct (get_prop c "aurora_object_name" s) as [tag s1|]; [|done].
  unfold bind at 1.
  match goal with |- context [match ?X s1 with _ => _ end] =>
    destruct (X s1) as [[] s2|] end; [|done].
  unfold bind at 1. unfold get_prop at 1, the_object, bind, gets, from_some, ret, raise.
  destruct (objects s2 !! c) as [o|] eqn:Ho; [|done].
  destruct (ob_props o !! "aurora_texture_name") as [name|];
    [|by intros [= <-]; rewrite Ho].
  destruct (textures s2 !! name) as [tx|]; [|by intros [= <-]; rewrite Ho].
  destruct (tx_users tx); intros [= <-]; cbn; by rewrite Ho.
Qed.

(** A successful run is a cleanup followed by [rebuild] on a store where
    the curve is alive. *)
Lemma execute_inv (props : Props) (s s1 : Host) (c : string) (r : OpResult) :
  active s = Some c →
  execute props s = Ok r s1 →
  ∃ t co,
    cleanup c s = Ok tt t ∧ objects t !! c = Some co ∧
    r = FINISHED ∧ s1 = rebuilt props c co t.
Proof.
  intros Hact. unfold execute. unfold bind at 1.
  unfold active_object at 1, bind, gets, from_some. rewrite Hact. unfold ret.
  destruct (cleanup c s) as [[] t|] eqn:Hclean; [|done].
  destruct (cleanup_keeps_curve c s t Hclean) as [co Hco].
  rewrite (rebuild_spec props t c co Hco). intros [= <- <-]. by exists t, co.
Qed.

(** The store [rebuilt props c co t], entry by entry. *)
Lemma aurora_is_new (t : Host) (c : string) (co : Object) :
  objects t !! c = Some co → aurora_name t ≠ c.
Proof. intros Hco. by eapply fresh_is_new. Qed.

Lemma rebuilt_aurora props t c co :
  objects (rebuilt props c co t) !! aurora_name t
  = Some (rigged_object (mesh_name t) c (texture_name t)).
Proof. apply lookup_insert_eq. Qed.

Lemma rebuilt_curve props t c co :
  objects t !! c = Some co →
  objects (rebuilt props c co t) !! c
  = Some (tagged (aurora_name t) (texture_name t)
            (material_name t (touch (plane_name t) (aurora_name t) co))
            (touch (plane_name t) (aurora_name t) co)).
Proof.
  intros Hco. unfold rebuilt. cbn [objects host_with].
  rewrite lookup_insert_ne by (by eapply aurora_is_new).
  apply lookup_insert_eq.
Qed.

Lemma rebuilt_mesh props t c co :
  meshes (rebuilt props c co t) !! mesh_name t
  = Some (aurora_mesh props
            (material_name t (touch (plane_name t) (aurora_name t) co))).
Proof. apply lookup_insert_eq. Qed.

Lemma rebuilt_texture props t c co :
  textures (rebuilt props c co t) !! texture_name t = Some displace_texture.
Proof. apply lookup_insert_eq. Qed.

Lemma rebuilt_material props t c co :
  materials (rebuilt props c co t)
    !! material_name t (touch (plane_name t) (aurora_name t) co)
  = Some (aurora_material props t
            (touch (plane_name t) (aurora_name t) co)).
Proof. apply lookup_insert_eq. Qed.

Lemma rebuilt_dom_objects props t c co :
  objects t !! c = Some co →
  dom (objects (rebuilt props c co t)) = {[aurora_name t]} ∪ dom (objects t).
Proof.
  intros Hco. unfold rebuilt. cbn [objects host_with].
  rewrite !dom_insert_L, dom_fmap_L.
  assert (c ∈ dom (objects t)) by (by apply elem_of_dom).
  set_solver.
Qed.

Lemma rebuilt_dom_meshes props t c co :
  dom (meshes (rebuilt props c co t)) = {[mesh_name t]} ∪ dom (meshes t).
Proof. apply dom_insert_L. Qed.

Lemma rebuilt_dom_textures props t c co :
  dom (textures (rebuilt props c co t))
  = {[texture_name t]} ∪ dom (textures t).
Proof. apply dom_insert_L. Qed.

Lemma rebuilt_dom_materials props t c co :
  dom (materials (rebuilt props c co t))
  = {[material_name t (touch (plane_name t) (aurora_name t) co)]}
    ∪ dom (materials t).
Proof. apply dom_insert_L. Qed.

Lemma forget_props A o : ob_props (forget A o) = ob_props o.
Proof. reflexivity. Qed.

Lemma tagged_object_name A T mt o :
  ob_props (tagged A T mt o) !! "aurora_object_name" = Some A.
Proof.
  cbn. rewrite lookup_insert_ne by done. apply lookup_insert_eq.
Qed.

Lemma tagged_texture_name A T mt o :
  ob_props (tagged A T mt o) !! "aurora_texture_name" = Some T.
Proof. cbn. apply lookup_insert_eq. Qed.

Lemma tagged_material_name A T mt o :
  ob_props (tagged A T mt o) !! "aurora_material_name" = Some mt.
Proof.
  cbn. rewrite !lookup_insert_ne by done. apply lookup_insert_eq.
Qed.

Lemma get_prop_inv ob key s v s1 :
  get_prop ob key s = Ok v s1 →
  s1 = s ∧ ∃ o, objects s !! ob = Some o ∧ v = ob_props o !! key.
Proof.
  unfold get_prop, the_object, bind, gets, from_some, ret, raise.
  destruct (objects s !! ob) as [o|]; [|done]. intros [= <- <-]. eauto.
Qed.

Lemma objects_remove_inv name s s2 :
  objects_remove name s = Ok tt s2 →
  objects s2 = forget name <$> delete name (objects s).
Proof.
  unfold objects_remove, the_object, bind, gets, from_some, ret, raise, modify.
  destruct (objects s !! name); [|done]. intros [= <-]. reflexivity.
Qed.

Lemma data_users_inv ty m s u s' : data_users ty m s = Ok u s' → s' = s.
Proof.
  unfold data_users, bind, gets, from_some, ret, raise.
  destruct ty; [destruct (meshes s !! m)|destruct (curves s !! m)|];
    congruence.
Qed.

Lemma meshes_remove_data_inv ty m s s' :
  meshes_remove_data ty m s = Ok tt s' → objects s' = objects s.
Proof.
  unfold meshes_remove_data, meshes_remove, modify, raise.
  destruct ty; [|done|done]. by intros [= <-].
Qed.

(** The teardown leaves the custom properties of the curve as they are. *)
Lemma cleanup_props c s t :
  cleanup c s = Ok tt t →
  is_Some (objects s !! c) ∧ ∀ key, tag t c key = tag s c key.
Proof.
  unfold cleanup. unfold bind at 1.
  destruct (get_prop c "aurora_object_name" s) as [v s'|] eqn:Hg; [|done].
  apply get_prop_inv in Hg as (-> & co & Hco & ->).
  unfold bind at 1.
  match goal with |- context [match ?X s with _ => _ end] =>
    destruct (X s) as [[] s2|] eqn:H1 end; [|done].
  assert (objects s2 = objects s
          ∨ ∃ A, objects s2 = forget A <$> delete A (objects s)) as Hs2.
  { destruct (ob_props co !! "aurora_object_name") as [A|];
      [|injection H1 as <-; by left].
    unfold bind at 1, gets at 1 in H1.
    destruct (objects s !! A) as [o|] eqn:HA; [|left; by injection H1 as <-].
    right. exists A. unfold bind at 1 in H1.
    destruct (objects_remove A s) as [[] s3|] eqn:Hrm; [|done].
    apply objects_remove_inv in Hrm. rewrite <- Hrm.
    destruct (ob_data o) as [m|]; [|by injection H1 as <-].
    unfold bind at 1 in H1.
    destruct (data_users (ob_type o) m s3) as [u s4|] eqn:Hu; [|done].
    apply data_users_inv in Hu as ->.
    destruct u; [|by injection H1 as <-].
    by apply meshes_remove_data_inv in H1. }
  clear H1. unfold bind at 1.
  destruct (get_prop c "aurora_texture_name" s2) as [v s'|] eqn:Hg; [|done].
  apply get_prop_inv in Hg as (-> & co2 & Hco2 & ->).
  intros Hrest. split; [done|]. intros key.
  assert (objects t = objects s2) as Ht.
  { destruct (ob_props co2 !! "aurora_texture_name") as [T|];
      [|by injection Hrest as <-].
    unfold bind at 1, gets at 1 in Hrest.
    destruct (textures s2 !! T) as [tx|]; [|by injection Hrest as <-].
    destruct (tx_users tx); by injection Hrest as <-. }
  unfold tag. rewrite Ht, Hco2, Hco. cbn [mbind option_bind].
  destruct Hs2 as [Hs2 | [A Hs2]]; rewrite Hs2 in Hco2.
  - congruence.
  - rewrite lookup_fmap in Hco2.
    destruct (decide (c = A)) as [->|Hne].
    + by rewrite lookup_delete_eq in Hco2.
    + rewrite lookup_delete_ne, Hco in Hco2 by done.
      by injection Hco2 as <-.
Qed.
(** C1: a second run on the same curve replaces the artifact of the first.
    After a successful run from any store, the curve's tags name the aurora
    object and the noise texture, and both are alive.  When the curve is
    made active again, the teardown of the second run removes that object,
    its mesh (which has no other user) and that texture (which has no other
    user); the second run then finishes with the same objects, meshes,
    textures and materials in the file as after the first run, under the
    same names, and with the same tags on the curve: nothing accumulates. *)
Theorem C1_second_run_replaces_artifact (p1 p2 : Props) (s s1 : Host)
    (c : string) (r : OpResult) :
  active s = Some c →
  execute p1 s = Ok r s1 →
  ∃ A M T t2 s2,
    tag s1 c "aurora_object_name" = Some A ∧
    tag s1 c "aurora_texture_name" = Some T ∧
    (∃ o, objects s1 !! A = Some o ∧ ob_data o = Some M) ∧
    is_Some (meshes s1 !! M) ∧ is_Some (textures s1 !! T) ∧
    cleanup c (set_active (Some c) s1) = Ok tt t2 ∧
    objects t2 !! A = None ∧ meshes t2 !! M = None ∧
    textures t2 !! T = None ∧
    execute p2 (set_active (Some c) s1) = Ok FINISHED s2 ∧
    dom (objects s2) = dom (objects s1) ∧
    dom (meshes s2) = dom (meshes s1) ∧
    dom (textures s2) = dom (textures s1) ∧
    dom (materials s2) = dom (materials s1) ∧
    tag s2 c "aurora_object_name" = Some A ∧
    tag s2 c "aurora_texture_name" = Some T.
Proof.
  intros Hact Hrun.
  destruct (execute_inv p1 s s1 c r Hact Hrun) as (t1 & co & _ & Hco & _ & ->).
  set (A := aurora_name t1). set (M := mesh_name t1).
  set (T := texture_name t1).
  set (co1 := touch (plane_name t1) A co).
  set (mt := material_name t1 co1).
  assert (HAc : A ≠ c) by (by eapply aurora_is_new).
  pose proof (NamesFacts.unique_name_fresh "Aurora" (dom (objects t1))) as HA.
  pose proof (NamesFacts.unique_name_fresh "Plane" (dom (meshes t1))) as HM.
  pose proof (NamesFacts.unique_name_fresh "AuroraDisplaceTexture"
                (dom (textures t1))) as HT.
  fold (aurora_name t1) in HA. fold (mesh_name t1) in HM.
  fold (texture_name t1) in HT. fold A in HA. fold M in HM. fold T in HT.
  (* the second cleanup *)
  pose proof (cleanup_spec (set_active (Some c) (rebuilt p1 c co t1)) c A M T
                (tagged A T mt co1) (aurora_mesh p1 mt) displace_texture
                (rebuilt_curve p1 t1 c co Hco)
                (tagged_object_name _ _ _ _) (tagged_texture_name _ _ _ _)
                (rebuilt_aurora p1 t1 c co) HAc
                (rebuilt_mesh p1 t1 c co) eq_refl
                (rebuilt_texture p1 t1 c co) eq_refl) as Hclean.
  cbn [objects meshes textures materials collection active reports
       set_active] in Hclean.
  rewrite decide_False in Hclean by (intros [= ->]; done).
  set (t2 := host_with _ _ _ _ _ _ _ _) in Hclean.
  assert (Hco2 : objects t2 !! c = Some (forget A (tagged A T mt co1))).
  { unfold t2. cbn [objects host_with]. rewrite lookup_fmap.
    rewrite lookup_delete_ne by done.
    by rewrite (rebuilt_curve p1 t1 c co Hco). }
  (* the stores after the cleanup are those before the first rebuild *)
  assert (Hdo : dom (objects t2) = dom (objects t1)).
  { unfold t2. cbn [objects host_with].
    rewrite dom_fmap_L, dom_delete_L, (rebuilt_dom_objects p1 t1 c co Hco).
    fold A. set_solver. }
  assert (Hdm : dom (meshes t2) = dom (meshes t1)).
  { unfold t2. cbn [meshes host_with].
    rewrite dom_delete_L, rebuilt_dom_meshes. fold M. set_solver. }
  assert (Hdt : dom (textures t2) = dom (textures t1)).
  { unfold t2. cbn [textures host_with].
    rewrite dom_delete_L, rebuilt_dom_textures. fold T. set_solver. }
  assert (HA2 : aurora_name t2 = A) by (unfold aurora_name; by rewrite Hdo).
  assert (HM2 : mesh_name t2 = M) by (unfold mesh_name; by rewrite Hdm).
  assert (HT2 : texture_name t2 = T) by (unfold texture_name; by rewrite Hdt).
  set (co2 := touch (plane_name t2) (aurora_name t2)
                (forget A (tagged A T mt co1))).
  assert (Hmt2 : material_name t2 co2 = mt).
  { unfold material_name, reused_material.
    unfold co2. rewrite touch_props, forget_props, tagged_material_name.
    unfold t2. cbn [materials host_with set_active].
    pose proof (rebuilt_material p1 t1 c co) as Hmat.
    fold A co1 mt in Hmat. by rewrite Hmat. }
  exists A, M, T, t2, (rebuilt p2 c (forget A (tagged A T mt co1)) t2).
  split_and!.
  - unfold tag. rewrite (rebuilt_curve p1 t1 c co Hco). apply tagged_object_name.
  - unfold tag. rewrite (rebuilt_curve p1 t1 c co Hco). apply tagged_texture_name.
  - eexists. split; [apply rebuilt_aurora|done].
  - eexists. apply rebuilt_mesh.
  - eexists. apply rebuilt_texture.
  - exact Hclean.
  - unfold t2. cbn [objects host_with]. by rewrite lookup_fmap, lookup_delete_eq.
  - apply lookup_delete_eq.
  - apply lookup_delete_eq.
  - unfold execute. unfold bind at 1.
    unfold active_object at 1, bind, gets, from_some.
    cbn [active set_active]. unfold ret. rewrite Hclean.
    apply rebuild_spec, Hco2.
  - rewrite (rebuilt_dom_objects p2 t2 c _ Hco2), HA2, Hdo.
    by rewrite (rebuilt_dom_objects p1 t1 c co Hco).
  - rewrite rebuilt_dom_meshes, HM2, Hdm. by rewrite rebuilt_dom_meshes.
  - rewrite rebuilt_dom_textures, HT2, Hdt. by rewrite rebuilt_dom_textures.
  - rewrite rebuilt_dom_materials. fold co2. rewrite Hmt2.
    unfold t2. cbn [materials host_with set_active].
    rewrite rebuilt_dom_materials. fold A co1 mt. set_solver.
  - unfold tag. rewrite (rebuilt_curve p2 t2 c _ Hco2). cbn [mbind option_bind].
    rewrite tagged_object_name. by rewrite HA2.
  - unfold tag. rewrite (rebuilt_curve p2 t2 c _ Hco2). cbn [mbind option_bind].
    rewrite tagged_texture_name. by rewrite HT2.
Qed.
Lemma C1_second_run_witness :
  ∃ A M T t2 s2,
    tag Example.compiled_scene "AuroraCurve" "aurora_object_name" = Some A ∧
    tag Example.compiled_scene "AuroraCurve" "aurora_texture_name" = Some T ∧
    (∃ o, objects Example.compiled_scene !! A = Some o ∧ ob_data o = Some M) ∧
    is_Some (meshes Example.compiled_scene !! M) ∧
    is_Some (textures Example.compiled_scene !! T) ∧
    cleanup "AuroraCurve"
      (set_active (Some "AuroraCurve") Example.compiled_scene) = Ok tt t2 ∧
    objects t2 !! A = None ∧ meshes t2 !! M = None ∧
    textures t2 !! T = None ∧
    execute Example.still_props
      (set_active (Some "AuroraCurve") Example.compiled_scene)
      = Ok FINISHED s2 ∧
    dom (objects s2) = dom (objects Example.compiled_scene) ∧
    dom (meshes s2) = dom (meshes Example.compiled_scene) ∧
    dom (textures s2) = dom (textures Example.compiled_scene) ∧
    dom (materials s2) = dom (materials Example.compiled_scene) ∧
    tag s2 "AuroraCurve" "aurora_object_name" = Some A ∧
    tag s2 "AuroraCurve" "aurora_texture_name" = Some T.
Proof.
  apply (C1_second_run_replaces_artifact Example.small_props
           Example.still_props Example.drawn_scene Example.compiled_scene
           "AuroraCurve" FINISHED).
  - vm_compute. reflexivity.
  - vm_compute. reflexivity.
Defined.

End CleanupFacts.
Module CompileClaims.
Import Tree Ops Aurora Graph Built CompilerFacts CleanupFacts GraphFacts.

Lemma poll_false_iff (s : Host) :
  poll s = false ↔
  ∀ c o, active s = Some c → objects s !! c = Some o → ob_type o ≠ CURVE.
Proof.
  unfold poll. split.
  - intros Hp c o Hc Ho. rewrite Hc, Ho in Hp.
    by apply bool_decide_eq_false in Hp.
  - intros H. destruct (active s) as [c|] eqn:Hc; [|done].
    destruct (objects s !! c) as [o|] eqn:Ho; [|done].
    apply bool_decide_eq_false. by apply (H c o).
Qed.

(** C9: without an active curve the operator does not run.  If the active
    object, when there is one, is not of type CURVE, calling the operator
    raises RuntimeError (the host's poll failure) and the store it leaves
    is the store it was called in. *)
Theorem C9_no_active_curve_no_run (props : Props) (s : Host) :
  (∀ c o, active s = Some c → objects s !! c = Some o → ob_type o ≠ CURVE) →
  poll s = false ∧ create_aurora props s = Raise RuntimeError s.
Proof.
  intros H. apply poll_false_iff in H. split; [done|].
  unfold create_aurora, bind, gets. by rewrite H.
Qed.

Lemma C9_no_active_curve_witness :
  poll Example.compiled_scene = false ∧
  create_aurora Example.small_props Example.compiled_scene
  = Raise RuntimeError Example.compiled_scene.
Proof.
  apply (C9_no_active_curve_no_run Example.small_props Example.compiled_scene).
  intros c o Hc Ho. vm_compute in Hc. injection Hc as <-.
  vm_compute in Ho. injection Ho as <-. discriminate.
Defined.

Lemma tag_rebuilt props t c co key :
  objects t !! c = Some co →
  tag (rebuilt props c co t) c key
  = if decide (key = "aurora_texture_name") then Some (texture_name t)
    else if decide (key = "aurora_object_name") then Some (aurora_name t)
    else if decide (key = "aurora_material_name")
         then Some (material_name t (touch (plane_name t) (aurora_name t) co))
    else ob_props co !! key.
Proof.
  intros Hco. unfold tag. rewrite (rebuilt_curve props t c co Hco).
  cbn [mbind option_bind]. unfold tagged.
  cbn [ob_props ob_set_props ob_set_select]. rewrite touch_props.
  destruct (decide (key = "aurora_texture_name")) as [->|H1];
    [apply lookup_insert_eq|].
  rewrite lookup_insert_ne by congruence.
  destruct (decide (key = "aurora_object_name")) as [->|H2];
    [apply lookup_insert_eq|].
  rewrite lookup_insert_ne by congruence.
  destruct (decide (key = "aurora_material_name")) as [->|H3];
    [apply lookup_insert_eq|].
  by rewrite lookup_insert_ne by congruence.
Qed.

Lemma cleanup_untagged c s co :
  objects s !! c = Some co →
  ob_props co !! "aurora_object_name" = None →
  ob_props co !! "aurora_texture_name" = None →
  cleanup c s = Ok tt s.
Proof.
  intros Hco H1 H2.
  unfold cleanup, get_prop, the_object, bind, gets, from_some, ret.
  repeat (first [rewrite Hco | rewrite H1 | rewrite H2]; cbv beta iota).
  reflexivity.
Qed.

(** C5: the tags a run leaves on the curve.  After a successful run the
    curve carries three string tags: "aurora_object_name" names the aurora
    object, "aurora_texture_name" the noise texture and
    "aurora_material_name" the material, each alive in the file; every
    other custom property of the curve is what it was.  On a curve that
    has neither of the first two tags the teardown changes nothing. *)
Theorem C5_three_tags_on_curve (props : Props) (s s1 : Host) (c : string)
    (r : OpResult) :
  active s = Some c →
  execute props s = Ok r s1 →
  ∃ A T mt,
    (∀ key, tag s1 c key
            = if decide (key = "aurora_texture_name") then Some T
              else if decide (key = "aurora_object_name") then Some A
              else if decide (key = "aurora_material_name") then Some mt
              else tag s c key) ∧
    is_Some (objects s1 !! A) ∧ is_Some (textures s1 !! T) ∧
    is_Some (materials s1 !! mt) ∧
    (tag s c "aurora_object_name" = None →
     tag s c "aurora_texture_name" = None → cleanup c s = Ok tt s).
Proof.
  intros Hact Hrun.
  destruct (execute_inv props s s1 c r Hact Hrun)
    as (t & co & Hclean & Hco & _ & ->).
  destruct (cleanup_props c s t Hclean) as [[cs Hcs] Hsame].
  eexists _, _, _. split_and!.
  - intros key. rewrite (tag_rebuilt props t c co key Hco).
    rewrite <- Hsame. unfold tag. rewrite Hco. reflexivity.
  - eexists. apply rebuilt_aurora.
  - eexists. apply rebuilt_texture.
  - eexists. apply rebuilt_material.
  - unfold tag. rewrite Hcs. cbn [mbind option_bind].
    by apply cleanup_untagged.
Qed.
Lemma C5_three_tags_witness :
  ∃ A T mt,
    (∀ key, tag Example.compiled_scene "AuroraCurve" key
            = if decide (key = "aurora_texture_name") then Some T
              else if decide (key = "aurora_object_name") then Some A
              else if decide (key = "aurora_material_name") then Some mt
              else tag Example.drawn_scene "AuroraCurve" key) ∧
    is_Some (objects Example.compiled_scene !! A) ∧
    is_Some (textures Example.compiled_scene !! T) ∧
    is_Some (materials Example.compiled_scene !! mt) ∧
    (tag Example.drawn_scene "AuroraCurve" "aurora_object_name" = None →
     tag Example.drawn_scene "AuroraCurve" "aurora_texture_name" = None →
     cleanup "AuroraCurve" Example.drawn_scene = Ok tt Example.drawn_scene).
Proof.
  apply (C5_three_tags_on_curve Example.small_props Example.drawn_scene
           Example.compiled_scene "AuroraCurve" FINISHED).
  - vm_compute. reflexivity.
  - vm_compute. reflexivity.
Defined.

(** C5, as the specification words it, fails on the scene of the examples:
    the run on the drawn path finishes, and the curve then carries the
    material tag besides the two tags of the teardown. *)
Lemma C5_two_tags_counterexample :
  execute Example.small_props Example.drawn_scene
    = Ok FINISHED Example.compiled_scene ∧
  tag Example.compiled_scene "AuroraCurve" "aurora_material_name"
    = Some "Aurora_Material" ∧
  ¬ Shape.two_tags_as_specified Example.compiled_scene "AuroraCurve".
Proof.
  split_and!.
  - vm_compute. reflexivity.
  - vm_compute. reflexivity.
  - intros (co & Hco & Hdom).
    assert (Hin : "aurora_material_name" ∈ dom (ob_props co)).
    { apply elem_of_dom. vm_compute in Hco. injection Hco as <-.
      eexists. vm_compute. reflexivity. }
    rewrite Hdom in Hin.
    apply elem_of_union in Hin as [Hin | Hin];
      apply elem_of_singleton in Hin; discriminate Hin.
Qed.

(** C4: the graph a run leaves in the material.  After a successful run
    the material the curve's tag names holds a node tree, the one
    [build_node_tree] returns, with exactly one output node and no cycle;
    every input of every node either has exactly one link, which comes
    from a declared output of a node of the tree, or has none and keeps
    the constant of its socket. *)
Theorem C4_one_output_no_cycle (props : Props) (s s1 : Host) (c : string)
    (r : OpResult) :
  active s = Some c →
  execute props s = Ok r s1 →
  ∃ mt mat tree previous,
    tag s1 c "aurora_material_name" = Some mt ∧
    materials s1 !! mt = Some mat ∧ mt_node_tree mat = Some tree ∧
    build_node_tree props previous = Ok aurora_handles tree ∧
    output_count tree = 1%nat ∧
    acyclic tree ∧
    ∀ n node i,
      nodes tree !! n = Some node → (i < length (nd_inputs node))%nat →
      wired tree n i ∨ unwired tree n i.
Proof.
  intros Hact Hrun.
  destruct (execute_inv props s s1 c r Hact Hrun)
    as (t & co & _ & Hco & _ & ->).
  eexists _, _, _, _. split_and!.
  - rewrite (tag_rebuilt props t c co _ Hco). reflexivity.
  - apply rebuilt_material.
  - reflexivity.
  - apply build_node_tree_spec.
  - apply one_output.
  - apply no_cycles.
  - apply inputs_wired_or_constant.
Qed.

Lemma C4_one_output_witness :
  ∃ mt mat tree previous,
    tag Example.compiled_scene "AuroraCurve" "aurora_material_name" = Some mt ∧
    materials Example.compiled_scene !! mt = Some mat ∧
    mt_node_tree mat = Some tree ∧
    build_node_tree Example.small_props previous = Ok aurora_handles tree ∧
    output_count tree = 1%nat ∧
    acyclic tree ∧
    ∀ n node i,
      nodes tree !! n = Some node → (i < length (nd_inputs node))%nat →
      wired tree n i ∨ unwired tree n i.
Proof.
  apply (C4_one_output_no_cycle Example.small_props Example.drawn_scene
           Example.compiled_scene "AuroraCurve" FINISHED).
  - vm_compute. reflexivity.
  - vm_compute. reflexivity.
Defined.

Lemma stretch_node_built (props : Props) :
  final_nodes props !! 9%nat = Some stretch_node.
Proof. destruct props as [h n c1 c2 es ns nd []]; vm_compute; reflexivity. Qed.

Lemma offset_node_final (props : Props) :
  final_nodes props !! 8%nat
  = Some (offset_node_at (if animate props then Vec 0 5 0 else vzero)).
Proof. destruct props as [h n c1 c2 es ns nd []]; vm_compute; reflexivity. Qed.

(** C8: the offset mapping.  The graph has two mapping nodes under
    different handles.  The one reserved for the animation is created with
    a zero Location (and unit Scale), and the stretch mapping with Scale
    (0.2, 10, 1).  The Generated output of the texture coordinates feeds
    the Vector input of the offset mapping, whose output feeds the Vector
    input of the stretch mapping, whose output feeds the Vector input of
    the noise texture.  In the finished tree the links and the stretch
    mapping are the same, and the Location of the offset mapping is zero
    unless the animation step ran. *)
Theorem C8_offset_mapping_precedes_stretch (props : Props) (t : NodeTree) :
  ∃ hs graph,
    create_graph props t = Ok hs graph ∧
    mapping_anim hs ≠ mapping_stretch hs ∧
    nodes graph !! mapping_anim hs = Some (offset_node_at vzero) ∧
    nodes graph !! mapping_stretch hs = Some stretch_node ∧
    nd_type <$> nodes graph !! tex_coord hs = Some ShaderNodeTexCoord ∧
    nd_type <$> nodes graph !! noise_tex hs = Some ShaderNodeTexNoise ∧
    link (tex_coord hs) 0 (mapping_anim hs) 0 ∈ links graph ∧
    link (mapping_anim hs) 0 (mapping_stretch hs) 0 ∈ links graph ∧
    link (mapping_stretch hs) 0 (noise_tex hs) 0 ∈ links graph ∧
    build_node_tree props t = Ok hs (aurora_tree props t) ∧
    links (aurora_tree props t) = links graph ∧
    nodes (aurora_tree props t) !! mapping_stretch hs = Some stretch_node ∧
    nodes (aurora_tree props t) !! mapping_anim hs
    = Some (offset_node_at (if animate props then Vec 0 5 0 else vzero)).
Proof.
  eexists _, _. split; [apply create_graph_spec|].
  cbn [nodes links mapping_anim mapping_stretch tex_coord noise_tex
       aurora_handles aurora_tree].
  split_and!.
  - done.
  - apply offset_node_created.
  - destruct props; vm_compute; reflexivity.
  - destruct props; vm_compute; reflexivity.
  - destruct props; vm_compute; reflexivity.
  - unfold aurora_links. set_solver.
  - unfold aurora_links. set_solver.
  - unfold aurora_links. set_solver.
  - apply build_node_tree_spec.
  - reflexivity.
  - apply stretch_node_built.
  - apply offset_node_final.
Qed.

(** The filter of line 356 never matches the path of the offset's
    F-curves, whose end is [.inputs[1].default_value]. *)
Lemma offset_path_not_location :
  endswith offset_path "['Location']" = false.
Proof. vm_compute. reflexivity. Qed.

Lemma fresh_tree_animation (props : Props) :
  fcurves_of (aurora_tree props default_node_tree)
  = (if animate props
     then [offset_fcurve 0 0 0; offset_fcurve 1 0 5; offset_fcurve 2 0 0]
     else []) ∧
  (if animate props then True
   else animation_data (aurora_tree props default_node_tree) = None).
Proof.
  destruct props as [h n c1 c2 es ns nd []]; split; vm_compute; done.
Qed.

(** C2: the animation of a first run.  On a curve without a material tag a
    successful run leaves, in the new material's tree: no animation data
    if [animate] is off; and if it is on, one F-curve per component of the
    offset mapping's Location, each with two keys, at frames 1 and 250,
    with values 0 and 0 (for x and z) or 0 and 5 (for y).  No F-curve has a
    modifier and every key has the interpolation of a new key, which is
    not LINEAR: the loop of lines 354-359 changes nothing. *)
Theorem C2_offset_keys_neither_linear_nor_cyclic (props : Props)
    (s s1 : Host) (c : string) (r : OpResult) :
  active s = Some c →
  tag s c "aurora_material_name" = None →
  execute props s = Ok r s1 →
  ∃ mt mat tree,
    tag s1 c "aurora_material_name" = Some mt ∧
    materials s1 !! mt = Some mat ∧ mt_node_tree mat = Some tree ∧
    fcurves_of tree
    = (if animate props
       then [offset_fcurve 0 0 0; offset_fcurve 1 0 5; offset_fcurve 2 0 0]
       else []) ∧
    (if animate props then True else animation_data tree = None) ∧
    Forall (λ fc, fc_modifiers fc = [] ∧
                  Forall (λ k, kf_interpolation k = BEZIER_CURVE
                               ∧ kf_interpolation k ≠ LINEAR)
                         (keyframe_points fc))
           (fcurves_of tree).
Proof.
  intros Hact Hnew Hrun.
  destruct (execute_inv props s s1 c r Hact Hrun)
    as (t & co & Hclean & Hco & _ & ->).
  destruct (cleanup_props c s t Hclean) as [_ Hsame].
  rewrite <- Hsame in Hnew. unfold tag in Hnew. rewrite Hco in Hnew.
  cbn [mbind option_bind] in Hnew.
  assert (previous_tree t (touch (plane_name t) (aurora_name t) co)
          = default_node_tree) as Hprev.
  { unfold previous_tree, reused_material. by rewrite touch_props, Hnew. }
  destruct (fresh_tree_animation props) as [Hfc Hnone].
  eexists _, _, _. split_and!.
  - rewrite (tag_rebuilt props t c co _ Hco). reflexivity.
  - apply rebuilt_material.
  - reflexivity.
  - by rewrite Hprev.
  - by rewrite Hprev.
  - rewrite Hprev, Hfc. destruct (animate props); repeat constructor; done.
Qed.

Lemma C2_offset_keys_witness :
  ∃ mt mat tree,
    tag Example.compiled_scene "AuroraCurve" "aurora_material_name" = Some mt ∧
    materials Example.compiled_scene !! mt = Some mat ∧
    mt_node_tree mat = Some tree ∧
    fcurves_of tree
    = (if animate Example.small_props
       then [offset_fcurve 0 0 0; offset_fcurve 1 0 5; offset_fcurve 2 0 0]
       else []) ∧
    (if animate Example.small_props then True
     else animation_data tree = None) ∧
    Forall (λ fc, fc_modifiers fc = [] ∧
                  Forall (λ k, kf_interpolation k = BEZIER_CURVE
                               ∧ kf_interpolation k ≠ LINEAR)
                         (keyframe_points fc))
           (fcurves_of tree).
Proof.
  apply (C2_offset_keys_neither_linear_nor_cyclic Example.small_props
           Example.drawn_scene Example.compiled_scene "AuroraCurve" FINISHED).
  - vm_compute. reflexivity.
  - vm_compute. reflexivity.
  - vm_compute. reflexivity.
Defined.

End CompileClaims.
Module ShapeFacts.
Import Ops Aurora Built Shape CompilerFacts.

(** The faces of a subdivided quad are the cells of its grid. *)
Lemma elem_of_subdivide_quad (cuts : nat) (q0 q : Quad) :
  q ∈ subdivide_quad cuts q0 ↔
  ∃ i j, (i < S cuts)%nat ∧ (j < S cuts)%nat ∧
    q = MkQuad (grid_point q0 (S cuts) i j) (grid_point q0 (S cuts) (S i) j)
               (grid_point q0 (S cuts) (S i) (S j))
               (grid_point q0 (S cuts) i (S j)).
Proof.
  unfold subdivide_quad. rewrite list_elem_of_In, in_flat_map. split.
  - intros (j & Hj & Hq). apply list_elem_of_In, list_elem_of_fmap in Hq.
    destruct Hq as (i & -> & Hi). apply elem_of_seq in Hi.
    apply in_seq in Hj. exists i, j. split_and!; [lia|lia|done].
  - intros (i & j & Hi & Hj & ->). exists j. split; [apply in_seq; lia|].
    apply list_elem_of_In, list_elem_of_fmap. exists i.
    split; [done|]. apply elem_of_seq. lia.
Qed.

Lemma length_subdivide_quad (cuts : nat) (q0 : Quad) :
  length (subdivide_quad cuts q0) = (S cuts * S cuts)%nat.
Proof.
  unfold subdivide_quad.
  rewrite (flat_map_constant_length (c := S cuts)).
  - by rewrite length_seq.
  - intros j _. by rewrite length_fmap, length_seq.
Qed.

(** The plane after the two resizes of lines 236-237. *)
Lemma resized_plane (h : Q) :
  ∃ q0,
    resized (Vec 1 (h / 2) 1) (resized (Vec 20 1 1) [unit_plane]) = [q0] ∧
    veq (qa q0) (Vec (-20) (- (h / 2)) 0) ∧
    veq (qb q0) (Vec 20 (- (h / 2)) 0) ∧
    veq (qc q0) (Vec 20 (h / 2) 0) ∧
    veq (qd q0) (Vec (-20) (h / 2) 0).
Proof.
  eexists. split; [reflexivity|].
  unfold veq.
  cbn [resized fmap list_fmap quad_map resize_about median flat_map corners
       vsum foldr vadd vscale vzero vx vy vz qa qb qc qd length app
       unit_plane Z.of_nat Pos.of_succ_nat Pos.succ inject_Z].
  split_and!; field.
Qed.

Lemma grid_point_rectangle (h : Q) (q0 : Quad) (n i j : nat) :
  veq (qa q0) (Vec (-20) (- (h / 2)) 0) →
  veq (qb q0) (Vec 20 (- (h / 2)) 0) →
  veq (qc q0) (Vec 20 (h / 2) 0) →
  veq (qd q0) (Vec (-20) (h / 2) 0) →
  veq (grid_point q0 n i j) (point h n i j).
Proof.
  unfold veq. cbn [vx vy vz].
  intros (Ha1 & Ha2 & Ha3) (Hb1 & Hb2 & Hb3) (Hc1 & Hc2 & Hc3)
         (Hd1 & Hd2 & Hd3).
  unfold grid_point, lerp, vadd, vscale, point. cbn [vx vy vz].
  rewrite Ha1, Ha2, Ha3, Hb1, Hb2, Hb3, Hc1, Hc2, Hc3, Hd1, Hd2, Hd3.
  generalize (inject_Z (Z.of_nat i) / inject_Z (Z.of_nat n)).
  generalize (inject_Z (Z.of_nat j) / inject_Z (Z.of_nat n)).
  intros v u. split_and!; field.
Qed.

(** C3: the base mesh.  For a number of cuts from 1 to 100, which the
    mesh operator takes as it is, [create_base_mesh] returns, in any
    store.  The new object is in object mode with a zero rotation, and its
    mesh records the quarter turn about x as applied to the geometry.
    Before that turn the faces are the cells of a uniform grid over the
    rectangle from (-20, -h/2) to (20, h/2) on the ground, 40 units long
    and h wide for the height h; the grid has n cells in each direction,
    n * n faces in all, where n is [subdivisions] plus one.  Coordinates
    are those of exact arithmetic. *)
Theorem C3_base_mesh_is_uniform_grid (props : Props) (s : Host) :
  (1 ≤ subdivisions props ≤ 100)%nat →
  ∃ A M o me s',
    create_base_mesh props s = Ok A s' ∧
    objects s' !! A = Some o ∧ ob_data o = Some M ∧
    ob_mode o = OBJECT ∧ ob_rotation_euler o = Vec 0 0 0 ∧
    meshes s' !! M = Some me ∧
    me_applied_rot_x me = [15708 # 10000] ∧
    length (me_faces me)
    = (S (subdivisions props) * S (subdivisions props))%nat ∧
    (∀ q, q ∈ me_faces me →
       ∃ i j, (i < S (subdivisions props))%nat ∧
              (j < S (subdivisions props))%nat ∧
              is_cell (aurora_height props) (S (subdivisions props)) i j q) ∧
    (∀ i j, (i < S (subdivisions props))%nat →
            (j < S (subdivisions props))%nat →
       ∃ q, q ∈ me_faces me ∧
            is_cell (aurora_height props) (S (subdivisions props)) i j q).
Proof.
  intros Hcuts.
  assert (clamp_cuts (subdivisions props) = subdivisions props) as Hclamp
    by (unfold clamp_cuts; lia).
  eexists _, _, _, _, _. split; [apply create_base_mesh_spec|].
  cbn [objects meshes host_with].
  split; [apply lookup_insert_eq|].
  split; [reflexivity|]. split; [reflexivity|]. split; [reflexivity|].
  split; [apply lookup_insert_eq|].
  split; [reflexivity|].
  cbn [me_faces base_mesh]. unfold aurora_faces. rewrite Hclamp.
  destruct (resized_plane (aurora_height props))
    as (q0 & -> & Ha & Hb & Hc & Hd).
  cbn [flat_map]. rewrite app_nil_r.
  split; [apply length_subdivide_quad|]. split.
  - intros q Hq. apply elem_of_subdivide_quad in Hq
      as (i & j & Hi & Hj & ->).
    exists i, j. split; [done|]. split; [done|].
    unfold is_cell. cbn [qa qb qc qd].
    split_and!; by apply grid_point_rectangle.
  - intros i j Hi Hj. eexists. split.
    + apply elem_of_subdivide_quad. by exists i, j.
    + unfold is_cell. cbn [qa qb qc qd].
      split_and!; by apply grid_point_rectangle.
Qed.

Lemma C3_base_mesh_witness :
  ∃ A M o me s',
    create_base_mesh Example.small_props Example.drawn_scene = Ok A s' ∧
    objects s' !! A = Some o ∧ ob_data o = Some M ∧
    ob_mode o = OBJECT ∧ ob_rotation_euler o = Vec 0 0 0 ∧
    meshes s' !! M = Some me ∧
    me_applied_rot_x me = [15708 # 10000] ∧
    length (me_faces me)
    = (S (subdivisions Example.small_props)
       * S (subdivisions Example.small_props))%nat ∧
    (∀ q, q ∈ me_faces me →
       ∃ i j, (i < S (subdivisions Example.small_props))%nat ∧
              (j < S (subdivisions Example.small_props))%nat ∧
              is_cell (aurora_height Example.small_props)
                      (S (subdivisions Example.small_props)) i j q) ∧
    (∀ i j, (i < S (subdivisions Example.small_props))%nat →
            (j < S (subdivisions Example.small_props))%nat →
       ∃ q, q ∈ me_faces me ∧
            is_cell (aurora_height Example.small_props)
                    (S (subdivisions Example.small_props)) i j q).
Proof.
  apply (C3_base_mesh_is_uniform_grid Example.small_props
           Example.drawn_scene).
  cbn. lia.
Defined.

(** C3, as the specification words it, fails for height 5 and two cuts on
    the drawn path, where the operator runs and finishes: the mesh of the
    aurora, which is the mesh [create_base_mesh] builds there, is 40 long
    and 5 wide, in three segments each way. *)
Lemma C3_scaffold_counterexample :
  valid Example.small_props ∧
  poll Example.drawn_scene = true ∧
  execute Example.small_props Example.drawn_scene
    = Ok FINISHED Example.compiled_scene ∧
  me_faces <$> meshes Example.compiled_scene !! "Plane"
    = Some (aurora_faces Example.small_props) ∧
  me_faces <$>
    meshes (store_of (create_base_mesh Example.small_props
                        Example.drawn_scene)) !! "Plane"
    = Some (aurora_faces Example.small_props) ∧
  span vx (aurora_faces Example.small_props) = 40 ∧
  span vy (aurora_faces Example.small_props) = 5 ∧
  segments vx (aurora_faces Example.small_props) = 3%nat ∧
  segments vy (aurora_faces Example.small_props) = 3%nat ∧
  length (aurora_faces Example.small_props) = 9%nat ∧
  ¬ scaffold_as_specified Example.small_props
      (aurora_faces Example.small_props).
Proof.
  split_and!; try (vm_compute; reflexivity).
  - unfold valid. cbn. split_and!; try lia; by vm_compute.
  - intros (H & _). vm_compute in H. discriminate H.
Qed.

End ShapeFacts.
Module CaptureFacts.
Import DrawPath Session DrawPathFacts.

(** X1: [invoke] outside a 3D view.  Where the active space is not a 3D
    view, a session ends at once in CANCELLED, whatever events follow: no
    operator state is made, the only change to the host is the warning in
    the report log, and no draw handler is added. *)
Theorem session_outside_3d_view (s0 : Host) (events : list (View * Event)) :
  space_type s0 ≠ VIEW_3D →
  session events s0
  = Ok (CANCELLED, None)
       (add_report (WARNING, "Active space must be a 3D View.") s0) ∧
  draw_handlers (add_report (WARNING, "Active space must be a 3D View.") s0)
  = draw_handlers s0.
Proof.
  intros Hsp. split; [|done]. unfold session, invoke. unfold bind at 1.
  unfold bind at 1, gets at 1.
  destruct (space_type s0); [done| | |]; reflexivity.
Qed.

Lemma session_outside_3d_view_witness :
  session [(Example.top_view, Example.click 0 0)] Example.text_editor_host
  = Ok (CANCELLED, None)
       (add_report (WARNING, "Active space must be a 3D View.")
          Example.text_editor_host) ∧
  draw_handlers (add_report (WARNING, "Active space must be a 3D View.")
                   Example.text_editor_host)
  = draw_handlers Example.text_editor_host.
Proof.
  apply (session_outside_3d_view Example.text_editor_host
           [(Example.top_view, Example.click 0 0)]).
  vm_compute. discriminate.
Defined.

(** One event of a running session: the points grow by the event's hit. *)
Lemma modal_tracks (s0 s : Host) (self : Self) (view : View) (e : Event) :
  ends e = false →
  capturing s0 self s →
  ∃ r self' s',
    modal self view e s = Ok (r, self') s' ∧
    (r = RUNNING_MODAL ∨ r = PASS_THROUGH) ∧
    points self' = points self ++ option_list (hit (view, e)) ∧
    capturing s0 self' s'.
Proof.
  intros Hends Hinv. unfold ends in Hends. unfold modal, hit. cbn [fst snd].
  assert (Hredraw : capturing s0 self (set_redraws S s))
    by (by apply capturing_redraw).
  destruct (ev_type e) eqn:Ht; try discriminate;
    try (run_prog; eexists _, _, _; split; [reflexivity|];
         cbn [option_list]; rewrite app_nil_r; by auto).
  destruct (ev_value e) eqn:Hv;
    try (run_prog; eexists _, _, _; split; [reflexivity|];
         cbn [option_list]; rewrite app_nil_r; by auto).
  run_prog.
  destruct (ground_hit _ _) as [location|];
    [|eexists _, _, _; split; [reflexivity|];
      cbn [option_list]; rewrite app_nil_r; by auto].
  cbn [option_list].
  destruct (curve_ob self) as [ob|] eqn:Hob.
  - destruct (update_curve_next s0 _ self ob location Hob Hredraw)
      as (self' & s' & -> & Hp & Hh & _ & Hinv').
    eexists _, _, _; split; [reflexivity|]; by auto.
  - destruct self as [pts c h]. cbn [curve_ob] in Hob. subst c.
    assert (pts = []) as ->.
    { destruct Hinv as (_&_&_&_&_&_&Hc). cbn [curve_ob] in Hc. by destruct Hc. }
    unfold set_points. cbn [points curve_ob _handle app].
    destruct (update_curve_first s0 _ h location Hredraw)
      as (self' & s' & -> & Hp & Hh & _ & Hinv').
    eexists _, _, _; split; [reflexivity|]; by auto.
Qed.

Lemma run_modal_tracks (s0 : Host) (events : list (View * Event)) :
  ∀ self s,
    Forall (λ ve, ends ve.2 = false) events →
    capturing s0 self s →
    ∃ self' s',
      capturing s0 self' s' ∧
      points self' = points self ++ hits events ∧
      ∀ rest, run_modal self (events ++ rest) s = run_modal self' rest s'.
Proof.
  induction events as [|[view e] events IH]; intros self s Hev Hinv.
  - exists self, s. cbn. by rewrite app_nil_r.
  - apply Forall_cons in Hev as [He Hev]. cbn [snd] in He.
    destruct (modal_tracks s0 s self view e He Hinv)
      as (r & self1 & s1 & Hrun & Hr & Hp1 & Hinv1).
    destruct (IH self1 s1 Hev Hinv1) as (self' & s' & Hinv' & Hp' & Hrest).
    exists self', s'. split; [done|]. split.
    + rewrite Hp', Hp1, <- app_assoc. f_equal. unfold hits. cbn [omap list_omap].
      by destruct (hit (view, e)).
    + intros rest. cbn [app run_modal]. unfold bind at 1. rewrite Hrun.
      destruct Hr as [-> | ->]; apply Hrest.
Qed.




(** X4: cancelling a session with at least one hit.  The curve object
    of the session is removed, so the objects are those from before the
    session (with no modifier pointing at the removed one) and the
    collection does not hold it; its curve data stays in the file, with
    the captured points and no user: [cancel] never removes it. *)
Theorem cancelled_session_orphans_curve_data (s0 : Host)
    (events : list (View * Event)) (view : View) (esc : Event) :
  space_type s0 = VIEW_3D →
  Forall (λ ve, ends ve.2 = false) events →
  ev_type esc = ESC →
  hits events ≠ [] →
  ∃ self s' ob cd,
    session (events ++ [(view, esc)]) s0 = Ok (CANCELLED, Some self) s' ∧
    curve_ob self = Some ob ∧
    objects s0 !! ob = None ∧ curves s0 !! cd = None ∧
    objects s' = Built.forget ob <$> objects s0 ∧
    curves s' = <[cd := path_curve (hits events) 0]> (curves s0) ∧
    (ob ∉ collection s').
Proof.
  intros Hsp Hev Hesc Hhits.
  destruct (invoke_starts s0 Hsp) as (self0 & s1 & Hinvoke & Hp0 & _ & _ & Hinv).
  destruct (run_modal_tracks s0 events self0 s1 Hev Hinv)
    as (self & s & Hcap & Hp & Hrest).
  rewrite Hp0 in Hp. cbn [app] in Hp.
  unfold session. unfold bind at 1. rewrite Hinvoke.
  unfold bind at 1. rewrite Hrest. cbn [run_modal].
  unfold bind at 1. unfold modal. rewrite Hesc. unfold cancel.
  destruct Hcap as (Hh & Hd & Hm & Ht & Hmat & Ha & Hcase).
  destruct (curve_ob self) as [ob|] eqn:Hob.
  2:{ destruct Hcase as (Hnil & _). congruence. }
  destruct Hcase as (cd & Ho0 & Hc0 & Ho & Hc & Hcol).
  run_prog. rewrite Hd. rewrite decide_True by set_solver.
  run_prog. rewrite Ho, lookup_insert_eq. run_prog.
  exists self. eexists _, ob, cd. split; [reflexivity|]. run_prog.
  rewrite Ho, Hc, Hcol, Hp. split_and!; try done.
  - rewrite delete_insert_eq, delete_id by done. reflexivity.
  - by rewrite alter_insert_eq.
  - rewrite list_elem_of_filter. naive_solver.
Qed.

Lemma cancelled_session_witness :
  ∃ self s' ob cd,
    session ([(Example.top_view, Example.click 0 0)]
             ++ [(Example.top_view, Example.key ESC)]) Example.empty_host
      = Ok (CANCELLED, Some self) s' ∧
    curve_ob self = Some ob ∧
    objects Example.empty_host !! ob = None ∧
    curves Example.empty_host !! cd = None ∧
    objects s' = Built.forget ob <$> objects Example.empty_host ∧
    curves s'
    = <[cd := path_curve (hits [(Example.top_view, Example.click 0 0)]) 0]>
        (curves Example.empty_host) ∧
    (ob ∉ collection s').
Proof.
  apply (cancelled_session_orphans_curve_data Example.empty_host
           [(Example.top_view, Example.click 0 0)]
           Example.top_view (Example.key ESC)).
  - reflexivity.
  - repeat constructor.
  - reflexivity.
  - vm_compute. discriminate.
Defined.
End CaptureFacts.
Module RunFacts.
Import Tree Ops Aurora Graph Built CompilerFacts CleanupFacts GraphFacts.
Import CompileClaims.

Lemma objects_remove_frame name s s2 :
  objects_remove name s = Ok tt s2 →
  materials s2 = materials s ∧
  ∀ cd, cu_splines <$> curves s2 !! cd = cu_splines <$> curves s !! cd.
Proof.
  unfold objects_remove, the_object, bind, gets, from_some, ret, raise, modify.
  destruct (objects s !! name) as [o|]; [|done]. intros [= <-].
  split; [done|]. intros cd. cbn [curves set_textures set_meshes set_curves
    data_user set_active set_collection set_objects].
  destruct (ob_data o) as [d|]; [|done]. destruct (ob_type o); try done.
  destruct (decide (d = cd)) as [->|Hne].
  - rewrite lookup_alter_eq. by destruct (curves s !! cd).
  - by rewrite lookup_alter_ne.
Qed.

(** What the teardown leaves alone: the materials and the splines of
    every curve. *)
Lemma cleanup_frame c s t :
  cleanup c s = Ok tt t →
  materials t = materials s ∧
  ∀ cd, cu_splines <$> curves t !! cd = cu_splines <$> curves s !! cd.
Proof.
  unfold cleanup. unfold bind at 1.
  destruct (get_prop c "aurora_object_name" s) as [v s'|] eqn:Hg; [|done].
  apply get_prop_inv in Hg as (-> & co & Hco & ->).
  unfold bind at 1.
  match goal with |- context [match ?X s with _ => _ end] =>
    destruct (X s) as [[] s2|] eqn:H1 end; [|done].
  assert (materials s2 = materials s ∧
          ∀ cd, cu_splines <$> curves s2 !! cd
                = cu_splines <$> curves s !! cd) as [Hm2 Hc2].
  { destruct (ob_props co !! "aurora_object_name") as [A|];
      [|by injection H1 as <-].
    unfold bind at 1, gets at 1 in H1.
    destruct (objects s !! A) as [o|] eqn:HA; [|by injection H1 as <-].
    unfold bind at 1 in H1.
    destruct (objects_remove A s) as [[] s3|] eqn:Hrm; [|done].
    apply objects_remove_frame in Hrm as [Hm3 Hc3].
    destruct (ob_data o) as [m|]; [|by injection H1 as <-].
    unfold bind at 1 in H1.
    destruct (data_users (ob_type o) m s3) as [u s4|] eqn:Hu; [|done].
    apply data_users_inv in Hu as ->.
    destruct u; [|by injection H1 as <-].
    unfold meshes_remove_data, meshes_remove, modify, raise in H1.
    destruct (ob_type o); [|done|done]. by injection H1 as <-. }
  clear H1. unfold bind at 1.
  destruct (get_prop c "aurora_texture_name" s2) as [v s'|] eqn:Hg; [|done].
  apply get_prop_inv in Hg as (-> & co2 & Hco2 & ->).
  intros Hrest.
  assert (materials t = materials s2 ∧ curves t = curves s2) as [-> ->].
  { destruct (ob_props co2 !! "aurora_texture_name") as [T|];
      [|by injection Hrest as <-].
    unfold bind at 1, gets at 1 in Hrest.
    destruct (textures s2 !! T) as [tx|]; [|by injection Hrest as <-].
    destruct (tx_users tx); by injection Hrest as <-. }
  done.
Qed.

(** X7: a run never edits a path.  After a successful run every curve
    data block has the splines it had, and a block is in the file after
    the run exactly if it was before. *)
Theorem run_keeps_curve_geometry (props : Props) (s s1 : Host)
    (c cd : string) (r : OpResult) :
  active s = Some c →
  execute props s = Ok r s1 →
  cu_splines <$> curves s1 !! cd = cu_splines <$> curves s !! cd.
Proof.
  intros Hact Hrun.
  destruct (execute_inv props s s1 c r Hact Hrun)
    as (t & co & Hclean & Hco & _ & ->).
  destruct (cleanup_frame c s t Hclean) as [_ Hc]. apply Hc.
Qed.

Lemma run_keeps_curve_geometry_witness :
  cu_splines <$> curves Example.compiled_scene !! "AuroraPath"
  = cu_splines <$> curves Example.drawn_scene !! "AuroraPath".
Proof.
  apply (run_keeps_curve_geometry Example.small_props Example.drawn_scene
           Example.compiled_scene "AuroraCurve" "AuroraPath" FINISHED).
  - vm_compute. reflexivity.
  - vm_compute. reflexivity.
Defined.

(** The teardown of a curve whose object tag is absent, or names no
    object of the file, removes no object. *)
Lemma cleanup_without_object c s co :
  objects s !! c = Some co →
  (∀ A, ob_props co !! "aurora_object_name" = Some A →
        objects s !! A = None) →
  ∃ t, cleanup c s = Ok tt t ∧ objects t = objects s ∧
       meshes t = meshes s ∧ materials t = materials s.
Proof.
  intros Hco Htag.
  unfold cleanup. unfold bind at 1.
  unfold get_prop at 1, the_object, bind, gets, from_some, ret.
  rewrite Hco. cbv beta iota.
  destruct (ob_props co !! "aurora_object_name") as [A|] eqn:HA;
    [rewrite (Htag A eq_refl)|]; cbv beta iota;
    unfold get_prop, the_object, bind, gets, from_some, ret;
    rewrite Hco; cbv beta iota;
    (destruct (ob_props co !! "aurora_texture_name") as [T|]; [|by eexists]);
    (destruct (textures s !! T) as [tx|]; [|by eexists]);
    destruct (tx_users tx); by eexists.
Qed.

(** X5: a first run finishes.  If the active object is a curve whose
    object tag is absent, or names no object of the file, calling the
    operator returns FINISHED, whatever else the file holds: one object,
    under a name new to the file, and one mesh are added, the new object
    is the active one, and the last report is the success message. *)
Theorem first_run_finishes (props : Props) (s : Host) (c : string)
    (co : Object) :
  active s = Some c →
  objects s !! c = Some co →
  ob_type co = CURVE →
  (∀ A, ob_props co !! "aurora_object_name" = Some A →
        objects s !! A = None) →
  ∃ s1,
    create_aurora props s = Ok FINISHED s1 ∧
    (aurora_name s ∉ dom (objects s)) ∧
    active s1 = Some (aurora_name s) ∧
    dom (objects s1) = {[aurora_name s]} ∪ dom (objects s) ∧
    dom (meshes s1) = {[mesh_name s]} ∪ dom (meshes s) ∧
    last (reports s1) = Some (INFO, "Aurora created/updated successfully!").
Proof.
  intros Hact Hco Hty Htag.
  destruct (cleanup_without_object c s co Hco Htag)
    as (t & Hclean & Hobs & Hmes & Hmats).
  assert (Hcot : objects t !! c = Some co) by (by rewrite Hobs).
  exists (rebuilt props c co t). split_and!.
  - unfold create_aurora, bind at 1, gets at 1, poll.
    rewrite Hact, Hco, bool_decide_eq_true_2 by done.
    unfold execute. unfold bind at 1.
    unfold active_object at 1, bind, gets, from_some. rewrite Hact.
    unfold ret. rewrite Hclean. by apply rebuild_spec.
  - apply NamesFacts.unique_name_fresh.
  - unfold rebuilt, aurora_name. cbn [active host_with]. by rewrite Hobs.
  - rewrite (rebuilt_dom_objects props t c co Hcot).
    unfold aurora_name. by rewrite Hobs.
  - rewrite rebuilt_dom_meshes. unfold mesh_name. by rewrite Hmes.
  - unfold rebuilt. cbn [reports host_with]. by rewrite last_snoc.
Qed.

Lemma first_run_finishes_witness :
  ∃ s1,
    create_aurora Example.small_props Example.drawn_scene = Ok FINISHED s1 ∧
    (aurora_name Example.drawn_scene ∉ dom (objects Example.drawn_scene)) ∧
    active s1 = Some (aurora_name Example.drawn_scene) ∧
    dom (objects s1)
    = {[aurora_name Example.drawn_scene]}
      ∪ dom (objects Example.drawn_scene) ∧
    dom (meshes s1)
    = {[mesh_name Example.drawn_scene]} ∪ dom (meshes Example.drawn_scene) ∧
    last (reports s1) = Some (INFO, "Aurora created/updated successfully!").
Proof.
  apply (first_run_finishes Example.small_props Example.drawn_scene
           "AuroraCurve"
           (ob_set_select true (new_object CURVE (Some "AuroraPath")))).
  - vm_compute. reflexivity.
  - vm_compute. reflexivity.
  - reflexivity.
  - intros A HA. vm_compute in HA. discriminate HA.
Defined.

(** X8: the selection after a run.  A successful run returns FINISHED;
    the object its tag names is not the curve, is the active object, and
    is the one and only selected object of the file; the last report is
    the success message. *)
Theorem run_selects_the_aurora (props : Props) (s s1 : Host) (c : string)
    (r : OpResult) :
  active s = Some c →
  execute props s = Ok r s1 →
  ∃ A,
    r = FINISHED ∧
    tag s1 c "aurora_object_name" = Some A ∧ A ≠ c ∧
    active s1 = Some A ∧
    (∀ name o, objects s1 !! name = Some o →
               (ob_select o = true ↔ name = A)) ∧
    last (reports s1) = Some (INFO, "Aurora created/updated successfully!").
Proof.
  intros Hact Hrun.
  destruct (execute_inv props s s1 c r Hact Hrun)
    as (t & co & Hclean & Hco & -> & ->).
  pose proof (aurora_is_new t c co Hco) as Hne.
  exists (aurora_name t). split_and!; try done.
  - rewrite (tag_rebuilt props t c co _ Hco). done.
  - intros name o. unfold rebuilt. cbn [objects host_with].
    destruct (decide (name = aurora_name t)) as [->|HnA].
    { rewrite lookup_insert_eq. intros [= <-]. done. }
    rewrite lookup_insert_ne by done.
    destruct (decide (name = c)) as [->|Hnc].
    { rewrite lookup_insert_eq. intros [= <-]. done. }
    rewrite lookup_insert_ne by done. rewrite lookup_fmap.
    destruct (objects t !! name) as [o'|]; [|done].
    intros [= <-]. done.
  - unfold rebuilt. cbn [reports host_with]. by rewrite last_snoc.
Qed.

Lemma run_selects_the_aurora_witness :
  ∃ A,
    FINISHED = FINISHED ∧
    tag Example.compiled_scene "AuroraCurve" "aurora_object_name" = Some A ∧
    A ≠ "AuroraCurve" ∧
    active Example.compiled_scene = Some A ∧
    (∀ name o, objects Example.compiled_scene !! name = Some o →
               (ob_select o = true ↔ name = A)) ∧
    last (reports Example.compiled_scene)
    = Some (INFO, "Aurora created/updated successfully!").
Proof.
  apply (run_selects_the_aurora Example.small_props Example.drawn_scene
           Example.compiled_scene "AuroraCurve" FINISHED).
  - vm_compute. reflexivity.
  - vm_compute. reflexivity.
Defined.

(** X9: the rig of the aurora.  After a successful run the three tags
    name an object, a texture and a material with these settings: the
    object is a mesh object in the collection with two modifiers, in this
    order, FollowCurve (a curve modifier on the curve) and Displacement
    (strength 0.7 along Z through the texture); the texture is a clouds
    texture of noise scale 0.5; the mesh has one user and one material
    slot, holding the material; the material uses nodes and blends. *)
Theorem run_rigs_the_aurora (props : Props) (s s1 : Host) (c : string)
    (r : OpResult) :
  active s = Some c →
  execute props s = Ok r s1 →
  ∃ A M T mt o me mat,
    tag s1 c "aurora_object_name" = Some A ∧
    tag s1 c "aurora_texture_name" = Some T ∧
    tag s1 c "aurora_material_name" = Some mt ∧
    objects s1 !! A = Some o ∧
    ob_type o = MESH ∧ ob_data o = Some M ∧
    ob_modifiers o = [follow_curve c; displacement T] ∧
    textures s1 !! T = Some displace_texture ∧
    meshes s1 !! M = Some me ∧
    me_materials me = [mt] ∧ me_users me = 1%nat ∧
    materials s1 !! mt = Some mat ∧
    mt_use_nodes mat = true ∧ mt_blend_method mat = BLEND ∧
    (A ∈ collection s1).
Proof.
  intros Hact Hrun.
  destruct (execute_inv props s s1 c r Hact Hrun)
    as (t & co & Hclean & Hco & _ & ->).
  eexists _, _, _, _, _, _, _. split_and!.
  - rewrite (tag_rebuilt props t c co _ Hco). reflexivity.
  - rewrite (tag_rebuilt props t c co _ Hco). reflexivity.
  - rewrite (tag_rebuilt props t c co _ Hco). reflexivity.
  - apply rebuilt_aurora.
  - reflexivity.
  - reflexivity.
  - reflexivity.
  - apply rebuilt_texture.
  - apply rebuilt_mesh.
  - reflexivity.
  - reflexivity.
  - apply rebuilt_material.
  - reflexivity.
  - reflexivity.
  - unfold rebuilt. cbn [collection host_with]. rewrite fmap_app.
    apply elem_of_app. right. cbn. rewrite decide_True by done.
    apply list_elem_of_singleton. done.
Qed.
Lemma run_rigs_the_aurora_witness :
  ∃ A M T mt o me mat,
    tag Example.compiled_scene "AuroraCurve" "aurora_object_name" = Some A ∧
    tag Example.compiled_scene "AuroraCurve" "aurora_texture_name" = Some T ∧
    tag Example.compiled_scene "AuroraCurve" "aurora_material_name"
      = Some mt ∧
    objects Example.compiled_scene !! A = Some o ∧
    ob_type o = MESH ∧ ob_data o = Some M ∧
    ob_modifiers o = [follow_curve "AuroraCurve"; displacement T] ∧
    textures Example.compiled_scene !! T = Some displace_texture ∧
    meshes Example.compiled_scene !! M = Some me ∧
    me_materials me = [mt] ∧ me_users me = 1%nat ∧
    materials Example.compiled_scene !! mt = Some mat ∧
    mt_use_nodes mat = true ∧ mt_blend_method mat = BLEND ∧
    (A ∈ collection Example.compiled_scene).
Proof.
  apply (run_rigs_the_aurora Example.small_props Example.drawn_scene
           Example.compiled_scene "AuroraCurve" FINISHED).
  - vm_compute. reflexivity.
  - vm_compute. reflexivity.
Defined.

End RunFacts.
Module TagFacts.
Import Tree Ops Aurora Graph Built CompilerFacts CleanupFacts GraphFacts.
Import CompileClaims RunFacts.

(** X6: the teardown trusts the tag.  If the object tag names a curve
    object whose curve data has no other user (the curve itself, say), the
    run removes that object and then raises TypeError, because the data it
    hands to [meshes.remove] is not a mesh: the failure leaves the object
    deleted. *)
Theorem tagged_curve_aborts_run (props : Props) (s : Host) (c A d : string)
    (co o : Object) (cu : Curve) :
  active s = Some c →
  objects s !! c = Some co →
  ob_props co !! "aurora_object_name" = Some A →
  objects s !! A = Some o →
  ob_type o = CURVE → ob_data o = Some d →
  curves s !! d = Some cu → cu_users cu = 1%nat →
  ∃ s',
    execute props s = Raise TypeError s' ∧
    objects s' !! A = None ∧
    dom (objects s') = dom (objects s) ∖ {[A]} ∧
    meshes s' = meshes s.
Proof.
  intros Hact Hco Htag HA Hty Hd Hcu Hu.
  unfold execute, cleanup, active_object, get_prop, objects_remove,
    the_object, bind, gets, from_some, ret, modify.
  rewrite Hact. cbv beta iota. rewrite Hco. cbv beta iota.
  rewrite Htag. cbv beta iota. rewrite HA. cbv beta iota.
  rewrite Hd, Hty. cbv beta iota. rewrite ?HA. cbv beta iota.
  rewrite ?Hd, ?Hty. cbv beta iota.
  unfold data_users, bind, gets, from_some, ret.
  cbn [curves set_textures set_meshes set_curves data_user set_active
       set_collection set_objects].
  rewrite lookup_alter_eq, Hcu. cbn [fmap option_fmap option_map].
  cbn [cu_users cu_set_users]. rewrite Hu. cbn [Nat.pred].
  unfold meshes_remove_data, raise.
  eexists. split; [reflexivity|].
  cbn [objects meshes set_textures set_meshes set_curves data_user set_active
       set_collection set_objects].
  split_and!.
  - by rewrite lookup_fmap, lookup_delete_eq.
  - by rewrite dom_fmap_L, dom_delete_L.
  - done.
Qed.

Lemma tagged_curve_aborts_run_witness :
  ∃ s',
    execute Example.small_props Example.self_tagged_scene
      = Raise TypeError s' ∧
    objects s' !! "AuroraCurve" = None ∧
    dom (objects s')
    = dom (objects Example.self_tagged_scene) ∖ {["AuroraCurve"]} ∧
    meshes s' = meshes Example.self_tagged_scene.
Proof.
  apply (tagged_curve_aborts_run Example.small_props
           Example.self_tagged_scene "AuroraCurve" "AuroraCurve" "AuroraPath"
           (ob_set_props <["aurora_object_name" := "AuroraCurve"]>
              (ob_set_select true (new_object CURVE (Some "AuroraPath"))))
           (ob_set_props <["aurora_object_name" := "AuroraCurve"]>
              (ob_set_select true (new_object CURVE (Some "AuroraPath"))))
           (Session.path_curve [Vec 0 0 0; Vec 5 0 0] 1)).
  - vm_compute. reflexivity.
  - vm_compute. reflexivity.
  - vm_compute. reflexivity.
  - vm_compute. reflexivity.
  - reflexivity.
  - reflexivity.
  - vm_compute. reflexivity.
  - reflexivity.
Defined.
(** X10: the material tag.  On a curve whose material tag names a
    material of the file, a successful run keeps the tag and creates no
    material; if the tag names no material of the file, the run creates
    one under a name new to the file and writes that name to the tag. *)
Theorem run_reuses_tagged_material (props : Props) (s s1 : Host)
    (c m : string) (r : OpResult) :
  active s = Some c →
  tag s c "aurora_material_name" = Some m →
  execute props s = Ok r s1 →
  tag s1 c "aurora_material_name"
  = Some (match materials s !! m with
          | Some _ => m
          | None => Names.unique_name "Aurora_Material" (dom (materials s))
          end) ∧
  dom (materials s1)
  = match materials s !! m with
    | Some _ => dom (materials s)
    | None => {[Names.unique_name "Aurora_Material" (dom (materials s))]}
              ∪ dom (materials s)
    end ∧
  (Names.unique_name "Aurora_Material" (dom (materials s))
     ∉ dom (materials s)).
Proof.
  intros Hact Htag Hrun.
  destruct (execute_inv props s s1 c r Hact Hrun)
    as (t & co & Hclean & Hco & _ & ->).
  destruct (cleanup_props c s t Hclean) as [_ Hsame].
  destruct (cleanup_frame c s t Hclean) as [Hmats _].
  rewrite <- Hsame in Htag. unfold tag in Htag. rewrite Hco in Htag.
  cbn [mbind option_bind] in Htag.
  assert (material_name t (touch (plane_name t) (aurora_name t) co)
          = match materials s !! m with
            | Some _ => m
            | None => Names.unique_name "Aurora_Material" (dom (materials s))
            end) as Hname.
  { unfold material_name, reused_material.
    rewrite touch_props, Htag, Hmats. by destruct (materials s !! m). }
  split_and!.
  - rewrite (tag_rebuilt props t c co _ Hco). cbn. by rewrite Hname.
  - rewrite rebuilt_dom_materials, Hname, Hmats.
    destruct (materials s !! m) as [mat|] eqn:Hm; [|done].
    assert (m ∈ dom (materials s)) by (apply elem_of_dom; eauto).
    set_solver.
  - apply NamesFacts.unique_name_fresh.
Qed.

Lemma run_reuses_tagged_material_witness :
  tag (store_of (execute Example.still_props Example.reselected_scene))
      "AuroraCurve" "aurora_material_name"
  = Some (match materials Example.reselected_scene !! "Aurora_Material" with
          | Some _ => "Aurora_Material"
          | None => Names.unique_name "Aurora_Material"
                      (dom (materials Example.reselected_scene))
          end) ∧
  dom (materials
         (store_of (execute Example.still_props Example.reselected_scene)))
  = match materials Example.reselected_scene !! "Aurora_Material" with
    | Some _ => dom (materials Example.reselected_scene)
    | None => {[Names.unique_name "Aurora_Material"
                  (dom (materials Example.reselected_scene))]}
              ∪ dom (materials Example.reselected_scene)
    end ∧
  (Names.unique_name "Aurora_Material"
     (dom (materials Example.reselected_scene))
     ∉ dom (materials Example.reselected_scene)).
Proof.
  apply (run_reuses_tagged_material Example.still_props
           Example.reselected_scene
           (store_of (execute Example.still_props Example.reselected_scene))
           "AuroraCurve" "Aurora_Material" FINISHED).
  - vm_compute. reflexivity.
  - vm_compute. reflexivity.
  - vm_compute. reflexivity.
Defined.

End TagFacts.
Module GraphSettings.
Import Tree Ops Aurora Graph Built CompilerFacts GraphFacts.

(** X11: the properties in the graph.  In the tree [build_node_tree]
    returns, the main ramp runs from [color1] at 0 to [color2] at 1; the
    falloff ramp from white at 0 to black at 1; the fade ramp has three
    stops, white at 0 and black at 0.3 and at 1; the two math nodes
    multiply and take the maximum, the second input of the first being
    [emission_strength]; and the noise texture has Scale [noise_scale],
    Detail 5, Roughness 0.6 and Distortion [noise_distortion]. *)
Theorem properties_reach_the_graph (props : Props) (t : NodeTree) :
  ∃ hs tree,
    build_node_tree props t = Ok hs tree ∧
    nd_color_ramp <$> nodes tree !! color_ramp_main hs
    = Some (Some [ {| re_position := 0; re_color := color1 props |};
                   {| re_position := 1; re_color := color2 props |} ]) ∧
    nd_color_ramp <$> nodes tree !! emission_falloff_ramp hs
    = Some (Some [ {| re_position := 0; re_color := white |};
                   {| re_position := 1; re_color := black |} ]) ∧
    nd_color_ramp <$> nodes tree !! vertical_fade_ramp hs
    = Some (Some [ {| re_position := 0; re_color := white |};
                   {| re_position := 3 # 10; re_color := black |};
                   {| re_position := 1; re_color := black |} ]) ∧
    nd_operation <$> nodes tree !! multiply_emission hs
    = Some (Some MULTIPLY) ∧
    (λ n, sk_default <$> nd_inputs n !! 1%nat)
      <$> nodes tree !! multiply_emission hs
    = Some (Some (VFloat (emission_strength props))) ∧
    nd_operation <$> nodes tree !! combine_fade_and_noise hs
    = Some (Some MAXIMUM) ∧
    (λ n, sk_default <$> nd_inputs n) <$> nodes tree !! noise_tex hs
    = Some [ VVector vzero; VFloat 0; VFloat (noise_scale props); VFloat 5;
             VFloat (3 # 5); VFloat 2; VFloat (noise_distortion props) ].
Proof.
  eexists _, _. split; [apply build_node_tree_spec|].
  cbn [nodes aurora_tree color_ramp_main emission_falloff_ramp
       vertical_fade_ramp multiply_emission combine_fade_and_noise noise_tex
       aurora_handles].
  destruct props as [h n c1 c2 es ns nd []];
    split_and!; vm_compute; reflexivity.
Qed.

Lemma drop_fcurves_none (prefix : string) (a : option AnimData) ns ls :
  fcurves_of {| nodes := ns; links := ls; animation_data := a |} = [] →
  fcurves_of {| nodes := ns; links := ls;
                animation_data := drop_fcurves prefix a |} = [].
Proof.
  unfold fcurves_of, drop_fcurves. cbn [animation_data].
  destruct a as [[[act|]]|]; try done. cbn [fcurves]. by intros ->.
Qed.

Lemma cleared_none (ns : list Node) (a : option AnimData) :
  fcurves_of {| nodes := []; links := []; animation_data := a |} = [] →
  fcurves_of {| nodes := []; links := [];
                animation_data :=
                  foldr (λ n a, drop_fcurves (node_path (nd_name n)) a)
                        a ns |} = [].
Proof.
  intros Ha. induction ns as [|n ns IH]; [done|].
  cbn [foldr]. by apply drop_fcurves_none.
Qed.

Lemma fcurves_after_build (props : Props) (t : NodeTree) :
  cleared_fcurves t = [] →
  fcurves_of (aurora_tree props t)
  = if animate props
    then [offset_fcurve 0 0 0; offset_fcurve 1 0 5; offset_fcurve 2 0 0]
    else [].
Proof.
  intros Ht. unfold aurora_tree, final_animation, fcurves_of.
  cbn [animation_data]. rewrite Ht.
  destruct (animate props); [vm_compute; reflexivity|]. exact Ht.
Qed.

Lemma cleared_after_build (props : Props) (t : NodeTree) :
  cleared_fcurves t = [] → cleared_fcurves (aurora_tree props t) = [].
Proof.
  intros Ht. unfold cleared_fcurves, cleared, aurora_tree.
  cbn [nodes animation_data]. unfold final_animation, final_nodes.
  rewrite Ht.
  destruct props as [h n c1 c2 es ns nd []]; cbn [animate].
  - vm_compute. reflexivity.
  - apply cleared_none. exact Ht.
Qed.

(** X12: building again.  On a tree without F-curves left after a
    clear, building twice gives the nodes and links of a single build with
    the second properties, and the F-curves of the second build only:
    three if its [animate] is on, none if it is off, whatever the first
    build animated. *)
Theorem rebuilding_keeps_three_fcurves (p1 p2 : Props) (t : NodeTree) :
  cleared_fcurves t = [] →
  ∃ hs tree1 tree2,
    build_node_tree p1 t = Ok hs tree1 ∧
    build_node_tree p2 tree1 = Ok hs tree2 ∧
    nodes tree2 = final_nodes p2 ∧ links tree2 = aurora_links ∧
    fcurves_of tree2
    = (if animate p2
       then [offset_fcurve 0 0 0; offset_fcurve 1 0 5; offset_fcurve 2 0 0]
       else []).
Proof.
  intros Ht. eexists _, _, _.
  split; [apply build_node_tree_spec|].
  split; [apply build_node_tree_spec|].
  split; [reflexivity|]. split; [reflexivity|].
  apply fcurves_after_build, cleared_after_build, Ht.
Qed.

Lemma rebuilding_keeps_three_fcurves_witness :
  ∃ hs tree1 tree2,
    build_node_tree Example.small_props default_node_tree = Ok hs tree1 ∧
    build_node_tree Example.small_props tree1 = Ok hs tree2 ∧
    nodes tree2 = final_nodes Example.small_props ∧
    links tree2 = aurora_links ∧
    fcurves_of tree2
    = (if animate Example.small_props
       then [offset_fcurve 0 0 0; offset_fcurve 1 0 5; offset_fcurve 2 0 0]
       else []).
Proof.
  apply (rebuilding_keeps_three_fcurves Example.small_props
           Example.small_props default_node_tree).
  reflexivity.
Defined.

(** X13: the resolution is capped.  Two property sets of the same
    height whose [subdivisions] are both 100 or more give the same base
    mesh, of 101 * 101 faces: the operator clamps the cuts to 100. *)
Theorem resolution_is_capped (p1 p2 : Props) (s : Host) :
  aurora_height p1 = aurora_height p2 →
  (100 ≤ subdivisions p1)%nat →
  (100 ≤ subdivisions p2)%nat →
  create_base_mesh p1 s = create_base_mesh p2 s ∧
  length (aurora_faces p1) = (101 * 101)%nat.
Proof.
  intros Hh H1 H2.
  assert (∀ p, (100 ≤ subdivisions p)%nat →
               clamp_cuts (subdivisions p) = 100%nat) as Hclamp.
  { intros p Hp. unfold clamp_cuts. lia. }
  assert (aurora_faces p1 = aurora_faces p2) as Hfaces.
  { unfold aurora_faces. by rewrite Hh, !Hclamp. }
  split.
  - rewrite !create_base_mesh_spec. unfold base_mesh. by rewrite Hfaces.
  - unfold aurora_faces. rewrite (Hclamp p1 H1).
    destruct (ShapeFacts.resized_plane (aurora_height p1)) as (q0 & -> & _).
    cbn [flat_map]. rewrite app_nil_r.
    rewrite ShapeFacts.length_subdivide_quad. reflexivity.
Qed.

Lemma resolution_is_capped_witness :
  create_base_mesh default_props Example.drawn_scene
  = create_base_mesh
      {| aurora_height := 5; subdivisions := 1024;
         color1 := RGBA 1 1 1 1; color2 := RGBA 0 0 0 1;
         emission_strength := 1; noise_scale := 1; noise_distortion := 0;
         animate := false |} Example.drawn_scene ∧
  length (aurora_faces default_props) = (101 * 101)%nat.
Proof.
  apply (resolution_is_capped default_props
           {| aurora_height := 5; subdivisions := 1024;
              color1 := RGBA 1 1 1 1; color2 := RGBA 0 0 0 1;
              emission_strength := 1; noise_scale := 1;
              noise_distortion := 0; animate := false |}
           Example.drawn_scene).
  - reflexivity.
  - cbn. lia.
  - cbn. lia.
Defined.

End GraphSettings.

Module PanelFacts.
Import Aurora Panel.

(** X14: the panel and [poll].  The panel shows the button of the
    create operator exactly when its [poll] holds; it then shows one field
    per property, and none otherwise; the button of the draw operator is
    always shown. *)
Theorem panel_offers_create_iff_poll (h : Host) :
  (create_idname ∈ flat_map operators (draw h) ↔ poll h = true) ∧
  (draw_path_idname ∈ flat_map operators (draw h)) ∧
  flat_map fields (draw h) = (if poll h then property_names else []).
Proof.
  assert (∀ l : list string,
            create_idname ∈ draw_path_idname :: l ↔ create_idname ∈ l)
    as Hskip.
  { intros l. rewrite elem_of_cons. split; [|by right].
    by intros [Heq | Hin]. }
  unfold draw, poll.
  destruct (active h) as [a|]; [destruct (objects h !! a) as [o|];
    [destruct (bool_decide (ob_type o = CURVE))|]|];
    cbn; rewrite Hskip; split_and!;
    try reflexivity; try apply list_elem_of_here;
    (split; [|by (intros; try apply list_elem_of_here)]);
    intros Hin; try done; by apply elem_of_nil in Hin.
Qed.

End PanelFacts.
Module FrameFacts.
Import Tree Ops Aurora Graph Built CompilerFacts CleanupFacts GraphFacts.
Import CompileClaims RunFacts.

(** X15: the teardown and shared data.  If the mesh of the tagged object
    and the tagged texture each have another user, the teardown removes
    the object and keeps both blocks, each with one user less. *)
Theorem teardown_keeps_shared_data (s : Host) (c A M T : string)
    (cobj : Object) (me : Mesh) (tx : Texture) (k j : nat) :
  objects s !! c = Some cobj →
  ob_props cobj !! "aurora_object_name" = Some A →
  ob_props cobj !! "aurora_texture_name" = Some T →
  objects s !! A = Some (rigged_object M c T) →
  A ≠ c →
  meshes s !! M = Some me → me_users me = S (S k) →
  textures s !! T = Some tx → tx_users tx = S (S j) →
  ∃ t,
    cleanup c s = Ok tt t ∧
    objects t !! A = None ∧
    meshes t !! M = Some (me_set_users Nat.pred me) ∧
    textures t !! T = Some (tx_set_users Nat.pred tx) ∧
    dom (meshes t) = dom (meshes s) ∧ dom (textures t) = dom (textures s).
Proof.
  intros Hc Htag_o Htag_t HA Hne HM Hmu HT Htu. unfold cleanup.
  rewrite ?bind_assoc.
  step_by ltac:(rewrite Hc; run_host). rewrite Htag_o. cbv beta iota.
  rewrite ?bind_assoc.
  step. rewrite HA. cbv beta iota. rewrite ?bind_assoc.
  step_by ltac:(rewrite HA; run_host).
  cbn [ob_data ob_type rigged_object]. rewrite ?bind_assoc.
  step_by ltac:(rewrite lookup_alter_eq, HM; cbn [fmap option_fmap option_map]; run_host).
  rewrite Hmu. cbn [Nat.pred].
  step.
  step_by ltac:(rewrite lookup_fmap, lookup_delete_ne, Hc by done;
                cbn [fmap option_fmap option_map]; run_host).
  cbn [ob_props ob_set_modifiers]. rewrite Htag_t. cbv beta iota.
  step. unfold release_textures.
  cbn [foldr md_texture follow_curve displacement ob_modifiers rigged_object].
  rewrite lookup_alter_eq, HT. cbn [fmap option_fmap option_map tx_users tx_set_users].
  rewrite Htu. cbn [Nat.pred]. run_host.
  eexists. split; [reflexivity|].
  cbn [objects meshes textures set_textures set_meshes set_curves set_active
       set_collection set_objects].
  split_and!.
  - by rewrite lookup_fmap, lookup_delete_eq.
  - by rewrite lookup_alter_eq, HM.
  - by rewrite lookup_alter_eq, HT.
  - apply dom_alter_L.
  - apply dom_alter_L.
Qed.
Lemma teardown_keeps_shared_data_witness :
  ∃ t,
    cleanup "AuroraCurve" Example.shared_scene = Ok tt t ∧
    objects t !! "Aurora" = None ∧
    meshes t !! "Plane"
    = Some (me_set_users Nat.pred
              (me_set_users S
                 (aurora_mesh Example.small_props "Aurora_Material"))) ∧
    textures t !! "AuroraDisplaceTexture"
    = Some (tx_set_users Nat.pred (tx_set_users S displace_texture)) ∧
    dom (meshes t) = dom (meshes Example.shared_scene) ∧
    dom (textures t) = dom (textures Example.shared_scene).
Proof.
  apply (teardown_keeps_shared_data Example.shared_scene "AuroraCurve"
           "Aurora" "Plane" "AuroraDisplaceTexture"
           (tagged "Aurora" "AuroraDisplaceTexture" "Aurora_Material"
              (ob_set_select true (new_object CURVE (Some "AuroraPath"))))
           (me_set_users S (aurora_mesh Example.small_props "Aurora_Material"))
           (tx_set_users S displace_texture) 0 0).
  - vm_compute. reflexivity.
  - vm_compute. reflexivity.
  - vm_compute. reflexivity.
  - vm_compute. reflexivity.
  - discriminate.
  - vm_compute. reflexivity.
  - reflexivity.
  - vm_compute. reflexivity.
  - reflexivity.
Defined.

(** The objects after the teardown: those before it, or those before it
    without the tagged one and with no modifier pointing at it. *)
Lemma cleanup_objects c s t :
  cleanup c s = Ok tt t →
  objects t = objects s
  ∨ ∃ A, tag s c "aurora_object_name" = Some A ∧ A ≠ c ∧
         objects t = forget A <$> delete A (objects s).
Proof.
  unfold cleanup. unfold bind at 1.
  destruct (get_prop c "aurora_object_name" s) as [v s'|] eqn:Hg; [|done].
  apply get_prop_inv in Hg as (-> & co & Hco & ->).
  unfold bind at 1.
  match goal with |- context [match ?X s with _ => _ end] =>
    destruct (X s) as [[] s2|] eqn:H1 end; [|done].
  assert (objects s2 = objects s
          ∨ ∃ A, ob_props co !! "aurora_object_name" = Some A ∧
                 objects s2 = forget A <$> delete A (objects s)) as Hs2.
  { destruct (ob_props co !! "aurora_object_name") as [A|];
      [|injection H1 as <-; by left].
    unfold bind at 1, gets at 1 in H1.
    destruct (objects s !! A) as [o|] eqn:HA; [|left; by injection H1 as <-].
    right. exists A. split; [done|]. unfold bind at 1 in H1.
    destruct (objects_remove A s) as [[] s3|] eqn:Hrm; [|done].
    apply objects_remove_inv in Hrm. rewrite <- Hrm.
    destruct (ob_data o) as [m|]; [|by injection H1 as <-].
    unfold bind at 1 in H1.
    destruct (data_users (ob_type o) m s3) as [u s4|] eqn:Hu; [|done].
    apply data_users_inv in Hu as ->.
    destruct u; [|by injection H1 as <-].
    by apply meshes_remove_data_inv in H1. }
  clear H1. unfold bind at 1.
  destruct (get_prop c "aurora_texture_name" s2) as [v s'|] eqn:Hg; [|done].
  apply get_prop_inv in Hg as (-> & co2 & Hco2 & ->).
  intros Hrest.
  assert (objects t = objects s2) as Ht.
  { destruct (ob_props co2 !! "aurora_texture_name") as [T|];
      [|by injection Hrest as <-].
    unfold bind at 1, gets at 1 in Hrest.
    destruct (textures s2 !! T) as [tx|]; [|by injection Hrest as <-].
    destruct (tx_users tx); by injection Hrest as <-. }
  rewrite Ht. destruct Hs2 as [Hs2 | (A & HA & Hs2)]; [by left|].
  right. exists A. split_and!; [|intros ->|done].
  - unfold tag. by rewrite Hco.
  - by rewrite Hs2, lookup_fmap, lookup_delete_eq in Hco2.
Qed.

(** X16: the other objects.  An object that is in the file after a
    successful run and is neither the curve nor the new aurora was in the
    file before, with the same type, data, custom properties, rotation
    and modifier names; the run leaves it deselected. *)
Theorem run_keeps_other_objects (props : Props) (s s1 : Host)
    (c name : string) (o : Object) (r : OpResult) :
  active s = Some c →
  execute props s = Ok r s1 →
  objects s1 !! name = Some o →
  name ≠ c →
  tag s1 c "aurora_object_name" ≠ Some name →
  ∃ o0,
    objects s !! name = Some o0 ∧
    ob_type o = ob_type o0 ∧ ob_data o = ob_data o0 ∧
    ob_props o = ob_props o0 ∧
    ob_rotation_euler o = ob_rotation_euler o0 ∧
    md_name <$> ob_modifiers o = md_name <$> ob_modifiers o0 ∧
    ob_select o = false.
Proof.
  intros Hact Hrun Ho Hnc HnA.
  destruct (execute_inv props s s1 c r Hact Hrun)
    as (t & co & Hclean & Hco & _ & ->).
  rewrite (tag_rebuilt props t c co _ Hco) in HnA.
  rewrite decide_False, decide_True in HnA by done.
  assert (name ≠ aurora_name t) as HnA' by (intros ->; by apply HnA).
  unfold rebuilt in Ho. cbn [objects host_with] in Ho.
  rewrite !lookup_insert_ne, lookup_fmap in Ho by done.
  destruct (objects t !! name) as [ot|] eqn:Hot; [|done].
  injection Ho as <-.
  assert (∀ f (l : list Modifier),
            (∀ m, md_name (f m) = md_name m) →
            md_name <$> (f <$> l) = md_name <$> l) as Hnames.
  { intros f l Hf. induction l as [|m l IH]; [done|].
    cbn. by rewrite Hf, <- IH. }
  assert (∀ P A m, md_name (md_follow P A m) = md_name m) as Hfollow.
  { intros P A m. unfold md_follow.
    destruct (decide (md_object m = Some P)); reflexivity. }
  assert (∀ A m, md_name (md_forget A m) = md_name m) as Hforget.
  { intros A m. unfold md_forget.
    destruct (decide (md_object m = Some A)); reflexivity. }
  destruct (cleanup_objects c s t Hclean) as [Hobs | (A & HA & HAc & Hobs)];
    rewrite Hobs in Hot.
  - exists ot. split_and!; try done.
    cbn. by apply Hnames.
  - rewrite lookup_fmap in Hot.
    destruct (decide (name = A)) as [->|HnA0];
      [by rewrite lookup_delete_eq in Hot|].
    rewrite lookup_delete_ne in Hot by done.
    destruct (objects s !! name) as [o0|]; [|done].
    injection Hot as <-. exists o0. split_and!; try done.
    cbn. rewrite Hnames by apply Hfollow. by apply Hnames.
Qed.

Lemma run_keeps_other_objects_witness :
  ∃ o0,
    objects Example.second_path_scene !! "Aurora" = Some o0 ∧
    ob_type (ob_set_select false
               (rigged_object "Plane" "AuroraCurve" "AuroraDisplaceTexture"))
    = ob_type o0 ∧
    ob_data (ob_set_select false
               (rigged_object "Plane" "AuroraCurve" "AuroraDisplaceTexture"))
    = ob_data o0 ∧
    ob_props (ob_set_select false
                (rigged_object "Plane" "AuroraCurve" "AuroraDisplaceTexture"))
    = ob_props o0 ∧
    ob_rotation_euler
      (ob_set_select false
         (rigged_object "Plane" "AuroraCurve" "AuroraDisplaceTexture"))
    = ob_rotation_euler o0 ∧
    md_name <$> ob_modifiers
      (ob_set_select false
         (rigged_object "Plane" "AuroraCurve" "AuroraDisplaceTexture"))
    = md_name <$> ob_modifiers o0 ∧
    ob_select
      (ob_set_select false
         (rigged_object "Plane" "AuroraCurve" "AuroraDisplaceTexture"))
    = false.
Proof.
  apply (run_keeps_other_objects Example.still_props
           Example.second_path_scene Example.two_auroras_scene
           "AuroraCurve.001" "Aurora"
           (ob_set_select false
              (rigged_object "Plane" "AuroraCurve" "AuroraDisplaceTexture"))
           FINISHED).
  - vm_compute. reflexivity.
  - vm_compute. reflexivity.
  - vm_compute. reflexivity.
  - discriminate.
  - vm_compute. discriminate.
Defined.

End FrameFacts.
